(** * Weblate views: failing-check listings and the glossary (dictionary)

    A shallow embedding of [trans/views/checks.py], [trans/views/dictionary.py],
    [weblate/__init__.py] and the application routes of [weblate/urls.py].
    Views are programs of a small state-and-exception monad over a world made
    of the database tables, the flash messages of the session and a log of
    the SQL statements executed. *)

From Stdlib Require Import ZArith List String Ascii Bool Lia Sorted.
From Stdlib.Strings Require Import Byte.
From Stdlib Require DecimalString.
From stdpp Require Import gmap strings.
Import ListNotations.
Open Scope string_scope.
Open Scope Z_scope.
Open Scope list_scope.

(** ** Python values the views compute with *)

Module Py.

(** Exceptions that can leave a view. *)
Inductive exn : Type :=
| Http404 (msg : string)
| IndexError
| ValueError
| ZeroDivisionError
| KeyError (key : string)
| MultipleObjectsReturned
| PermissionDenied
| PageNotAnInteger
| EmptyPage
| AssertionError
| Exception (text : string).

Inductive outcome (A : Type) : Type :=
| Ok (a : A)
| Raise (e : exn).
Arguments Ok {A} a.
Arguments Raise {A} e.

(** Text of Python 2 [unicode] objects: a list of code points. *)
Definition unicode : Type := list N.
Definition bytes : Type := list byte.

Definition byte_of_N (n : N) : byte :=
  match Byte.of_N n with
  | Some b => b
  | None => x00
  end.

(** [unicode.encode('utf8')] on one code point. *)
Definition utf8_char (c : N) : bytes :=
  if (c <? 128)%N then [byte_of_N c]
  else if (c <? 2048)%N then
    [byte_of_N (N.lor 192 (N.shiftr c 6));
     byte_of_N (N.lor 128 (N.land c 63))]
  else if (c <? 65536)%N then
    [byte_of_N (N.lor 224 (N.shiftr c 12));
     byte_of_N (N.lor 128 (N.land (N.shiftr c 6) 63));
     byte_of_N (N.lor 128 (N.land c 63))]
  else
    [byte_of_N (N.lor 240 (N.land (N.shiftr c 18) 7));
     byte_of_N (N.lor 128 (N.land (N.shiftr c 12) 63));
     byte_of_N (N.lor 128 (N.land (N.shiftr c 6) 63));
     byte_of_N (N.lor 128 (N.land c 63))].

Definition encode_utf8 (s : unicode) : bytes := flat_map utf8_char s.

(** A [str] literal read as [unicode] (one code point per character). *)
Definition u (s : string) : unicode :=
  List.map N_of_ascii (list_ascii_of_string s).

Definition bytes_of_string (s : string) : bytes := list_byte_of_string s.

(** *** [int(s)] on a text argument, base 10 *)

Definition is_space (c : ascii) : bool :=
  let n := nat_of_ascii c in
  (Nat.eqb n 32 || (Nat.leb 9 n && Nat.leb n 13))%bool.

Fixpoint lstrip (s : list ascii) : list ascii :=
  match s with
  | c :: r => if is_space c then lstrip r else s
  | [] => []
  end.

Definition strip (s : list ascii) : list ascii :=
  rev (lstrip (rev (lstrip s))).

Definition digit_of (c : ascii) : option Z :=
  let n := Z.of_nat (nat_of_ascii c) in
  if (48 <=? n) && (n <=? 57) then Some (n - 48) else None.

Fixpoint digits (acc : Z) (s : list ascii) : option Z :=
  match s with
  | [] => Some acc
  | c :: r =>
      match digit_of c with
      | Some d => digits (10 * acc + d) r
      | None => None
      end
  end.

Definition unsigned (s : list ascii) : option Z :=
  match s with
  | [] => None
  | _ => digits 0 s
  end.

(** [None] stands for the [ValueError] of an invalid literal. *)
Definition int_of_str (s : string) : option Z :=
  match strip (list_ascii_of_string s) with
  | "-"%char :: r => option_map Z.opp (unsigned r)
  | "+"%char :: r => unsigned r
  | r => unsigned r
  end.

(** ['%d' % n] *)
Definition str_of_int (n : Z) : string :=
  DecimalString.NilZero.string_of_int (Z.to_int n).

(** *** [csv.writer], default (excel) dialect

    A field is cut at its first NUL byte; it is quoted when it holds the
    delimiter, the quote character or a character of the line terminator, and
    a quote character inside it is doubled.  Fields are joined by a comma and
    the record ends with CR LF. *)

Definition comma : byte := x2c.
Definition dquote : byte := x22.
Definition cr : byte := x0d.
Definition lf : byte := x0a.

Fixpoint c_string (f : bytes) : bytes :=
  match f with
  | [] => []
  | b :: r => if Byte.eqb b x00 then [] else b :: c_string r
  end.

Definition csv_special (b : byte) : bool :=
  Byte.eqb b comma || Byte.eqb b dquote || Byte.eqb b cr || Byte.eqb b lf.

Definition csv_double (b : byte) : bytes :=
  if Byte.eqb b dquote then [dquote; dquote] else [b].

Definition csv_field (f : bytes) : bytes :=
  let f := c_string f in
  if existsb csv_special f
  then dquote :: flat_map csv_double f ++ [dquote]
  else f.

Fixpoint csv_join (fields : list bytes) : bytes :=
  match fields with
  | [] => []
  | [f] => csv_field f
  | f :: r => csv_field f ++ comma :: csv_join r
  end.

Definition csv_writerow (fields : list bytes) : bytes :=
  csv_join fields ++ [cr; lf].

End Py.
Export Py.


(** ** [weblate/__init__.py]: the version string *)

Module Weblate.

(** What module initialisation sees of the installation: how [import git]
    and [git.Repo(get_root_dir()).git.describe()] in the [try] block end.
    [ImportError]: [import git] fails with it, and [git] stays unbound.
    [GitCommandError]: [git] is imported and the calls raise an exception
    that the [except] clause names.  [OtherException]: any other exception
    of these statements (GitPython's [InvalidGitRepositoryError] or
    [NoSuchPathError], say), which the clause does not name.
    [Described]: the text [describe()] returns. *)
Inductive describe_result : Type :=
| ImportError
| GitCommandError
| OtherException
| Described (text : string).

Record Checkout : Type := {
  dot_git_exists : bool;
  git_describe : describe_result
}.

Record Module_ : Type := {
  VERSION : string;
  RUNNING_GIT : bool;
  GIT_RELEASE : bool
}.

Fixpoint split_acc (sep : ascii) (cur : string) (s : string) : list string :=
  match s with
  | EmptyString => [cur]
  | String c r =>
      if Ascii.eqb c sep then cur :: split_acc sep "" r
      else split_acc sep (cur +:+ String c "") r
  end.

(** [s.split(sep)] *)
Definition split (sep : ascii) (s : string) : list string :=
  split_acc sep "" s.

Definition is_running_git (c : Checkout) : bool := dot_git_exists c.

(** The module body.  [None] is an import that fails with an exception the
    [try] does not catch: the [ValueError] of [int(parts[2])], the
    [NameError] of naming [git.exc] in the [except] clause when [git] itself
    could not be imported, or an exception of the git calls that the clause
    does not name. *)
Definition init (c : Checkout) : option Module_ :=
  let version := "1.6" in
  if is_running_git c then
    match git_describe c with
    | ImportError => None
    | GitCommandError =>
        Some {| VERSION := version; RUNNING_GIT := false;
                GIT_RELEASE := false |}
    | OtherException => None
    | Described GIT_VERSION =>
        let parts := split "-" GIT_VERSION in
        let release :=
          if (Nat.leb (List.length parts) 2) then Some true
          else option_map (fun n => n <? 20)
                          (int_of_str (nth 2 parts "")) in
        match release with
        | None => None
        | Some true =>
            Some {| VERSION := version; RUNNING_GIT := true;
                    GIT_RELEASE := true |}
        | Some false =>
            Some {| VERSION := version +:+ "-dev"; RUNNING_GIT := true;
                    GIT_RELEASE := false |}
        end
    end
  else
    Some {| VERSION := version; RUNNING_GIT := false; GIT_RELEASE := false |}.

(** [get_doc_url(page, anchor='')] *)
Definition get_doc_url (m : Module_) (page anchor : string) : string :=
  let version :=
    if RUNNING_GIT m && negb (GIT_RELEASE m) then "latest"
    else "weblate-" +:+ VERSION m in
  let url :=
    "http://weblate.readthedocs.org/en/" +:+ version +:+ "/" +:+ page
    +:+ ".html" in
  if String.eqb anchor "" then url else url +:+ "#" +:+ anchor.

End Weblate.


(** ** The persisted entities ([trans.models], [lang.models]) *)

Module Models.

(** Modelled from the spec: the entity Project of [trans.models], with the
    columns the views read. *)
Record Project : Type := {
  project_id : Z;
  project_slug : string;
  project_name : string
}.

(** Modelled from the spec: the entity Language of [lang.models]. *)
Record Language : Type := {
  language_id : Z;
  language_code : string;
  language_name : string
}.

(** Modelled from the spec: the entity SubProject, a component of a
    Project (a foreign key, here the row it points to). *)
Record SubProject : Type := {
  subproject_id : Z;
  subproject_slug : string;
  subproject_name : string;
  subproject_project : Project
}.

(** Modelled from the spec: the entity Translation, one language of a
    SubProject. *)
Record Translation : Type := {
  translation_id : Z;
  translation_subproject : SubProject;
  translation_language : Language
}.

(** Modelled from the spec: the entity Unit, a translatable string of a
    Translation, identified by its checksum. *)
Record Unit : Type := {
  unit_id : Z;
  unit_checksum : string;
  unit_translation : Translation;
  unit_translated : bool
}.

(** Modelled from the spec: the entity Check, a flagged quality issue
    scoped to project, language and checksum, with an [ignore] flag;
    [check_check] is the name of the check and [check_language] is [None]
    (a NULL column) for a source-scoped check. *)
Record Check : Type := {
  check_id : Z;
  check_check : string;
  check_project : Project;
  check_language : option Language;
  check_checksum : string;
  check_ignore : bool
}.

(** Modelled from the spec: the entity Dictionary, a source and target
    term pair scoped to a project and a language. *)
Record Dictionary : Type := {
  dictionary_id : Z;
  dictionary_project : Project;
  dictionary_language : Language;
  dictionary_source : unicode;
  dictionary_target : unicode
}.

(** The tables, each in the order its default queryset delivers it. *)
Record DB : Type := {
  projects : list Project;
  languages : list Language;
  subprojects : list SubProject;
  translations : list Translation;
  units : list Unit;
  checks : list Check;
  dictionaries : list Dictionary
}.

Inductive Model : Type :=
| MProject | MLanguage | MSubProject | MTranslation | MUnit | MCheck
| MDictionary.

Definition Model_eqb (a b : Model) : bool :=
  match a, b with
  | MProject, MProject | MLanguage, MLanguage | MSubProject, MSubProject
  | MTranslation, MTranslation | MUnit, MUnit | MCheck, MCheck
  | MDictionary, MDictionary => true
  | _, _ => false
  end.

(** Rows are compared by primary key, as the ORM does in a filter. *)
Definition same_project (a b : Project) : bool :=
  project_id a =? project_id b.
Definition same_language (a b : Language) : bool :=
  language_id a =? language_id b.
Definition same_subproject (a b : SubProject) : bool :=
  subproject_id a =? subproject_id b.

End Models.
Export Models.

Module Checks.

(** Modelled from the spec: an entry of the [CHECKS] registry of
    [trans.checks], with the attributes the views read: its display name
    and whether it is target-scoped, source-scoped, or both. *)
Record CheckClass : Type := {
  name : string;
  target : bool;
  source : bool
}.

End Checks.

(** ** The framework: requests, responses, the view monad *)

Module Django.

(** [request.GET] and [request.POST]: keys may repeat and a lookup answers
    the last value given. *)
Definition QueryDict : Type := list (string * string).

Fixpoint qd_get (q : QueryDict) (key : string) : option string :=
  match q with
  | [] => None
  | (k, v) :: r =>
      match qd_get r key with
      | Some v' => Some v'
      | None => if String.eqb k key then Some v else None
      end
  end.

Definition qd_contains (q : QueryDict) (key : string) : bool :=
  match qd_get q key with
  | Some _ => true
  | None => false
  end.

Record User : Type := {
  is_authenticated : bool;
  is_active : bool;
  is_superuser : bool;
  permissions : list string
}.

Definition has_perm (usr : User) (perm : string) : bool :=
  is_active usr
  && (is_superuser usr
      || (is_authenticated usr && existsb (String.eqb perm) (permissions usr))).

Record UploadedFile : Type := {
  file_name : string;
  file_content : bytes
}.

Record HttpRequest : Type := {
  method : string;
  GET : QueryDict;
  POST : QueryDict;
  FILES : list (string * UploadedFile);
  user : User;
  full_path : string
}.

Fixpoint files_get (fs : list (string * UploadedFile)) (key : string)
  : option UploadedFile :=
  match fs with
  | [] => None
  | (k, f) :: r => if String.eqb k key then Some f else files_get r key
  end.

(** Flash messages of [django.contrib.messages]. *)
Inductive Level : Type := INFO | WARNING | ERROR.
Definition Message : Type := (Level * string)%type.

(** The world a view runs in.  [queries] lists the tables read by each SQL
    statement executed so far, oldest first. *)
Record World : Type := {
  db : DB;
  messages : list Message;
  queries : list (list Model)
}.

Definition M (A : Type) : Type := World -> outcome A * World.

Definition ret {A} (a : A) : M A := fun w => (Ok a, w).

Definition raise {A} (e : exn) : M A := fun w => (Raise e, w).

Definition bind {A B} (m : M A) (k : A -> M B) : M B :=
  fun w =>
    match m w with
    | (Ok a, w') => k a w'
    | (Raise e, w') => (Raise e, w')
    end.

(** [try: m  except Exception as e: handler(e)] *)
Definition try_except {A} (m : M A) (handler : exn -> M A) : M A :=
  fun w =>
    match m w with
    | (Ok a, w') => (Ok a, w')
    | (Raise e, w') => handler e w'
    end.

Notation "'let*' x ':=' m 'in' k" := (bind m (fun x => k))
  (at level 10, x name, m at level 100, k at level 200).

(** One SQL statement reading [tables]: it is logged and answered from the
    tables. *)
Definition query {A} (tables : list Model) (f : DB -> A) : M A :=
  fun w =>
    (Ok (f (db w)),
     {| db := db w; messages := messages w;
        queries := queries w ++ [tables] |}).

(** One SQL statement that writes. *)
Definition execute (tables : list Model) (f : DB -> DB) : M unit :=
  fun w =>
    (Ok tt,
     {| db := f (db w); messages := messages w;
        queries := queries w ++ [tables] |}).

Definition add_message (level : Level) (text : string) : M unit :=
  fun w =>
    (Ok tt,
     {| db := db w; messages := messages w ++ [(level, text)];
        queries := queries w |}).

(** [ugettext] in the untranslated (source) locale. *)
Definition ugettext (s : string) : string := s.

(** [unicode(e)] *)
Definition exn_text (e : exn) : string :=
  match e with
  | Http404 msg => msg
  | IndexError => "list index out of range"
  | ValueError => "invalid literal for int() with base 10"
  | ZeroDivisionError => "float division by zero"
  | KeyError key => key
  | MultipleObjectsReturned => "get() returned more than one row"
  | PermissionDenied => ""
  | PageNotAnInteger => "That page number is not an integer"
  | EmptyPage => "That page contains no results"
  | AssertionError => "Negative indexing is not supported."
  | Exception text => text
  end.

(** [get_object_or_404(Model, **lookup)] *)
Definition get_object_or_404 {A} (model : Model) (object_name : string)
    (table : DB -> list A) (lookup : A -> bool) : M A :=
  let* found := query [model] (fun d => List.filter lookup (table d)) in
  match found with
  | [] => raise (Http404 ("No " +:+ object_name
                          +:+ " matches the given query."))
  | [obj] => ret obj
  | _ => raise MultipleObjectsReturned
  end.

(** [queryset[0]] *)
Definition first_row {A} (model : Model) (rows : DB -> list A) : M A :=
  let* found := query [model] (fun d => firstn 1 (rows d)) in
  match found with
  | obj :: _ => ret obj
  | [] => raise IndexError
  end.

End Django.
Export Django.

(** ** The translate-toolkit stores ([translate.storage.po], [.tbx])

    A store is known by the calls made on it, in order. *)

Module Ttkit.

Inductive StoreClass : Type := pofile | tbxfile.

Inductive StoreCall : Type :=
| updateheader (add : bool) (fields : list (string * string))
| addunit (unit_source : unicode) (unit_target : unicode)
          (target_lang : option string).

Record Store : Type := {
  store_class : StoreClass;
  calls : list StoreCall
}.

Definition new (c : StoreClass) : Store :=
  {| store_class := c; calls := [] |}.

Definition call (s : Store) (c : StoreCall) : Store :=
  {| store_class := store_class s; calls := calls s ++ [c] |}.

End Ttkit.

(** ** Responses and template contexts *)

Module Http.

(** [values(fields).annotate(count=Count('id'))]: one row per group, the
    values of [fields] and the number of rows in the group. *)
Definition ValuesRow : Type := (list string * nat)%type.

(** A page of a paginator: its 1-based number and its objects. *)
Record Page : Type := {
  number : Z;
  object_list : list Dictionary
}.

Inductive ctxval : Type :=
| CText (s : string)
| CBool (b : bool)
| CValues (fields : list string) (rows : list ValuesRow)
| CCounts (counts : list nat)
| CCheck (c : Checks.CheckClass)
| CProject (p : Project)
| CSubProject (s : SubProject)
| CLanguage (l : Language)
| CLanguages (ls : list Language)
| CPage (p : Page)
| CUnicode (s : unicode)
| CForm (form_class : string) (data : option QueryDict)
        (initial : list (string * unicode)).

Definition Context : Type := list (string * ctxval).

Inductive Body : Type :=
| Written (content : bytes)
| Saved (store : Ttkit.Store).

Inductive HttpResponse : Type :=
| Rendered (template : string) (context : Context)
| HttpResponseRedirect (url : string)
| Download (mimetype : string) (headers : list (string * string))
           (body : Body).

Definition render_to_response (template : string) (context : Context)
  : HttpResponse := Rendered template context.

Fixpoint context_get (c : Context) (key : string) : option ctxval :=
  match c with
  | [] => None
  | (k, v) :: r => if String.eqb k key then Some v else context_get r key
  end.

End Http.
Export Http.

(** ** The query layer used by the views *)

Module Orm.

Fixpoint keys_eqb (a b : list string) : bool :=
  match a, b with
  | [], [] => true
  | x :: a', y :: b' => String.eqb x y && keys_eqb a' b'
  | _, _ => false
  end.

Fixpoint bump (k : list string) (acc : list ValuesRow) : list ValuesRow :=
  match acc with
  | [] => [(k, 1%nat)]
  | (k', n) :: r =>
      if keys_eqb k k' then (k', S n) :: r else (k', n) :: bump k r
  end.

(** [GROUP BY key] with [COUNT(id)] *)
Definition group_count {A} (key : A -> list string) (rows : list A)
  : list ValuesRow :=
  fold_left (fun acc row => bump (key row) acc) rows [].

Definition opt_eqb (a b : option Z) : bool :=
  match a, b with
  | Some x, Some y => x =? y
  | None, None => true
  | _, _ => false
  end.

(** [.distinct()] on a flat list of nullable keys *)
Fixpoint distinct (l : list (option Z)) : list (option Z) :=
  match l with
  | [] => []
  | x :: r => x :: List.filter (fun y => negb (opt_eqb x y)) (distinct r)
  end.

(** The value of a foreign-key column. *)
Definition language_fk (l : option Language) : option Z :=
  option_map language_id l.

(** A lazy queryset over [Unit] after [values(...).annotate(count)]: either
    [Unit.objects.none()] or a WHERE clause (which may hold a subquery on
    other tables) with the grouping fields. *)
Inductive UnitQuerySet : Type :=
| EmptyQuerySet
| Values (fields : list string) (key : Unit -> list string)
         (where_ : DB -> Unit -> bool).

(** [a | b]: the rows of either, under the fields of the left operand. *)
Definition qs_or (a b : UnitQuerySet) : UnitQuerySet :=
  match a, b with
  | EmptyQuerySet, _ => b
  | _, EmptyQuerySet => a
  | Values f k w, Values _ _ w' => Values f k (fun d x => w d x || w' d x)
  end.

(** Running the statement of a queryset; [none()] runs none. *)
Definition evaluate (qs : UnitQuerySet) : M (list ValuesRow) :=
  match qs with
  | EmptyQuerySet => ret []
  | Values _ k w =>
      query [MUnit; MCheck]
            (fun d => group_count k (List.filter (w d) (units d)))
  end.

Definition fields_of (qs : UnitQuerySet) : list string :=
  match qs with
  | EmptyQuerySet => []
  | Values f _ _ => f
  end.

(** [checksum__in=checks], [checks] a queryset over [Check] *)
Definition checksum_in (checks_where : Check -> bool) (d : DB) (x : Unit)
  : bool :=
  existsb (fun c => checks_where c
                    && String.eqb (check_checksum c) (unit_checksum x))
          (checks d).

(** [for x in l: s = body(x, s)] *)
Fixpoint for_each {A S} (l : list A) (body : A -> S -> M S) (s : S) : M S :=
  match l with
  | [] => ret s
  | x :: r => let* s' := body x s in for_each r body s'
  end.

End Orm.
Export Orm.

(** ** [trans/views/checks.py] *)

Section ChecksViews.

(** The registry [trans.checks.CHECKS], and the lookups of
    [trans.views.helper]: they answer from the project tables (and the
    access rules for the user of the request) or raise. *)
Variable CHECKS : gmap string Checks.CheckClass.
Variable get_project :
  HttpRequest -> string -> list Project -> outcome Project.
Variable get_subproject :
  HttpRequest -> string -> string -> list Project -> list SubProject
  -> outcome SubProject.

(** A statement reading [tables] that may raise. *)
Definition helper {A} (tables : list Model) (f : DB -> outcome A) : M A :=
  fun w =>
    (f (db w),
     {| db := db w; messages := messages w;
        queries := queries w ++ [tables] |}).

Definition project_of (request : HttpRequest) (project : string)
  : M Project :=
  helper [MProject] (fun d => get_project request project (projects d)).

Definition subproject_of (request : HttpRequest)
    (project subproject : string) : M SubProject :=
  helper [MProject; MSubProject]
    (fun d => get_subproject request project subproject
                             (projects d) (subprojects d)).

(** Modelled from the spec: [Project.__unicode__], the name of the
    project. *)
Definition Project_unicode (p : Project) : string := project_name p.

(** Modelled from the spec: [SubProject.__unicode__], the project and the
    component name. *)
Definition SubProject_unicode (s : SubProject) : string :=
  Project_unicode (subproject_project s) +:+ "/" +:+ subproject_name s.

(** [try: check = CHECKS[name]  except KeyError: raise Http404(...)] *)
Definition lookup_check (name : string) : M Checks.CheckClass :=
  match CHECKS !! name with
  | Some check => ret check
  | None => raise (Http404 "No check matches the given query.")
  end.

Definition show_checks (request : HttpRequest) : M HttpResponse :=
  let allchecks := fun c : Check => negb (check_ignore c) in
  let* rows :=
    query [MCheck]
          (fun d => group_count (fun c => [check_check c])
                                (List.filter allchecks (checks d))) in
  ret (render_to_response "checks.html"
         [("checks", CValues ["check"] rows);
          ("title", CText (ugettext "Failing checks"))]).

Definition show_check (request : HttpRequest) (name : string)
  : M HttpResponse :=
  let* check := lookup_check name in
  let checks_ := fun c : Check =>
    String.eqb (check_check c) name && negb (check_ignore c) in
  let* rows :=
    query [MCheck]
          (fun d => group_count (fun c => [project_slug (check_project c)])
                                (List.filter checks_ (checks d))) in
  ret (render_to_response "check.html"
         [("checks", CValues ["project__slug"] rows);
          ("title", CText (Checks.name check));
          ("check", CCheck check)]).

Definition unit_language_is (lang : option Z) (x : Unit) : bool :=
  opt_eqb (Some (language_id (translation_language (unit_translation x))))
          lang.

(** [Check.objects.filter(check=name, project=prj, ignore=False)
      .values_list('language', flat=True).distinct()] *)
Definition check_languages (name : string) (prj : Project) (d : DB)
  : list (option Z) :=
  distinct
    (List.map (fun c => language_fk (check_language c))
       (List.filter
          (fun c => String.eqb (check_check c) name
                    && same_project (check_project c) prj
                    && negb (check_ignore c))
          (checks d))).

(** [Check.objects.filter(check=name, project=prj, language=lang,
      ignore=False)]; [lang] is a key of [Language] or [None] (NULL). *)
Definition checks_for (name : string) (prj : Project) (lang : option Z)
    (c : Check) : bool :=
  String.eqb (check_check c) name
  && same_project (check_project c) prj
  && opt_eqb (language_fk (check_language c)) lang
  && negb (check_ignore c).

(** [prj.subproject_set.all()] and [subproject.translation_set.all()], in
    the order the tables deliver them. *)
Definition subproject_set (prj : Project) (d : DB) : list SubProject :=
  List.filter (fun s => same_project (subproject_project s) prj)
              (subprojects d).

Definition translation_set (subproject : SubProject) (d : DB)
  : list Translation :=
  List.filter
    (fun t => same_subproject (translation_subproject t) subproject)
    (translations d).

Definition project_fields : list string :=
  ["translation__subproject__slug";
   "translation__subproject__project__slug"].

Definition project_key (x : Unit) : list string :=
  let sp := translation_subproject (unit_translation x) in
  [subproject_slug sp; project_slug (subproject_project sp)].

(** The queryset [res] of the target loop of [show_check_project]. *)
Definition project_target_res (name : string) (prj : Project)
    (lang : option Z) : UnitQuerySet :=
  Values project_fields project_key
    (fun d x =>
       checksum_in (checks_for name prj lang) d x
       && unit_language_is lang x
       && same_project
            (subproject_project
               (translation_subproject (unit_translation x))) prj
       && unit_translated x).

(** The queryset [res] of the source loop of [show_check_project]. *)
Definition project_source_res (name : string) (prj : Project)
    (subproject : SubProject) (lang : Language) : UnitQuerySet :=
  Values project_fields project_key
    (fun d x =>
       checksum_in (checks_for name prj None) d x
       && same_language (translation_language (unit_translation x)) lang
       && same_subproject (translation_subproject (unit_translation x))
                          subproject).

(** The [if check.target:] block of [show_check_project]. *)
Definition project_target_units (name : string) (prj : Project)
    (units_ : UnitQuerySet) : M UnitQuerySet :=
  let* langs := query [MCheck] (check_languages name prj) in
  for_each langs
    (fun lang units_ =>
       ret (qs_or units_ (project_target_res name prj lang)))
    units_.

(** [subproject.translation_set.all()[0].language] *)
Definition first_language (subproject : SubProject) : M Language :=
  let* first := first_row MTranslation (translation_set subproject) in
  query [MLanguage] (fun _ => translation_language first).

(** The [if check.source:] block of [show_check_project]. *)
Definition project_source_units (name : string) (prj : Project)
    (units_ : UnitQuerySet) : M UnitQuerySet :=
  let* subprojects_ := query [MSubProject] (subproject_set prj) in
  for_each subprojects_
    (fun subproject units_ =>
       let* lang := first_language subproject in
       ret (qs_or units_ (project_source_res name prj subproject lang)))
    units_.

Definition show_check_project (request : HttpRequest) (name project : string)
  : M HttpResponse :=
  let* prj := project_of request project in
  let* check := lookup_check name in
  let units_ := EmptyQuerySet in
  let* units_ :=
    if Checks.target check then project_target_units name prj units_
    else ret units_ in
  let* units_ :=
    if Checks.source check then project_source_units name prj units_
    else ret units_ in
  let* rows := evaluate units_ in
  ret (render_to_response "check_project.html"
         [("checks", CValues (fields_of units_) rows);
          ("title", CText (Project_unicode prj +:+ "/" +:+ Checks.name check));
          ("check", CCheck check);
          ("project", CProject prj)]).

Definition subproject_key (x : Unit) : list string :=
  [language_code (translation_language (unit_translation x))].

(** The queryset [res] of the target loop of [show_check_subproject]. *)
Definition subproject_target_res (name : string) (subprj : SubProject)
    (lang : option Z) : UnitQuerySet :=
  Values ["translation__language__code"] subproject_key
    (fun d x =>
       same_subproject (translation_subproject (unit_translation x)) subprj
       && checksum_in (checks_for name (subproject_project subprj) lang) d x
       && unit_language_is lang x
       && unit_translated x).

(** The WHERE clause of the counted query of the source block of
    [show_check_subproject]. *)
Definition subproject_source_where (name : string) (subprj : SubProject)
    (lang : Language) (d : DB) (x : Unit) : bool :=
  same_subproject (translation_subproject (unit_translation x)) subprj
  && checksum_in (checks_for name (subproject_project subprj) None) d x
  && same_language (translation_language (unit_translation x)) lang.

(** The [if check.target:] block of [show_check_subproject]. *)
Definition subproject_target_units (name : string) (subprj : SubProject)
    (units_ : UnitQuerySet) : M UnitQuerySet :=
  let* langs :=
    query [MCheck] (check_languages name (subproject_project subprj)) in
  for_each langs
    (fun lang units_ =>
       ret (qs_or units_ (subproject_target_res name subprj lang)))
    units_.

(** The [if check.source:] block of [show_check_subproject]: the list
    [source_checks]. *)
Definition subproject_source_checks (name : string) (subprj : SubProject)
  : M (list nat) :=
  let* lang := first_language subprj in
  let* res :=
    query [MUnit; MCheck]
      (fun d => List.length
                  (List.filter (subproject_source_where name subprj lang d)
                               (units d))) in
  ret (if Nat.ltb 0 res then [res] else []).

Definition show_check_subproject (request : HttpRequest)
    (name project subproject : string) : M HttpResponse :=
  let* subprj := subproject_of request project subproject in
  let* check := lookup_check name in
  let units_ := EmptyQuerySet in
  let* units_ :=
    if Checks.target check then subproject_target_units name subprj units_
    else ret units_ in
  let* source_checks :=
    if Checks.source check then subproject_source_checks name subprj
    else ret [] in
  let* rows := evaluate units_ in
  ret (render_to_response "check_subproject.html"
         [("checks", CValues (fields_of units_) rows);
          ("source_checks", CCounts source_checks);
          ("anychecks",
           CBool (Nat.ltb 0 (List.length rows + List.length source_checks)));
          ("title",
           CText (SubProject_unicode subprj +:+ "/" +:+ Checks.name check));
          ("check", CCheck check);
          ("subproject", CSubProject subprj)]).

End ChecksViews.

(** ** [django.core.paginator] and the decorators of [django.contrib.auth] *)

Module Paginator.

(** [objects] is the lazy queryset handed to the paginator: the rows it
    yields once it is run against the tables. *)
Record t : Type := {
  objects : DB -> list Dictionary;
  per_page : Z;
  orphans : Z;
  allow_empty_first_page : bool
}.

(** Page sizes and page numbers reach the paginator either as the integer
    default of the view or as the text of a GET parameter. *)
Inductive arg : Type :=
| Int (n : Z)
| Text (s : string).

(** [int(x)] *)
Definition int (x : arg) : outcome Z :=
  match x with
  | Int n => Ok n
  | Text s =>
      match int_of_str s with
      | Some n => Ok n
      | None => Raise ValueError
      end
  end.

(** [Paginator(object_list, per_page)]: the page size is coerced by [int]. *)
Definition make (object_list_ : DB -> list Dictionary) (per_page_ : arg)
  : outcome t :=
  match int per_page_ with
  | Ok n => Ok {| objects := object_list_; per_page := n; orphans := 0;
                  allow_empty_first_page := true |}
  | Raise e => Raise e
  end.

Definition count (p : t) (d : DB) : Z :=
  Z.of_nat (List.length (objects p d)).

(** [int(ceil(hits / float(per_page)))], read as exact arithmetic. *)
Definition ceil_div (a b : Z) : Z := - ((- a) / b).

Definition num_pages (p : t) (d : DB) : outcome Z :=
  if (count p d =? 0) && negb (allow_empty_first_page p) then Ok 0
  else
    let hits := Z.max 1 (count p d - orphans p) in
    if per_page p =? 0 then Raise ZeroDivisionError
    else Ok (ceil_div hits (per_page p)).

Definition validate_number (p : t) (d : DB) (number_ : arg) : outcome Z :=
  match int number_ with
  | Raise _ => Raise PageNotAnInteger
  | Ok n =>
      if n <? 1 then Raise EmptyPage
      else
        match num_pages p d with
        | Raise e => Raise e
        | Ok np =>
            if np <? n then
              if (n =? 1) && allow_empty_first_page p then Ok n
              else Raise EmptyPage
            else Ok n
        end
  end.

(** [object_list[bottom:top]] on a queryset, which refuses negative
    bounds. *)
Definition slice (l : list Dictionary) (bottom top : Z)
  : outcome (list Dictionary) :=
  if (bottom <? 0) || (top <? 0) then Raise AssertionError
  else Ok (firstn (Z.to_nat top - Z.to_nat bottom)
                  (skipn (Z.to_nat bottom) l)).

Definition page (p : t) (d : DB) (number_ : arg) : outcome Page :=
  match validate_number p d number_ with
  | Raise e => Raise e
  | Ok n =>
      let bottom := (n - 1) * per_page p in
      let top := bottom + per_page p in
      let top := if count p d <=? top + orphans p then count p d else top in
      match slice (objects p d) bottom top with
      | Raise e => Raise e
      | Ok l => Ok {| number := n; object_list := l |}
      end
  end.

End Paginator.


(** ** [trans/views/dictionary.py] *)

Section DictionaryViews.

Variable get_project :
  HttpRequest -> string -> list Project -> outcome Project.
(** [django.core.urlresolvers.reverse] under the site's URL table, and
    [trans.util.get_site_url]. *)
Variable reverse : string -> list (string * string) -> string.
Variable get_site_url : string -> string.
(** Where [login_required] and [permission_required] send a refused
    request. *)
Variable login_redirect : HttpRequest -> string.
Variable weblate : Weblate.Module_.
(** The forms of [trans.forms]: the cleaned data of a valid form, [None] for
    an invalid one. *)
Variable WordForm : QueryDict -> option (unicode * unicode).
Variable DictUploadForm :
  QueryDict -> list (string * UploadedFile) -> option string.
Variable LetterForm : QueryDict -> option unicode.
(** [Dictionary.objects.upload(project, language, fileobj, method)]: the
    number of imported words or an exception, and the tables it leaves. *)
Variable upload :
  Project -> Language -> UploadedFile -> string -> DB -> outcome Z * DB.
(** The database's collation of [source]: [order_by('source')] and
    [source__istartswith]. *)
Variable source_le : unicode -> unicode -> bool.
Variable istartswith : unicode -> unicode -> bool.

(** Modelled from the spec: [Language.__unicode__], the name of the
    language. *)
Definition Language_unicode (l : Language) : string := language_name l.

Definition user_passes_test (test : User -> bool)
    (view : HttpRequest -> string -> string -> M HttpResponse)
  : HttpRequest -> string -> string -> M HttpResponse :=
  fun request project lang =>
    if test (user request) then view request project lang
    else ret (HttpResponseRedirect (login_redirect request)).

Definition login_required := user_passes_test is_authenticated.

Definition permission_required (perm : string) :=
  user_passes_test (fun usr => has_perm usr perm).

Definition get_language (lang : string) : M Language :=
  get_object_or_404 MLanguage "Language" languages
    (fun l => String.eqb (language_code l) lang).

(** [get_object_or_404(Dictionary, project=prj, language=lang, id=id)], the
    [id] being the text of a request parameter or [None]. *)
Definition get_word (prj : Project) (language : Language)
    (id : option string) : M Dictionary :=
  match id with
  | None =>
      get_object_or_404 MDictionary "Dictionary" dictionaries
        (fun _ => false)
  | Some s =>
      match int_of_str s with
      | None => raise ValueError
      | Some n =>
          get_object_or_404 MDictionary "Dictionary" dictionaries
            (fun w => same_project (dictionary_project w) prj
                      && same_language (dictionary_language w) language
                      && (dictionary_id w =? n))
      end
  end.

Definition show_dictionary_url (prj : Project) (language : Language)
  : string :=
  reverse "show_dictionary"
          [("project", project_slug prj); ("lang", language_code language)].

Definition dictionary_title (prj : Project) (language : Language) : string :=
  Language_unicode language +:+ " dictionary for " +:+ Project_unicode prj.

(** [Translation.objects.filter(subproject__project=obj)
      .values_list('language', flat=True).distinct()] *)
Definition project_languages (obj : Project) (d : DB) : list (option Z) :=
  distinct
    (List.map (fun t => Some (language_id (translation_language t)))
       (List.filter
          (fun t => same_project
                      (subproject_project (translation_subproject t)) obj)
          (translations d))).

Definition show_dictionaries (request : HttpRequest) (project : string)
  : M HttpResponse :=
  let* obj := project_of get_project request project in
  let dicts := project_languages obj in
  let* listed :=
    query [MLanguage; MTranslation]
      (fun d => List.filter
                  (fun l => existsb (opt_eqb (Some (language_id l)))
                                    (dicts d))
                  (languages d)) in
  ret (render_to_response "dictionaries.html"
         [("title", CText (ugettext "Dictionaries"));
          ("dicts", CLanguages listed);
          ("project", CProject obj)]).

(** [word.save()] *)
Definition save (word : Dictionary) (d : DB) : DB :=
  {| projects := projects d; languages := languages d;
     subprojects := subprojects d; translations := translations d;
     units := units d; checks := checks d;
     dictionaries :=
       if existsb (fun w => dictionary_id w =? dictionary_id word)
                  (dictionaries d)
       then List.map (fun w => if dictionary_id w =? dictionary_id word
                               then word else w) (dictionaries d)
       else dictionaries d ++ [word] |}.

(** [word.delete()] *)
Definition delete (word : Dictionary) (d : DB) : DB :=
  {| projects := projects d; languages := languages d;
     subprojects := subprojects d; translations := translations d;
     units := units d; checks := checks d;
     dictionaries :=
       List.filter (fun w => negb (dictionary_id w =? dictionary_id word))
                   (dictionaries d) |}.

(** [Dictionary.objects.create(...)]: a row under a fresh key. *)
Definition create (prj : Project) (language : Language)
    (source_ target_ : unicode) (d : DB) : DB :=
  let fresh :=
    1 + fold_right Z.max 0 (List.map dictionary_id (dictionaries d)) in
  {| projects := projects d; languages := languages d;
     subprojects := subprojects d; translations := translations d;
     units := units d; checks := checks d;
     dictionaries :=
       dictionaries d
       ++ [{| dictionary_id := fresh; dictionary_project := prj;
              dictionary_language := language;
              dictionary_source := source_;
              dictionary_target := target_ |}] |}.

Definition edit_dictionary_view (request : HttpRequest)
    (project lang : string) : M HttpResponse :=
  let* prj := project_of get_project request project in
  let* language := get_language lang in
  let* word := get_word prj language (qd_get (GET request) "id") in
  let render form :=
    ret (render_to_response "edit_dictionary.html"
           [("title", CText (ugettext (dictionary_title prj language)));
            ("project", CProject prj);
            ("language", CLanguage language);
            ("form", form)]) in
  if String.eqb (method request) "POST" then
    match WordForm (POST request) with
    | Some (source_, target_) =>
        let word' :=
          {| dictionary_id := dictionary_id word;
             dictionary_project := dictionary_project word;
             dictionary_language := dictionary_language word;
             dictionary_source := source_;
             dictionary_target := target_ |} in
        let* _ := execute [MDictionary] (save word') in
        ret (HttpResponseRedirect (show_dictionary_url prj language))
    | None => render (CForm "WordForm" (Some (POST request)) [])
    end
  else
    render (CForm "WordForm" None
                  [("source", dictionary_source word);
                   ("target", dictionary_target word)]).

Definition edit_dictionary :=
  login_required
    (permission_required "trans.change_dictionary" edit_dictionary_view).

Definition delete_dictionary_view (request : HttpRequest)
    (project lang : string) : M HttpResponse :=
  let* prj := project_of get_project request project in
  let* language := get_language lang in
  let* word := get_word prj language (qd_get (POST request) "id") in
  let* _ := execute [MDictionary] (delete word) in
  ret (HttpResponseRedirect (show_dictionary_url prj language)).

Definition delete_dictionary :=
  login_required
    (permission_required "trans.delete_dictionary" delete_dictionary_view).

(** The call of [Dictionary.objects.upload] with its arguments, as the
    [try] block evaluates it. *)
Definition run_upload (request : HttpRequest) (prj : Project)
    (language : Language) (method_ : string) : M Z :=
  match files_get (FILES request) "file" with
  | None => raise (KeyError "file")
  | Some fileobj =>
      fun w =>
        let (result, d) := upload prj language fileobj method_ (db w) in
        (result,
         {| db := d; messages := messages w;
            queries := queries w ++ [[MDictionary]] |})
  end.

Definition upload_dictionary_view (request : HttpRequest)
    (project lang : string) : M HttpResponse :=
  let* prj := project_of get_project request project in
  let* language := get_language lang in
  let* _ :=
    if String.eqb (method request) "POST" then
      match DictUploadForm (POST request) (FILES request) with
      | Some method_ =>
          try_except
            (let* count := run_upload request prj language method_ in
             if count =? 0 then
               add_message WARNING
                 (ugettext "No words to import found in file.")
             else
               add_message INFO
                 ("Imported " +:+ str_of_int count +:+ " words from file."))
            (fun e =>
               add_message ERROR
                 (ugettext ("File upload has failed: " +:+ exn_text e)))
      | None => add_message ERROR (ugettext "Failed to process form!")
      end
    else add_message ERROR (ugettext "Failed to process form!") in
  ret (HttpResponseRedirect (show_dictionary_url prj language)).

Definition upload_dictionary :=
  login_required
    (permission_required "trans.upload_dictionary" upload_dictionary_view).

(** [order_by('source')]: the rows in ascending collation order, rows of
    equal [source] in table order. *)
Fixpoint insert_by (x : Dictionary) (l : list Dictionary) : list Dictionary :=
  match l with
  | [] => [x]
  | y :: r =>
      if source_le (dictionary_source x) (dictionary_source y)
      then x :: l
      else y :: insert_by x r
  end.

Definition order_by_source (l : list Dictionary) : list Dictionary :=
  fold_right insert_by [] l.

(** A queryset over [Dictionary] ordered by [source]: the rows its lookups
    keep, sorted when the statement runs. *)
Definition dictionary_words (lookup : Dictionary -> bool) (d : DB)
  : list Dictionary :=
  order_by_source (List.filter lookup (dictionaries d)).

Definition in_dictionary (prj : Project) (language : Language)
    (w : Dictionary) : bool :=
  same_project (dictionary_project w) prj
  && same_language (dictionary_language w) language.

(** [Dictionary.objects.filter(project=prj, language=lang)
      .order_by('source')] *)
Definition words_of (prj : Project) (language : Language)
  : DB -> list Dictionary :=
  dictionary_words (in_dictionary prj language).

Definition attachment (mimetype filename : string) (body : Body)
  : HttpResponse :=
  Download mimetype
           [("Content-Disposition", "attachment; filename=" +:+ filename)]
           body.

(** [download_dictionary_ttkit(export_format, prj, lang, words)] *)
Definition download_dictionary_ttkit (export_format : string)
    (prj : Project) (language : Language) (words : DB -> list Dictionary)
  : M HttpResponse :=
  let '(store, mimetype, extension, has_lang) :=
    if String.eqb export_format "po" then
      (Ttkit.call (Ttkit.new Ttkit.pofile)
         (Ttkit.updateheader true
            [("language", language_code language);
             ("x_generator", "Weblate " +:+ Weblate.VERSION weblate);
             ("project_id_version",
              language_name language +:+ " (" +:+ project_name prj +:+ ")");
             ("language_team",
              language_name language +:+ " <"
              +:+ get_site_url (show_dictionary_url prj language)
              +:+ ">")]),
       "text/x-po", "po", false)
    else
      (Ttkit.new Ttkit.tbxfile, "application/x-tbx", "tbx", true) in
  let filename :=
    "glossary-" +:+ project_slug prj +:+ "-" +:+ language_code language
    +:+ "." +:+ extension in
  let* rows := query [MDictionary] words in
  let store :=
    fold_left
      (fun store word =>
         Ttkit.call store
           (Ttkit.addunit (dictionary_source word) (dictionary_target word)
              (if has_lang : bool then Some (language_code language)
               else None)))
      rows store in
  ret (attachment (mimetype +:+ "; charset=utf-8") filename
                  (Saved store)).

(** The [# Parse parameters] step of [download_dictionary]. *)
Definition parse_export_format (request : HttpRequest) : string :=
  let export_format :=
    if qd_contains (GET request) "format"
    then qd_get (GET request) "format" else None in
  match export_format with
  | Some f =>
      if existsb (String.eqb f) ["csv"; "po"; "tbx"] then f else "csv"
  | None => "csv"
  end.

Definition download_dictionary (request : HttpRequest)
    (project lang : string) : M HttpResponse :=
  let* prj := project_of get_project request project in
  let* language := get_language lang in
  let export_format := parse_export_format request in
  let words := words_of prj language in
  if existsb (String.eqb export_format) ["po"; "tbx"] then
    download_dictionary_ttkit export_format prj language words
  else
    let filename :=
      "dictionary-" +:+ project_slug prj +:+ "-" +:+ language_code language
      +:+ ".csv" in
    let* rows := query [MDictionary] words in
    let content :=
      fold_left
        (fun written word =>
           written
           ++ csv_writerow [encode_utf8 (dictionary_source word);
                            encode_utf8 (dictionary_target word)])
        rows [] in
    ret (attachment "text/csv; charset=utf-8" filename (Written content)).

(** [request.GET.get(key, default)] for the paginator. *)
Definition get_arg (q : QueryDict) (key : string) (default : Z)
  : Paginator.arg :=
  match qd_get q key with
  | Some s => Paginator.Text s
  | None => Paginator.Int default
  end.

Definition lift {A} (o : outcome A) : M A := fun w => (o, w).

(** The [try: ... except PageNotAnInteger: ... except EmptyPage: ...] of
    [show_dictionary]. *)
Definition deliver_page (paginator : Paginator.t) (page_ : Paginator.arg)
    (d : DB) : outcome Page :=
  match Paginator.page paginator d page_ with
  | Raise PageNotAnInteger => Paginator.page paginator d (Paginator.Int 1)
  | Raise EmptyPage =>
      match Paginator.num_pages paginator d with
      | Ok np => Paginator.page paginator d (Paginator.Int np)
      | Raise e => Raise e
      end
  | r => r
  end.

(** The [letterform] step of [show_dictionary]: the words narrowed to a
    first letter when the form is valid and names one, and that letter. *)
Definition letter_words (request : HttpRequest) (prj : Project)
    (language : Language) : (DB -> list Dictionary) * unicode :=
  match LetterForm (GET request) with
  | Some (c :: l) =>
      (dictionary_words
         (fun w => in_dictionary prj language w
                   && istartswith (dictionary_source w) (c :: l)),
       c :: l)
  | Some [] | None => (words_of prj language, [])
  end.

Definition show_dictionary (request : HttpRequest) (project lang : string)
  : M HttpResponse :=
  let* prj := project_of get_project request project in
  let* language := get_language lang in
  if String.eqb (method request) "POST"
     && has_perm (user request) "trans.add_dictionary" then
    let* _ :=
      match WordForm (POST request) with
      | Some (source_, target_) =>
          execute [MDictionary] (create prj language source_ target_)
      | None => ret tt
      end in
    ret (HttpResponseRedirect (full_path request))
  else
    let form := CForm "WordForm" None [] in
    let uploadform := CForm "DictUploadForm" None [] in
    let limit := get_arg (GET request) "limit" 25 in
    let page_ := get_arg (GET request) "page" 1 in
    let letterform := CForm "LetterForm" (Some (GET request)) [] in
    let '(words, letter) := letter_words request prj language in
    let* paginator := lift (Paginator.make words limit) in
    let* words_page :=
      helper [MDictionary] (deliver_page paginator page_) in
    ret (render_to_response "dictionary.html"
           [("title", CText (ugettext (dictionary_title prj language)));
            ("project", CProject prj);
            ("language", CLanguage language);
            ("words", CPage words_page);
            ("form", form);
            ("uploadform", uploadform);
            ("letterform", letterform);
            ("letter", CUnicode letter)]).

End DictionaryViews.

(** ** [weblate/urls.py]: the routes of the application

    The table up to the admin interface: every pattern there is a chain of
    fixed words and named groups, [[^/]*] or [[0-9]*], between [^] and [/$].
    A pattern is kept as its pieces, one per segment between slashes; the
    routes of the admin interface, of the accounts and of the media files
    follow these in [urlpatterns] and are tried only when none of these
    matches. *)

Module Urls.

Inductive class : Type := NotSlash | Digit.

Inductive piece : Type :=
| Lit (text : string)
| Group (name : string) (chars : class).

(** A captured group is text; the extra dictionary of a route may also hold
    a tuple. *)
Inductive arg : Type :=
| Str (s : string)
| Tuple (items : list string).

Record route : Type := {
  pattern : list piece;
  view : string;
  default_args : list (string * arg)
}.

Definition route_ (p : list piece) (v : string) : route :=
  {| pattern := p; view := v; default_args := [] |}.

Definition js_info_dict : list (string * arg) :=
  [("packages", Tuple ["weblate"])].

Definition urlpatterns : list route :=
  [
    route_ [Lit ""]
           "trans.views.home";
    {| pattern := [Lit "projects"; Lit ""];
       view := "django.views.generic.simple.redirect_to";
       default_args := [("url", Str "/")] |};
    route_ [Lit "projects"; Group "project" NotSlash; Lit ""]
           "trans.views.show_project";
    route_ [Lit "dictionaries"; Group "project" NotSlash; Lit ""]
           "trans.views.show_dictionaries";
    route_ [Lit "dictionaries"; Group "project" NotSlash; Group "lang"
            NotSlash; Lit ""]
           "trans.views.show_dictionary";
    route_ [Lit "dictionaries"; Group "project" NotSlash; Group "lang"
            NotSlash; Lit "upload"; Lit ""]
           "trans.views.upload_dictionary";
    route_ [Lit "dictionaries"; Group "project" NotSlash; Group "lang"
            NotSlash; Lit "delete"; Lit ""]
           "trans.views.delete_dictionary";
    route_ [Lit "dictionaries"; Group "project" NotSlash; Group "lang"
            NotSlash; Lit "edit"; Lit ""]
           "trans.views.edit_dictionary";
    route_ [Lit "projects"; Group "project" NotSlash; Group "subproject"
            NotSlash; Lit ""]
           "trans.views.show_subproject";
    route_ [Lit "projects"; Group "project" NotSlash; Group "subproject"
            NotSlash; Group "lang" NotSlash; Lit ""]
           "trans.views.show_translation";
    route_ [Lit "projects"; Group "project" NotSlash; Group "subproject"
            NotSlash; Group "lang" NotSlash; Lit "translate"; Lit ""]
           "trans.views.translate";
    route_ [Lit "projects"; Group "project" NotSlash; Group "subproject"
            NotSlash; Group "lang" NotSlash; Lit "download"; Lit ""]
           "trans.views.download_translation";
    route_ [Lit "projects"; Group "project" NotSlash; Group "subproject"
            NotSlash; Group "lang" NotSlash; Lit "upload"; Lit ""]
           "trans.views.upload_translation";
    route_ [Lit "projects"; Group "project" NotSlash; Group "subproject"
            NotSlash; Group "lang" NotSlash; Lit "auto"; Lit ""]
           "trans.views.auto_translation";
    route_ [Lit "commit"; Group "project" NotSlash; Lit ""]
           "trans.views.commit_project";
    route_ [Lit "commit"; Group "project" NotSlash; Group "subproject"
            NotSlash; Lit ""]
           "trans.views.commit_subproject";
    route_ [Lit "commit"; Group "project" NotSlash; Group "subproject"
            NotSlash; Group "lang" NotSlash; Lit ""]
           "trans.views.commit_translation";
    route_ [Lit "update"; Group "project" NotSlash; Lit ""]
           "trans.views.update_project";
    route_ [Lit "update"; Group "project" NotSlash; Group "subproject"
            NotSlash; Lit ""]
           "trans.views.update_subproject";
    route_ [Lit "update"; Group "project" NotSlash; Group "subproject"
            NotSlash; Group "lang" NotSlash; Lit ""]
           "trans.views.update_translation";
    route_ [Lit "push"; Group "project" NotSlash; Lit ""]
           "trans.views.push_project";
    route_ [Lit "push"; Group "project" NotSlash; Group "subproject" NotSlash;
            Lit ""]
           "trans.views.push_subproject";
    route_ [Lit "push"; Group "project" NotSlash; Group "subproject" NotSlash;
            Group "lang" NotSlash; Lit ""]
           "trans.views.push_translation";
    route_ [Lit "languages"; Lit ""]
           "trans.views.show_languages";
    route_ [Lit "languages"; Group "lang" NotSlash; Lit ""]
           "trans.views.show_language";
    route_ [Lit "checks"; Lit ""]
           "trans.views.show_checks";
    route_ [Lit "checks"; Group "name" NotSlash; Lit ""]
           "trans.views.show_check";
    route_ [Lit "checks"; Group "name" NotSlash; Group "project" NotSlash; Lit
            ""]
           "trans.views.show_check_project";
    route_ [Lit "checks"; Group "name" NotSlash; Group "project" NotSlash;
            Group "subproject" NotSlash; Lit ""]
           "trans.views.show_check_subproject";
    route_ [Lit "hooks"; Lit "update"; Group "project" NotSlash; Group
            "subproject" NotSlash; Lit ""]
           "trans.api.update_subproject";
    route_ [Lit "hooks"; Lit "update"; Group "project" NotSlash; Lit ""]
           "trans.api.update_project";
    route_ [Lit "hooks"; Lit "github"; Lit ""]
           "trans.api.github_hook";
    route_ [Lit "exports"; Lit "stats"; Group "project" NotSlash; Group
            "subproject" NotSlash; Lit ""]
           "trans.api.export_stats";
    route_ [Lit "js"; Lit "get"; Group "checksum" NotSlash; Lit ""]
           "trans.views.get_string";
    route_ [Lit "js"; Lit "ignore-check"; Group "check_id" Digit; Lit ""]
           "trans.views.ignore_check";
    {| pattern := [Lit "js"; Lit "i18n"; Lit ""];
       view := "django.views.i18n.javascript_catalog";
       default_args := js_info_dict |};
    route_ [Lit "js"; Lit "config"; Lit ""]
           "trans.views.js_config";
    route_ [Lit "js"; Lit "similar"; Group "unit_id" Digit; Lit ""]
           "trans.views.get_similar";
    route_ [Lit "js"; Lit "other"; Group "unit_id" Digit; Lit ""]
           "trans.views.get_other";
    route_ [Lit "js"; Lit "dictionary"; Group "unit_id" Digit; Lit ""]
           "trans.views.get_dictionary";
    route_ [Lit "js"; Lit "git"; Group "project" NotSlash; Lit ""]
           "trans.views.git_status_project";
    route_ [Lit "js"; Lit "git"; Group "project" NotSlash; Group "subproject"
            NotSlash; Lit ""]
           "trans.views.git_status_subproject";
    route_ [Lit "js"; Lit "git"; Group "project" NotSlash; Group "subproject"
            NotSlash; Group "lang" NotSlash; Lit ""]
           "trans.views.git_status_translation"
  ].

Definition in_class (c : class) (ch : ascii) : bool :=
  match c with
  | NotSlash => negb (Ascii.eqb ch "/")
  | Digit =>
      let n := nat_of_ascii ch in (Nat.leb 48 n && Nat.leb n 57)%bool
  end.

Definition all_in_class (c : class) (s : string) : bool :=
  forallb (in_class c) (list_ascii_of_string s).

(** The pieces against the segments of a path: the captured groups, by
    name, when every piece matches its segment. *)
Fixpoint match_segments (ps : list piece) (segs : list string)
  : option (list (string * string)) :=
  match ps, segs with
  | [], [] => Some []
  | Lit text :: ps', seg :: segs' =>
      if String.eqb text seg then match_segments ps' segs' else None
  | Group name c :: ps', seg :: segs' =>
      if all_in_class c seg
      then option_map (cons (name, seg)) (match_segments ps' segs')
      else None
  | _, _ => None
  end.

(** [$] also matches before a line feed that ends the path: the path
    without that line feed, when it has one. *)
Fixpoint chomp (path : string) : option string :=
  match path with
  | EmptyString => None
  | String c EmptyString =>
      if Ascii.eqb c "010" then Some EmptyString else None
  | String c rest => option_map (String c) (chomp rest)
  end.

(** [regex.search(path)] for the regex of the pieces. *)
Definition search (ps : list piece) (path : string)
  : option (list (string * string)) :=
  match match_segments ps (Weblate.split "/" path) with
  | Some captured => Some captured
  | None =>
      match chomp path with
      | Some path' => match_segments ps (Weblate.split "/" path')
      | None => None
      end
  end.

(** The keyword arguments a matched route hands to its view: the groups,
    then the extra dictionary. *)
Definition kwargs (r : route) (captured : list (string * string))
  : list (string * arg) :=
  List.map (fun kv => (fst kv, Str (snd kv))) captured ++ default_args r.

(** The first route of the table that matches. *)
Fixpoint resolve_in (table : list route) (path : string)
  : option (string * list (string * arg)) :=
  match table with
  | [] => None
  | r :: rest =>
      match search (pattern r) path with
      | Some captured => Some (view r, kwargs r captured)
      | None => resolve_in rest path
      end
  end.

(** The root resolver takes the leading slash of [path_info] and hands the
    rest to the table. *)
Definition resolve (path_info : string)
  : option (string * list (string * arg)) :=
  match path_info with
  | String "/" rest => resolve_in urlpatterns rest
  | _ => None
  end.

End Urls.

(** ** A fixture: one project, two languages *)

Module Fixture.

Definition hello : Project :=
  {| project_id := 1; project_slug := "hello"; project_name := "Hello" |}.
Definition cs : Language :=
  {| language_id := 1; language_code := "cs"; language_name := "Czech" |}.
Definition de : Language :=
  {| language_id := 2; language_code := "de"; language_name := "German" |}.
Definition main : SubProject :=
  {| subproject_id := 1; subproject_slug := "main";
     subproject_name := "Main"; subproject_project := hello |}.
Definition docs : SubProject :=
  {| subproject_id := 2; subproject_slug := "docs";
     subproject_name := "Docs"; subproject_project := hello |}.
Definition main_cs : Translation :=
  {| translation_id := 1; translation_subproject := main;
     translation_language := cs |}.
Definition main_de : Translation :=
  {| translation_id := 2; translation_subproject := main;
     translation_language := de |}.

Definition unit_ (id : Z) (checksum : string) (t : Translation)
    (translated : bool) : Unit :=
  {| unit_id := id; unit_checksum := checksum; unit_translation := t;
     unit_translated := translated |}.

Definition check_ (id : Z) (check : string) (l : option Language)
    (checksum : string) (ignore : bool) : Check :=
  {| check_id := id; check_check := check; check_project := hello;
     check_language := l; check_checksum := checksum;
     check_ignore := ignore |}.

Definition word_ (id : Z) (l : Language) (source_ target_ : string)
  : Dictionary :=
  {| dictionary_id := id; dictionary_project := hello;
     dictionary_language := l; dictionary_source := u source_;
     dictionary_target := u target_ |}.

(** [docs] has no translation yet. *)
Definition tables : DB :=
  {| projects := [hello];
     languages := [cs; de];
     subprojects := [main; docs];
     translations := [main_cs; main_de];
     units := [unit_ 1 "aaa" main_cs true; unit_ 2 "bbb" main_cs false;
               unit_ 3 "aaa" main_de true; unit_ 4 "ccc" main_de false];
     checks := [check_ 1 "same" (Some cs) "aaa" false;
                check_ 2 "same" (Some de) "aaa" true;
                check_ 3 "same" (Some cs) "bbb" false;
                check_ 4 "optional_plural" None "bbb" false];
     dictionaries := [word_ 1 cs "zebra" "zebra";
                      word_ 2 cs "apple" "jablko";
                      word_ 3 de "apple" "Apfel";
                      word_ 4 cs "say, do" "mluvit"] |}.

(** The same tables once every subproject is translated. *)
Definition translated_tables : DB :=
  {| projects := projects tables; languages := languages tables;
     subprojects := subprojects tables;
     translations :=
       translations tables
       ++ [{| translation_id := 3; translation_subproject := docs;
              translation_language := cs |}];
     units := units tables; checks := checks tables;
     dictionaries := dictionaries tables |}.

Definition world (d : DB) : World :=
  {| db := d; messages := []; queries := [] |}.

Definition CHECKS : gmap string Checks.CheckClass :=
  <["same" := {| Checks.name := "Unchanged translation";
                 Checks.target := true; Checks.source := false |}]>
  (<["optional_plural" := {| Checks.name := "Optional plural";
                             Checks.target := false;
                             Checks.source := true |}]> ∅).

Definition get_project (request : HttpRequest) (project : string)
    (table : list Project) : outcome Project :=
  match List.filter (fun p => String.eqb (project_slug p) project) table with
  | p :: _ => Ok p
  | [] => Raise (Http404 "No Project matches the given query.")
  end.

Definition get_subproject (request : HttpRequest)
    (project subproject : string) (ps : list Project)
    (table : list SubProject) : outcome SubProject :=
  match List.filter
          (fun s => String.eqb (subproject_slug s) subproject
                    && String.eqb (project_slug (subproject_project s))
                                  project)
          table with
  | s :: _ => Ok s
  | [] => Raise (Http404 "No SubProject matches the given query.")
  end.

Definition anonymous : User :=
  {| is_authenticated := false; is_active := false; is_superuser := false;
     permissions := [] |}.

Definition translator : User :=
  {| is_authenticated := true; is_active := true; is_superuser := false;
     permissions := ["trans.upload_dictionary"; "trans.add_dictionary"] |}.

Definition manager : User :=
  {| is_authenticated := true; is_active := true; is_superuser := true;
     permissions := [] |}.

Definition get (usr : User) (path : string) (params : QueryDict)
  : HttpRequest :=
  {| method := "GET"; GET := params; POST := []; FILES := [];
     user := usr; full_path := path |}.

Definition post (usr : User) (path : string) (data : QueryDict)
    (files : list (string * UploadedFile)) : HttpRequest :=
  {| method := "POST"; GET := []; POST := data; FILES := files;
     user := usr; full_path := path |}.

(** [/dictionaries/<project>/<lang>/], the pattern of [weblate/urls.py]
    for [show_dictionary]. *)
Definition reverse (viewname : string) (kwargs : list (string * string))
  : string :=
  match kwargs with
  | [(_, project); (_, lang)] =>
      "/dictionaries/" +:+ project +:+ "/" +:+ lang +:+ "/"
  | _ => "/"
  end.

Definition get_site_url (url : string) : string :=
  "http://example.org" +:+ url.

Definition login_redirect (request : HttpRequest) : string :=
  "/accounts/login/?next=" +:+ full_path request.

Definition weblate : Weblate.Module_ :=
  {| Weblate.VERSION := "1.6"; Weblate.RUNNING_GIT := false;
     Weblate.GIT_RELEASE := false |}.

Definition WordForm (data : QueryDict) : option (unicode * unicode) :=
  match qd_get data "source", qd_get data "target" with
  | Some s, Some t => Some (u s, u t)
  | _, _ => None
  end.

Definition DictUploadForm (data : QueryDict)
    (files : list (string * UploadedFile)) : option string :=
  match files_get files "file", qd_get data "method" with
  | Some _, Some m => Some m
  | _, _ => None
  end.

Definition LetterForm (data : QueryDict) : option unicode :=
  match qd_get data "letter" with
  | Some s => Some (u s)
  | None => Some []
  end.

(** A stand-in importer: it refuses a file called [broken.po] and otherwise
    reports one word per line feed, leaving the tables alone. *)
Definition upload (prj : Project) (language : Language)
    (fileobj : UploadedFile) (method_ : string) (d : DB) : outcome Z * DB :=
  if String.eqb (file_name fileobj) "broken.po"
  then (Raise (Exception "syntax error"), d)
  else
    (Ok (Z.of_nat
           (List.length (List.filter (Byte.eqb lf) (file_content fileobj)))),
     d).

(** Code point order. *)
Fixpoint source_le (a b : unicode) : bool :=
  match a, b with
  | [], _ => true
  | _ :: _, [] => false
  | x :: a', y :: b' =>
      if (x <? y)%N then true
      else if (y <? x)%N then false
      else source_le a' b'
  end.

Fixpoint istartswith (s prefix : unicode) : bool :=
  match prefix, s with
  | [], _ => true
  | _ :: _, [] => false
  | p :: prefix', c :: s' =>
      let lower n :=
        if ((65 <=? n) && (n <=? 90))%N then (n + 32)%N else n in
      (lower p =? lower c)%N && istartswith s' prefix'
  end.

End Fixture.

(** ** Properties *)

(** *** The Python helpers on small inputs *)

Example int_of_str_12 : int_of_str " 12 " = Some 12.
Proof. reflexivity. Qed.
Example int_of_str_neg : int_of_str "-7" = Some (-7).
Proof. reflexivity. Qed.
Example int_of_str_abc : int_of_str "abc" = None.
Proof. reflexivity. Qed.
Example int_of_str_empty : int_of_str "" = None.
Proof. reflexivity. Qed.
Example str_of_int_25 : str_of_int 25 = "25".
Proof. reflexivity. Qed.

Example init_release :
  Weblate.init {| Weblate.dot_git_exists := true;
                  Weblate.git_describe := Weblate.Described "weblate-1.6" |}
  = Some {| Weblate.VERSION := "1.6"; Weblate.RUNNING_GIT := true;
            Weblate.GIT_RELEASE := true |}.
Proof. reflexivity. Qed.

Example init_devel :
  option_map Weblate.VERSION
    (Weblate.init
       {| Weblate.dot_git_exists := true;
          Weblate.git_describe := Weblate.Described "weblate-1.5-42-gabc" |})
  = Some "1.6-dev".
Proof. reflexivity. Qed.

Example page_2_of_3 :
  forall (a b c : Dictionary) (d : DB),
    match Paginator.make (fun _ => [a; b; c]) (Paginator.Text "2") with
    | Ok p => Paginator.page p d (Paginator.Text " 2")
    | Raise e => Raise e
    end = Ok {| number := 2; object_list := [c] |}.
Proof. reflexivity. Qed.

Example csv_quotes_a_comma :
  csv_writerow [bytes_of_string "say, do"; bytes_of_string "mluvit"]
  = [dquote] ++ bytes_of_string "say, do" ++ [dquote]
    ++ bytes_of_string ",mluvit" ++ [cr; lf].
Proof. reflexivity. Qed.

Example utf8_two_bytes : encode_utf8 [233%N] = [xc3; xa9].
Proof. reflexivity. Qed.

Example utf8_three_bytes : encode_utf8 [8364%N] = [xe2; x82; xac].
Proof. reflexivity. Qed.

(** The fixture lists two failing [same] checks and one
    [optional_plural]: the ignored row is not counted. *)
Example show_checks_on_fixture :
  fst (show_checks (Fixture.get Fixture.anonymous "/checks/" [])
                   (Fixture.world Fixture.tables))
  = Ok (Rendered "checks.html"
          [("checks", CValues ["check"]
                        [(["same"], 2%nat); (["optional_plural"], 1%nat)]);
           ("title", CText "Failing checks")]).
Proof. reflexivity. Qed.

(** *** Tables read by the statements a run has added to the log *)

Definition issued (w w' : World) : list (list Model) :=
  skipn (List.length (queries w)) (queries w').

Definition reads (m : Model) (log : list (list Model)) : bool :=
  existsb (existsb (Model_eqb m)) log.

Definition logged (tables : list Model) (w : World) : World :=
  {| db := db w; messages := messages w;
     queries := queries w ++ [tables] |}.

Lemma issued_logged tables w : issued w (logged tables w) = [tables].
Proof.
  unfold issued, logged; simpl.
  rewrite skipn_app, skipn_all, Nat.sub_diag. reflexivity.
Qed.

Lemma issued_refl w : issued w w = [].
Proof. unfold issued. apply skipn_all. Qed.

Section UnknownCheck.

Variable CHECKS : gmap string Checks.CheckClass.
Variable get_project :
  HttpRequest -> string -> list Project -> outcome Project.
Variable get_subproject :
  HttpRequest -> string -> string -> list Project -> list SubProject
  -> outcome SubProject.

Definition no_check : exn := Http404 "No check matches the given query.".

(** What is left of a lookup of [trans.views.helper] when the view raises
    right after it. *)
Definition then_404 {A} (found : outcome A) : outcome HttpResponse :=
  match found with
  | Ok _ => Raise no_check
  | Raise e => Raise e
  end.

Lemma lookup_check_unknown name w :
  CHECKS !! name = None ->
  lookup_check CHECKS name w = (Raise no_check, w).
Proof. intros H. unfold lookup_check. rewrite H. reflexivity. Qed.

(** C5: a check name outside the [CHECKS] registry makes [show_check],
    [show_check_project] and [show_check_subproject] raise [Http404]; the
    only statement run is the project (subproject) lookup of the helper, so
    no statement reads the Check or the Unit table. *)
Theorem unknown_check_raises_404 :
  forall (request : HttpRequest) (name project subproject : string)
         (w : World),
    CHECKS !! name = None ->
    show_check CHECKS request name w = (Raise no_check, w)
    /\ show_check_project CHECKS get_project request name project w
       = (then_404 (get_project request project (projects (db w))),
          logged [MProject] w)
    /\ show_check_subproject CHECKS get_subproject request name project
                             subproject w
       = (then_404 (get_subproject request project subproject
                                   (projects (db w)) (subprojects (db w))),
          logged [MProject; MSubProject] w)
    /\ (forall w',
          w' = snd (show_check CHECKS request name w)
          \/ w' = snd (show_check_project CHECKS get_project request name
                                          project w)
          \/ w' = snd (show_check_subproject CHECKS get_subproject request
                                             name project subproject w) ->
          reads MCheck (issued w w') = false
          /\ reads MUnit (issued w w') = false).
Proof.
  intros request name project subproject w Hname.
  assert (H1 : show_check CHECKS request name w = (Raise no_check, w)).
  { unfold show_check, bind. rewrite lookup_check_unknown by assumption.
    reflexivity. }
  assert (H2 : show_check_project CHECKS get_project request name project w
               = (then_404 (get_project request project (projects (db w))),
                  logged [MProject] w)).
  { unfold show_check_project, bind, project_of, helper.
    destruct (get_project request project (projects (db w))); simpl.
    - rewrite lookup_check_unknown by assumption. reflexivity.
    - reflexivity. }
  assert (H3 : show_check_subproject CHECKS get_subproject request name
                 project subproject w
               = (then_404 (get_subproject request project subproject
                              (projects (db w)) (subprojects (db w))),
                  logged [MProject; MSubProject] w)).
  { unfold show_check_subproject, bind, subproject_of, helper.
    destruct (get_subproject request project subproject (projects (db w))
                (subprojects (db w))); simpl.
    - rewrite lookup_check_unknown by assumption. reflexivity.
    - reflexivity. }
  repeat split; try assumption;
    destruct H as [-> | [-> | ->]];
    rewrite ?H1, ?H2, ?H3; simpl;
    rewrite ?issued_refl, ?issued_logged; reflexivity.
Qed.

End UnknownCheck.

(** On the fixture, no check is called [nonsense]. *)
Lemma unknown_check_raises_404_witness :
  Fixture.CHECKS !! "nonsense" = None
  /\ show_check_project Fixture.CHECKS Fixture.get_project
       (Fixture.get Fixture.anonymous "/checks/nonsense/hello/" [])
       "nonsense" "hello" (Fixture.world Fixture.tables)
     = (Raise no_check, logged [MProject] (Fixture.world Fixture.tables)).
Proof.
  split; [reflexivity |].
  exact (proj1 (proj2 (unknown_check_raises_404
           Fixture.CHECKS Fixture.get_project Fixture.get_subproject
           (Fixture.get Fixture.anonymous "/checks/nonsense/hello/" [])
           "nonsense" "hello" "main" (Fixture.world Fixture.tables)
           eq_refl))).
Defined.

(** *** Ignored checks *)

Definition active (c : Check) : bool := negb (check_ignore c).

(** The tables without the Check rows whose [ignore] flag is set. *)
Definition drop_ignored (d : DB) : DB :=
  {| projects := projects d; languages := languages d;
     subprojects := subprojects d; translations := translations d;
     units := units d; checks := List.filter active (checks d);
     dictionaries := dictionaries d |}.

Definition without_ignored (w : World) : World :=
  {| db := drop_ignored (db w); messages := messages w;
     queries := queries w |}.

(** [unaffected P m]: running [m] without the ignored rows gives the result
    (and leaves the world) it gives with them, and a value it returns
    satisfies [P]. *)
Definition unaffected {A} (P : A -> Prop) (m : M A) : Prop :=
  forall w,
    m (without_ignored w) = (fst (m w), without_ignored (snd (m w)))
    /\ (forall a, fst (m w) = Ok a -> P a).

Definition any {A} (a : A) : Prop := True.

(** A queryset whose WHERE clause cannot tell whether ignored rows exist. *)
Definition blind (qs : UnitQuerySet) : Prop :=
  match qs with
  | EmptyQuerySet => True
  | Values _ _ w => forall d x, w (drop_ignored d) x = w d x
  end.

Lemma filter_active (p : Check -> bool) (l : list Check) :
  (forall c, p c = true -> check_ignore c = false) ->
  List.filter p (List.filter active l) = List.filter p l.
Proof.
  intros Hp. induction l as [| c l IH]; simpl; [reflexivity |].
  unfold active at 1. destruct (check_ignore c) eqn:Hc; simpl.
  - destruct (p c) eqn:Hpc; [| exact IH].
    apply Hp in Hpc. congruence.
  - rewrite IH. reflexivity.
Qed.

Lemma existsb_active (p : Check -> bool) (l : list Check) :
  (forall c, p c = true -> check_ignore c = false) ->
  existsb p (List.filter active l) = existsb p l.
Proof.
  intros Hp. induction l as [| c l IH]; simpl; [reflexivity |].
  unfold active at 1. destruct (check_ignore c) eqn:Hc; simpl.
  - destruct (p c) eqn:Hpc; [| exact IH].
    apply Hp in Hpc. congruence.
  - rewrite IH. reflexivity.
Qed.

Lemma checksum_in_active (p : Check -> bool) d x :
  (forall c, p c = true -> check_ignore c = false) ->
  checksum_in p (drop_ignored d) x = checksum_in p d x.
Proof.
  intros Hp. unfold checksum_in; simpl. apply existsb_active.
  intros c Hc. apply andb_prop in Hc. apply Hp, Hc.
Qed.

Lemma ends_active (b : bool) (c : Check) :
  b && negb (check_ignore c) = true -> check_ignore c = false.
Proof.
  intros H. apply andb_prop in H. destruct H as [_ H].
  destruct (check_ignore c); [discriminate | reflexivity].
Qed.

Lemma unaffected_ret {A} (P : A -> Prop) (a : A) : P a -> unaffected P (ret a).
Proof.
  intros Ha w. split; [reflexivity |].
  intros a' H. inversion H. subst. exact Ha.
Qed.

Lemma unaffected_raise {A} (P : A -> Prop) (e : exn) : unaffected P (raise e).
Proof. intros w. split; [reflexivity | discriminate]. Qed.

Lemma unaffected_bind {A B} (P : A -> Prop) (Q : B -> Prop) (m : M A)
    (k : A -> M B) :
  unaffected P m -> (forall a, P a -> unaffected Q (k a)) ->
  unaffected Q (bind m k).
Proof.
  intros Hm Hk w. destruct (Hm w) as [Hrun Hpost].
  unfold bind. rewrite Hrun.
  destruct (m w) as [[a | e] w1]; simpl in *.
  - destruct (Hk a (Hpost a eq_refl) w1) as [Hrun' Hpost'].
    rewrite Hrun'. split; [reflexivity | exact Hpost'].
  - split; [reflexivity | discriminate].
Qed.

Lemma unaffected_query {A} (P : A -> Prop) (tables : list Model) (f : DB -> A) :
  (forall d, f (drop_ignored d) = f d) -> (forall d, P (f d)) ->
  unaffected P (query tables f).
Proof.
  intros Hf HP w. unfold query; simpl. rewrite Hf. split; [reflexivity |].
  intros a H. inversion H. apply HP.
Qed.

Lemma unaffected_helper {A} (tables : list Model) (f : DB -> outcome A) :
  (forall d, f (drop_ignored d) = f d) ->
  unaffected any (helper tables f).
Proof.
  intros Hf w. unfold helper; simpl. rewrite Hf.
  split; [reflexivity | intros; exact I].
Qed.

Lemma unaffected_for_each {A B} (Inv : B -> Prop) (l : list A)
    (body : A -> B -> M B) :
  (forall x s, Inv s -> unaffected Inv (body x s)) ->
  forall s, Inv s -> unaffected Inv (for_each l body s).
Proof.
  intros Hbody. induction l as [| x l IH]; intros s Hs; simpl.
  - apply unaffected_ret. exact Hs.
  - eapply unaffected_bind; [apply Hbody; exact Hs |].
    intros s' Hs'. apply IH. exact Hs'.
Qed.

Lemma unaffected_first_row {A} (model : Model) (rows : DB -> list A) :
  (forall d, rows (drop_ignored d) = rows d) ->
  unaffected any (first_row model rows).
Proof.
  intros Hrows. unfold first_row.
  apply unaffected_bind with (P := any).
  - apply unaffected_query; [| intros; exact I].
    intros d. rewrite Hrows. reflexivity.
  - intros [| obj found] _;
      [apply unaffected_raise | apply unaffected_ret; exact I].
Qed.

Lemma blind_or a b : blind a -> blind b -> blind (qs_or a b).
Proof.
  destruct a, b; simpl; auto.
  intros Ha Hb d x. rewrite Ha, Hb. reflexivity.
Qed.

Lemma unaffected_evaluate qs : blind qs -> unaffected any (evaluate qs).
Proof.
  intros Hqs. destruct qs as [| fields key w]; simpl.
  - apply unaffected_ret. exact I.
  - apply unaffected_query; [| intros; exact I].
    intros d. simpl. f_equal. apply filter_ext. intros x. apply Hqs.
Qed.

Lemma unaffected_lookup_check CHECKS name :
  unaffected any (lookup_check CHECKS name).
Proof.
  unfold lookup_check. destruct (CHECKS !! name).
  - apply unaffected_ret. exact I.
  - apply unaffected_raise.
Qed.

Ltac active_tail :=
  let c := fresh "c" in
  let H := fresh "H" in
  intros c H;
  first [ exact (ends_active _ c H)
        | unfold active in H; destruct (check_ignore c);
          [discriminate | reflexivity] ].

Section IgnoredChecks.

Variable CHECKS : gmap string Checks.CheckClass.
Variable get_project :
  HttpRequest -> string -> list Project -> outcome Project.
Variable get_subproject :
  HttpRequest -> string -> string -> list Project -> list SubProject
  -> outcome SubProject.

Lemma unaffected_show_checks request : unaffected any (show_checks request).
Proof.
  unfold show_checks. apply unaffected_bind with (P := any).
  - apply unaffected_query; [| intros; exact I].
    intros d; simpl. rewrite filter_active; [reflexivity |].
    intros c Hc. destruct (check_ignore c); [discriminate | reflexivity].
  - intros rows _. apply unaffected_ret. exact I.
Qed.

Lemma unaffected_show_check request name :
  unaffected any (show_check CHECKS request name).
Proof.
  unfold show_check. apply unaffected_bind with (P := any).
  - apply unaffected_lookup_check.
  - intros check _. apply unaffected_bind with (P := any).
    + apply unaffected_query; [| intros; exact I].
      intros d; simpl. rewrite filter_active; [reflexivity | active_tail].
    + intros rows _. apply unaffected_ret. exact I.
Qed.

Lemma check_languages_active name prj d :
  check_languages name prj (drop_ignored d) = check_languages name prj d.
Proof.
  unfold check_languages; simpl.
  rewrite filter_active; [reflexivity | active_tail].
Qed.

Lemma checks_for_active name prj lang c :
  checks_for name prj lang c = true -> check_ignore c = false.
Proof. unfold checks_for. apply ends_active. Qed.

Lemma blind_project_target_res name prj lang :
  blind (project_target_res name prj lang).
Proof.
  intros d x.
  rewrite checksum_in_active by apply checks_for_active. reflexivity.
Qed.

Lemma blind_project_source_res name prj subproject lang :
  blind (project_source_res name prj subproject lang).
Proof.
  intros d x.
  rewrite checksum_in_active by apply checks_for_active. reflexivity.
Qed.

Lemma blind_subproject_target_res name subprj lang :
  blind (subproject_target_res name subprj lang).
Proof.
  intros d x.
  rewrite checksum_in_active by apply checks_for_active. reflexivity.
Qed.

Lemma unaffected_first_language subproject :
  unaffected any (first_language subproject).
Proof.
  unfold first_language. apply unaffected_bind with (P := any).
  - apply unaffected_first_row. reflexivity.
  - intros first _. apply unaffected_query; [| intros; exact I].
    reflexivity.
Qed.

Lemma unaffected_project_target name prj units_ :
  blind units_ -> unaffected blind (project_target_units name prj units_).
Proof.
  intros Hunits. unfold project_target_units.
  apply unaffected_bind with (P := any).
  - apply unaffected_query; [| intros; exact I].
    apply check_languages_active.
  - intros langs _. apply unaffected_for_each; [| exact Hunits].
    intros lang qs Hqs. apply unaffected_ret.
    apply blind_or; [exact Hqs | apply blind_project_target_res].
Qed.

Lemma unaffected_project_source name prj units_ :
  blind units_ -> unaffected blind (project_source_units name prj units_).
Proof.
  intros Hunits. unfold project_source_units.
  apply unaffected_bind with (P := any).
  - apply unaffected_query; [| intros; exact I]. reflexivity.
  - intros subprojects_ _. apply unaffected_for_each; [| exact Hunits].
    intros subproject qs Hqs. apply unaffected_bind with (P := any).
    + apply unaffected_first_language.
    + intros lang _. apply unaffected_ret.
      apply blind_or; [exact Hqs | apply blind_project_source_res].
Qed.

Lemma unaffected_show_check_project request name project :
  unaffected any
    (show_check_project CHECKS get_project request name project).
Proof.
  unfold show_check_project. apply unaffected_bind with (P := any).
  - apply unaffected_helper. reflexivity.
  - intros prj _. apply unaffected_bind with (P := any);
      [apply unaffected_lookup_check |].
    intros check _. apply unaffected_bind with (P := blind).
    + destruct (Checks.target check).
      * apply unaffected_project_target. exact I.
      * apply unaffected_ret. exact I.
    + intros qs Hqs. apply unaffected_bind with (P := blind).
      * destruct (Checks.source check).
        -- apply unaffected_project_source. exact Hqs.
        -- apply unaffected_ret. exact Hqs.
      * intros qs' Hqs'. apply unaffected_bind with (P := any).
        -- apply unaffected_evaluate. exact Hqs'.
        -- intros rows _. apply unaffected_ret. exact I.
Qed.

Lemma unaffected_subproject_target name subprj units_ :
  blind units_ ->
  unaffected blind (subproject_target_units name subprj units_).
Proof.
  intros Hunits. unfold subproject_target_units.
  apply unaffected_bind with (P := any).
  - apply unaffected_query; [| intros; exact I].
    apply check_languages_active.
  - intros langs _. apply unaffected_for_each; [| exact Hunits].
    intros lang qs Hqs. apply unaffected_ret.
    apply blind_or; [exact Hqs | apply blind_subproject_target_res].
Qed.

Lemma unaffected_subproject_source name subprj :
  unaffected any (subproject_source_checks name subprj).
Proof.
  unfold subproject_source_checks. apply unaffected_bind with (P := any).
  - apply unaffected_first_language.
  - intros lang _. apply unaffected_bind with (P := any).
    + apply unaffected_query; [| intros; exact I].
      intros d. f_equal. apply filter_ext. intros x.
      unfold subproject_source_where.
      rewrite checksum_in_active by apply checks_for_active. reflexivity.
    + intros res _. apply unaffected_ret. exact I.
Qed.

Lemma unaffected_show_check_subproject request name project subproject :
  unaffected any
    (show_check_subproject CHECKS get_subproject request name project
                           subproject).
Proof.
  unfold show_check_subproject. apply unaffected_bind with (P := any).
  - apply unaffected_helper. reflexivity.
  - intros subprj _. apply unaffected_bind with (P := any);
      [apply unaffected_lookup_check |].
    intros check _. apply unaffected_bind with (P := blind).
    + destruct (Checks.target check).
      * apply unaffected_subproject_target. exact I.
      * apply unaffected_ret. exact I.
    + intros qs Hqs. apply unaffected_bind with (P := any).
      * destruct (Checks.source check).
        -- apply unaffected_subproject_source.
        -- apply unaffected_ret. exact I.
      * intros source_checks _. apply unaffected_bind with (P := any).
        -- apply unaffected_evaluate. exact Hqs.
        -- intros rows _. apply unaffected_ret. exact I.
Qed.

(** C3: the four failing-check listings answer exactly as they would if
    the Check rows whose [ignore] flag is set did not exist: such a row is in
    no listed group and in no reported count. *)
Theorem ignored_checks_never_listed :
  forall (request : HttpRequest) (name project subproject : string)
         (w : World),
    fst (show_checks request (without_ignored w))
    = fst (show_checks request w)
    /\ fst (show_check CHECKS request name (without_ignored w))
       = fst (show_check CHECKS request name w)
    /\ fst (show_check_project CHECKS get_project request name project
                               (without_ignored w))
       = fst (show_check_project CHECKS get_project request name project w)
    /\ fst (show_check_subproject CHECKS get_subproject request name project
                                  subproject (without_ignored w))
       = fst (show_check_subproject CHECKS get_subproject request name
                                    project subproject w).
Proof.
  intros request name project subproject w.
  pose proof (proj1 (unaffected_show_checks request w)) as H1.
  pose proof (proj1 (unaffected_show_check request name w)) as H2.
  pose proof (proj1 (unaffected_show_check_project request name project w))
    as H3.
  pose proof (proj1 (unaffected_show_check_subproject request name project
                                                     subproject w)) as H4.
  rewrite H1, H2, H3, H4. repeat split.
Qed.

End IgnoredChecks.

(** *** Runs that only read

    [reads_to d m r]: on the tables [d], [m] ends with [r] and leaves the
    tables as they are. *)

Definition reads_to {A} (d : DB) (m : M A) (r : outcome A) : Prop :=
  forall w, db w = d -> exists w', m w = (r, w') /\ db w' = d.

Lemma reads_to_fst {A} (m : M A) (w : World) (r : outcome A) :
  reads_to (db w) m r -> fst (m w) = r.
Proof.
  intros H. destruct (H w eq_refl) as [w' [Hrun _]].
  rewrite Hrun. reflexivity.
Qed.

Lemma reads_ret {A} d (a : A) : reads_to d (ret a) (Ok a).
Proof. intros w Hw. exists w. split; [reflexivity | exact Hw]. Qed.

Lemma reads_raise {A} d (e : exn) : reads_to d (@raise A e) (Raise e).
Proof. intros w Hw. exists w. split; [reflexivity | exact Hw]. Qed.

Lemma reads_bind {A B} d (m : M A) (k : A -> M B) (a : A) (r : outcome B) :
  reads_to d m (Ok a) -> reads_to d (k a) r -> reads_to d (bind m k) r.
Proof.
  intros Hm Hk w Hw. destruct (Hm w Hw) as [w1 [Hrun Hw1]].
  destruct (Hk w1 Hw1) as [w2 [Hrun2 Hw2]].
  exists w2. unfold bind. rewrite Hrun. split; assumption.
Qed.

Lemma reads_bind_raise {A B} d (m : M A) (k : A -> M B) (e : exn) :
  reads_to d m (Raise e) -> reads_to d (bind m k) (Raise e).
Proof.
  intros Hm w Hw. destruct (Hm w Hw) as [w1 [Hrun Hw1]].
  exists w1. unfold bind. rewrite Hrun. split; [reflexivity | assumption].
Qed.

Lemma reads_query {A} d (tables : list Model) (f : DB -> A) :
  reads_to d (query tables f) (Ok (f d)).
Proof.
  intros w Hw. eexists. unfold query. rewrite Hw.
  split; [reflexivity | reflexivity].
Qed.

Lemma reads_helper {A} d (tables : list Model) (f : DB -> outcome A) :
  reads_to d (helper tables f) (f d).
Proof.
  intros w Hw. eexists. unfold helper. rewrite Hw.
  split; [reflexivity | reflexivity].
Qed.

Lemma reads_for_each_ret {A S} d (l : list A) (f : A -> S -> S) :
  forall s,
    reads_to d (for_each l (fun x s => ret (f x s)) s)
             (Ok (fold_left (fun s x => f x s) l s)).
Proof.
  induction l as [| x l IH]; intros s; simpl.
  - apply reads_ret.
  - eapply reads_bind; [apply reads_ret | apply IH].
Qed.

Definition head_language (subproject : SubProject) (d : DB)
  : option Language :=
  match translation_set subproject d with
  | t :: _ => Some (translation_language t)
  | [] => None
  end.

Lemma reads_first_language d subproject :
  reads_to d (first_language subproject)
           (match head_language subproject d with
            | Some l => Ok l
            | None => Raise IndexError
            end).
Proof.
  unfold first_language, first_row, head_language.
  destruct (translation_set subproject d) as [| t rest] eqn:Hset.
  - apply reads_bind_raise. eapply reads_bind; [apply reads_query |].
    rewrite Hset. apply reads_raise.
  - eapply reads_bind.
    + eapply reads_bind; [apply reads_query |].
      rewrite Hset. apply reads_ret.
    + apply (reads_query d [MLanguage] (fun _ => translation_language t)).
Qed.

(** The WHERE clause and the grouping key of a queryset. *)
Definition where_of (qs : UnitQuerySet) (d : DB) (x : Unit) : bool :=
  match qs with
  | EmptyQuerySet => false
  | Values _ _ w => w d x
  end.

Definition keyed (key : Unit -> list string) (qs : UnitQuerySet) : Prop :=
  match qs with
  | EmptyQuerySet => True
  | Values _ k _ => k = key
  end.

Lemma filter_none {A} (f : A -> bool) (l : list A) :
  (forall x, f x = false) -> List.filter f l = [].
Proof.
  intros Hf. induction l as [| x l IH]; simpl; [reflexivity |].
  rewrite Hf. exact IH.
Qed.

Lemma reads_evaluate d key qs :
  keyed key qs ->
  reads_to d (evaluate qs)
           (Ok (group_count key (List.filter (where_of qs d) (units d)))).
Proof.
  intros Hkey. destruct qs as [| fields k w]; simpl in *.
  - rewrite filter_none by reflexivity. apply reads_ret.
  - subst k.
    apply (reads_query d [MUnit; MCheck]
             (fun d => group_count key (List.filter (w d) (units d)))).
Qed.

Lemma where_of_or a fields key w d x :
  where_of (qs_or a (Values fields key w)) d x = where_of a d x || w d x.
Proof. destruct a; reflexivity. Qed.

Lemma keyed_or key a fields w :
  keyed key a -> keyed key (qs_or a (Values fields key w)).
Proof. destruct a; simpl; auto. Qed.

(** The union built by a loop that adds one queryset per element. *)
Lemma where_of_fold {A} fields key (w : A -> DB -> Unit -> bool)
    (l : list A) d x :
  forall qs,
    where_of (fold_left (fun qs a => qs_or qs (Values fields key (w a)))
                        l qs) d x
    = where_of qs d x || existsb (fun a => w a d x) l.
Proof.
  induction l as [| a l IH]; intros qs; simpl.
  - rewrite orb_false_r. reflexivity.
  - rewrite IH, where_of_or, orb_assoc. reflexivity.
Qed.

Lemma keyed_fold {A} fields key (w : A -> DB -> Unit -> bool) (l : list A) :
  forall qs,
    keyed key qs ->
    keyed key (fold_left (fun qs a => qs_or qs (Values fields key (w a)))
                         l qs).
Proof.
  induction l as [| a l IH]; intros qs Hqs; simpl; [exact Hqs |].
  apply IH, keyed_or, Hqs.
Qed.

(** *** The source loop of [show_check_project], as a fold *)

Fixpoint source_fold (name : string) (prj : Project) (d : DB)
    (subs : list SubProject) (qs : UnitQuerySet) : outcome UnitQuerySet :=
  match subs with
  | [] => Ok qs
  | s :: rest =>
      match head_language s d with
      | None => Raise IndexError
      | Some l =>
          source_fold name prj d rest
                      (qs_or qs (project_source_res name prj s l))
      end
  end.

Lemma reads_source_loop name prj d subs :
  forall qs,
    reads_to d
      (for_each subs
         (fun subproject units_ =>
            let* lang := first_language subproject in
            ret (qs_or units_ (project_source_res name prj subproject lang)))
         qs)
      (source_fold name prj d subs qs).
Proof.
  induction subs as [| s rest IH]; intros qs; simpl.
  - apply reads_ret.
  - pose proof (reads_first_language d s) as Hfirst.
    destruct (head_language s d) as [l |].
    + eapply reads_bind.
      * eapply reads_bind; [exact Hfirst | apply reads_ret].
      * apply IH.
    + apply reads_bind_raise, reads_bind_raise. exact Hfirst.
Qed.

Lemma source_fold_raise name prj d subs :
  forall qs,
    (exists s, In s subs /\ head_language s d = None) ->
    source_fold name prj d subs qs = Raise IndexError.
Proof.
  induction subs as [| s rest IH]; intros qs [s0 [Hin Hnone]]; simpl.
  - destruct Hin.
  - destruct (head_language s d) as [l |] eqn:Hs; [| reflexivity].
    apply IH. destruct Hin as [-> | Hin]; [congruence |].
    exists s0. split; assumption.
Qed.

Definition source_counted (name : string) (prj : Project) (d : DB)
    (x : Unit) (s : SubProject) : bool :=
  match head_language s d with
  | Some l => where_of (project_source_res name prj s l) d x
  | None => false
  end.

Lemma source_fold_ok name prj d subs :
  forall qs,
    keyed project_key qs ->
    (forall s, In s subs -> head_language s d <> None) ->
    exists qs',
      source_fold name prj d subs qs = Ok qs'
      /\ keyed project_key qs'
      /\ forall x,
           where_of qs' d x
           = where_of qs d x || existsb (source_counted name prj d x) subs.
Proof.
  induction subs as [| s rest IH]; intros qs Hkey Hall; simpl.
  - exists qs. repeat split; [exact Hkey |].
    intros x. rewrite orb_false_r. reflexivity.
  - destruct (head_language s d) as [l |] eqn:Hs.
    + destruct (IH (qs_or qs (project_source_res name prj s l)))
        as [qs' [Hrun [Hkey' Hwhere]]].
      * apply keyed_or. exact Hkey.
      * intros s' Hs'. apply Hall. right. exact Hs'.
      * exists qs'. repeat split; [exact Hrun | exact Hkey' |].
        intros x. rewrite Hwhere. unfold project_source_res at 1.
        rewrite where_of_or, <- orb_assoc. f_equal.
        unfold source_counted at 2. rewrite Hs. reflexivity.
    + exfalso. apply (Hall s); [left; reflexivity | exact Hs].
Qed.

Lemma head_language_none s d :
  head_language s d = None <-> translation_set s d = [].
Proof.
  unfold head_language. destruct (translation_set s d); split;
    intros H; try reflexivity; discriminate.
Qed.

Lemma source_fold_keyed name prj d subs :
  forall qs qs',
    keyed project_key qs ->
    source_fold name prj d subs qs = Ok qs' -> keyed project_key qs'.
Proof.
  induction subs as [| s rest IH]; intros qs qs' Hkey Hrun; simpl in Hrun.
  - inversion Hrun. subst. exact Hkey.
  - destruct (head_language s d) as [l |]; [| discriminate].
    eapply IH; [| exact Hrun]. apply keyed_or. exact Hkey.
Qed.

(** What the two target loops build. *)
Definition project_target_union (name : string) (prj : Project) (d : DB)
  : UnitQuerySet :=
  fold_left (fun qs lang => qs_or qs (project_target_res name prj lang))
            (check_languages name prj d) EmptyQuerySet.

Definition subproject_target_union (name : string) (subprj : SubProject)
    (d : DB) : UnitQuerySet :=
  fold_left (fun qs lang => qs_or qs (subproject_target_res name subprj lang))
            (check_languages name (subproject_project subprj) d)
            EmptyQuerySet.

Lemma reads_project_target name prj d :
  reads_to d (project_target_units name prj EmptyQuerySet)
           (Ok (project_target_union name prj d)).
Proof.
  unfold project_target_units, project_target_union.
  eapply reads_bind; [apply reads_query |].
  apply (reads_for_each_ret d (check_languages name prj d)
           (fun lang qs => qs_or qs (project_target_res name prj lang))).
Qed.

Lemma reads_subproject_target name subprj d :
  reads_to d (subproject_target_units name subprj EmptyQuerySet)
           (Ok (subproject_target_union name subprj d)).
Proof.
  unfold subproject_target_units, subproject_target_union.
  eapply reads_bind; [apply reads_query |].
  apply (reads_for_each_ret d
           (check_languages name (subproject_project subprj) d)
           (fun lang qs => qs_or qs (subproject_target_res name subprj lang))).
Qed.

Lemma reads_project_source name prj d qs :
  reads_to d (project_source_units name prj qs)
           (source_fold name prj d (subproject_set prj d) qs).
Proof.
  unfold project_source_units.
  eapply reads_bind; [apply reads_query |]. apply reads_source_loop.
Qed.

Lemma keyed_project_target name prj d :
  keyed project_key (project_target_union name prj d).
Proof.
  unfold project_target_union, project_target_res.
  apply keyed_fold. exact I.
Qed.

Lemma keyed_subproject_target name subprj d :
  keyed subproject_key (subproject_target_union name subprj d).
Proof.
  unfold subproject_target_union, subproject_target_res.
  apply keyed_fold. exact I.
Qed.

(** The number the source block of [show_check_subproject] reports. *)
Definition source_count (name : string) (subprj : SubProject)
    (lang : Language) (d : DB) : nat :=
  List.length
    (List.filter (subproject_source_where name subprj lang d) (units d)).

Lemma reads_subproject_source name subprj d :
  reads_to d (subproject_source_checks name subprj)
    (match head_language subprj d with
     | Some l =>
         Ok (if Nat.ltb 0 (source_count name subprj l d)
             then [source_count name subprj l d] else [])
     | None => Raise IndexError
     end).
Proof.
  unfold subproject_source_checks.
  pose proof (reads_first_language d subprj) as Hfirst.
  destruct (head_language subprj d) as [l |].
  - eapply reads_bind; [exact Hfirst |].
    eapply reads_bind; [| apply reads_ret].
    apply (reads_query d [MUnit; MCheck]
             (fun d => List.length
                (List.filter (subproject_source_where name subprj l d)
                             (units d)))).
  - apply reads_bind_raise. exact Hfirst.
Qed.

Section CheckListings.

Variable CHECKS : gmap string Checks.CheckClass.
Variable get_project :
  HttpRequest -> string -> list Project -> outcome Project.
Variable get_subproject :
  HttpRequest -> string -> string -> list Project -> list SubProject
  -> outcome SubProject.

Lemma reads_lookup_check d name check :
  CHECKS !! name = Some check ->
  reads_to d (lookup_check CHECKS name) (Ok check).
Proof. intros H. unfold lookup_check. rewrite H. apply reads_ret. Qed.

(** The rows a rendered listing shows under [checks], and the counts it
    shows under [source_checks]. *)
Definition listed_rows (r : outcome HttpResponse) : option (list ValuesRow) :=
  match r with
  | Ok (Rendered _ context) =>
      match context_get context "checks" with
      | Some (CValues _ rows) => Some rows
      | _ => None
      end
  | _ => None
  end.

Definition listed_source_counts (r : outcome HttpResponse)
  : option (list nat) :=
  match r with
  | Ok (Rendered _ context) =>
      match context_get context "source_checks" with
      | Some (CCounts counts) => Some counts
      | _ => None
      end
  | _ => None
  end.

(** The units [show_check_project] has selected when it renders. *)
Definition project_selection (name : string) (prj : Project)
    (check : Checks.CheckClass) (d : DB) : outcome UnitQuerySet :=
  let qs :=
    if Checks.target check then project_target_union name prj d
    else EmptyQuerySet in
  if Checks.source check
  then source_fold name prj d (subproject_set prj d) qs
  else Ok qs.

Lemma project_selection_keyed name prj check d qs :
  project_selection name prj check d = Ok qs -> keyed project_key qs.
Proof.
  unfold project_selection. intros H.
  assert (Hk : keyed project_key
                 (if Checks.target check
                  then project_target_union name prj d else EmptyQuerySet)).
  { destruct (Checks.target check);
      [apply keyed_project_target | exact I]. }
  destruct (Checks.source check).
  - eapply source_fold_keyed; [exact Hk | exact H].
  - inversion H. subst. exact Hk.
Qed.

Lemma show_check_project_run request name project check prj w :
  CHECKS !! name = Some check ->
  get_project request project (projects (db w)) = Ok prj ->
  match project_selection name prj check (db w) with
  | Ok qs =>
      exists response,
        fst (show_check_project CHECKS get_project request name project w)
        = Ok response
        /\ listed_rows (Ok response)
           = Some (group_count project_key
                     (List.filter (where_of qs (db w)) (units (db w))))
  | Raise e =>
      fst (show_check_project CHECKS get_project request name project w)
      = Raise e
  end.
Proof.
  intros Hname Hprj. set (d := db w).
  assert (Htarget :
            reads_to d
              (if Checks.target check
               then project_target_units name prj EmptyQuerySet
               else ret EmptyQuerySet)
              (Ok (if Checks.target check
                   then project_target_union name prj d
                   else EmptyQuerySet))).
  { destruct (Checks.target check);
      [apply reads_project_target | apply reads_ret]. }
  pose proof (project_selection_keyed name prj check d) as Hkeyed.
  unfold project_selection in *.
  set (qs1 := if Checks.target check
              then project_target_union name prj d else EmptyQuerySet) in *.
  assert (Hsource :
            reads_to d
              (if Checks.source check
               then project_source_units name prj qs1 else ret qs1)
              (if Checks.source check
               then source_fold name prj d (subproject_set prj d) qs1
               else Ok qs1)).
  { destruct (Checks.source check);
      [apply reads_project_source | apply reads_ret]. }
  destruct (if Checks.source check
            then source_fold name prj d (subproject_set prj d) qs1
            else Ok qs1) as [qs2 | e] eqn:Hsel.
  - eexists. split.
    + apply reads_to_fst. fold d. unfold show_check_project.
      eapply reads_bind.
      { unfold project_of.
        pose proof (reads_helper d [MProject]
          (fun d => get_project request project (projects d))) as Hh.
        simpl in Hh. unfold d in Hh at 2. rewrite Hprj in Hh. exact Hh. }
      eapply reads_bind; [apply reads_lookup_check; exact Hname |].
      eapply reads_bind; [exact Htarget |].
      eapply reads_bind; [exact Hsource |].
      eapply reads_bind;
        [apply (reads_evaluate d project_key); apply Hkeyed; reflexivity |].
      apply reads_ret.
    + reflexivity.
  - apply reads_to_fst. fold d. unfold show_check_project.
    eapply reads_bind.
    { unfold project_of.
      pose proof (reads_helper d [MProject]
        (fun d => get_project request project (projects d))) as Hh.
      simpl in Hh. unfold d in Hh at 2. rewrite Hprj in Hh. exact Hh. }
    eapply reads_bind; [apply reads_lookup_check; exact Hname |].
    eapply reads_bind; [exact Htarget |].
    apply reads_bind_raise. exact Hsource.
Qed.

(** What the source block of [show_check_subproject] leaves in
    [source_checks]. *)
Definition subproject_sources (name : string) (subprj : SubProject)
    (check : Checks.CheckClass) (d : DB) : outcome (list nat) :=
  if Checks.source check then
    match head_language subprj d with
    | Some l =>
        Ok (if Nat.ltb 0 (source_count name subprj l d)
            then [source_count name subprj l d] else [])
    | None => Raise IndexError
    end
  else Ok [].

Definition subproject_selection (name : string) (subprj : SubProject)
    (check : Checks.CheckClass) (d : DB) : UnitQuerySet :=
  if Checks.target check then subproject_target_union name subprj d
  else EmptyQuerySet.

Lemma show_check_subproject_run request name project subproject check
    subprj w :
  CHECKS !! name = Some check ->
  get_subproject request project subproject (projects (db w))
                 (subprojects (db w)) = Ok subprj ->
  match subproject_sources name subprj check (db w) with
  | Ok counts =>
      exists response,
        fst (show_check_subproject CHECKS get_subproject request name
                                   project subproject w) = Ok response
        /\ listed_rows (Ok response)
           = Some (group_count subproject_key
                     (List.filter
                        (where_of (subproject_selection name subprj check
                                                        (db w)) (db w))
                        (units (db w))))
        /\ listed_source_counts (Ok response) = Some counts
  | Raise e =>
      fst (show_check_subproject CHECKS get_subproject request name project
                                 subproject w) = Raise e
  end.
Proof.
  intros Hname Hsub. set (d := db w).
  assert (Hhelper :
            reads_to d (subproject_of get_subproject request project
                                      subproject) (Ok subprj)).
  { unfold subproject_of.
    pose proof (reads_helper d [MProject; MSubProject]
      (fun d => get_subproject request project subproject
                               (projects d) (subprojects d))) as Hh.
    simpl in Hh. unfold d in Hh at 2 3. rewrite Hsub in Hh. exact Hh. }
  assert (Htarget :
            reads_to d
              (if Checks.target check
               then subproject_target_units name subprj EmptyQuerySet
               else ret EmptyQuerySet)
              (Ok (subproject_selection name subprj check d))).
  { unfold subproject_selection. destruct (Checks.target check);
      [apply reads_subproject_target | apply reads_ret]. }
  assert (Hkeyed : keyed subproject_key
                         (subproject_selection name subprj check d)).
  { unfold subproject_selection. destruct (Checks.target check);
      [apply keyed_subproject_target | exact I]. }
  assert (Hsource :
            reads_to d
              (if Checks.source check
               then subproject_source_checks name subprj else ret [])
              (subproject_sources name subprj check d)).
  { unfold subproject_sources. destruct (Checks.source check);
      [apply reads_subproject_source | apply reads_ret]. }
  destruct (subproject_sources name subprj check d) as [counts | e].
  - eexists. split; [| split].
    + apply reads_to_fst. fold d. unfold show_check_subproject.
      eapply reads_bind; [exact Hhelper |].
      eapply reads_bind; [apply reads_lookup_check; exact Hname |].
      eapply reads_bind; [exact Htarget |].
      eapply reads_bind; [exact Hsource |].
      eapply reads_bind;
        [apply (reads_evaluate d subproject_key); exact Hkeyed |].
      apply reads_ret.
    + reflexivity.
    + reflexivity.
  - apply reads_to_fst. fold d. unfold show_check_subproject.
    eapply reads_bind; [exact Hhelper |].
    eapply reads_bind; [apply reads_lookup_check; exact Hname |].
    eapply reads_bind; [exact Htarget |].
    apply reads_bind_raise. exact Hsource.
Qed.

(** C8: the source blocks index the translation set of a subproject with
    [[0]]: with a source-scoped check, [show_check_project] answers exactly
    when every subproject of the project has a translation and
    [show_check_subproject] exactly when the addressed subproject has one;
    otherwise the view ends with an [IndexError]. *)
Theorem source_block_needs_a_translation :
  forall (request : HttpRequest) (name project subproject : string)
         (check : Checks.CheckClass) (w : World),
    CHECKS !! name = Some check ->
    Checks.source check = true ->
    (forall prj,
        get_project request project (projects (db w)) = Ok prj ->
        ((forall s, In s (subproject_set prj (db w)) ->
                    translation_set s (db w) <> []) ->
         exists response,
           fst (show_check_project CHECKS get_project request name project w)
           = Ok response)
        /\ ((exists s, In s (subproject_set prj (db w))
                       /\ translation_set s (db w) = []) ->
            fst (show_check_project CHECKS get_project request name project w)
            = Raise IndexError))
    /\ (forall subprj,
           get_subproject request project subproject (projects (db w))
                          (subprojects (db w)) = Ok subprj ->
           (translation_set subprj (db w) <> [] ->
            exists response,
              fst (show_check_subproject CHECKS get_subproject request name
                                         project subproject w) = Ok response)
           /\ (translation_set subprj (db w) = [] ->
               fst (show_check_subproject CHECKS get_subproject request name
                                          project subproject w)
               = Raise IndexError)).
Proof.
  intros request name project subproject check w Hname Hsource. split.
  - intros prj Hprj.
    pose proof (show_check_project_run request name project check prj w
                  Hname Hprj) as Hrun.
    unfold project_selection in Hrun. rewrite Hsource in Hrun. split.
    + intros Hall.
      destruct (source_fold_ok name prj (db w) (subproject_set prj (db w))
                  (if Checks.target check
                   then project_target_union name prj (db w)
                   else EmptyQuerySet)) as [qs [Hfold _]].
      * destruct (Checks.target check);
          [apply keyed_project_target | exact I].
      * intros s Hs Hnone. apply (Hall s Hs).
        apply head_language_none. exact Hnone.
      * rewrite Hfold in Hrun. destruct Hrun as [response [Hresp _]].
        exists response. exact Hresp.
    + intros [s [Hs Hempty]].
      rewrite source_fold_raise in Hrun; [exact Hrun |].
      exists s. split; [exact Hs |]. apply head_language_none. exact Hempty.
  - intros subprj Hsub.
    pose proof (show_check_subproject_run request name project subproject
                  check subprj w Hname Hsub) as Hrun.
    unfold subproject_sources in Hrun. rewrite Hsource in Hrun. split.
    + intros Hsome.
      destruct (head_language subprj (db w)) as [l |] eqn:Hhead.
      * destruct Hrun as [response [Hresp _]]. exists response. exact Hresp.
      * exfalso. apply Hsome. apply head_language_none. exact Hhead.
    + intros Hempty. apply head_language_none in Hempty.
      rewrite Hempty in Hrun. exact Hrun.
Qed.

End CheckListings.

(** On the fixture, [docs] has no translation and [optional_plural] is a
    source check: the project listing fails, and it answers once [docs] is
    translated. *)
Lemma source_block_needs_a_translation_witness :
  fst (show_check_project Fixture.CHECKS Fixture.get_project
         (Fixture.get Fixture.anonymous "/checks/optional_plural/hello/" [])
         "optional_plural" "hello" (Fixture.world Fixture.tables))
  = Raise IndexError.
Proof.
  refine (proj2 (proj1 (source_block_needs_a_translation
            Fixture.CHECKS Fixture.get_project Fixture.get_subproject
            (Fixture.get Fixture.anonymous "/checks/optional_plural/hello/" [])
            "optional_plural" "hello" "docs"
            {| Checks.name := "Optional plural"; Checks.target := false;
               Checks.source := true |}
            (Fixture.world Fixture.tables) eq_refl eq_refl)
          Fixture.hello eq_refl) _).
  exists Fixture.docs. split; [right; left; reflexivity | reflexivity].
Defined.

(** *** Which units a listing counts *)

Definition unit_language (x : Unit) : Z :=
  language_id (translation_language (unit_translation x)).
Definition unit_subproject (x : Unit) : SubProject :=
  translation_subproject (unit_translation x).

(** A Check row of that name and project that is not ignored, with
    language key [lang] ([None]: the NULL of a source check). *)
Definition matching (name : string) (prj : Project) (lang : option Z)
    (c : Check) : Prop :=
  check_check c = name
  /\ project_id (check_project c) = project_id prj
  /\ language_fk (check_language c) = lang
  /\ check_ignore c = false.

(** The unit carries the checksum of such a row. *)
Definition flagged (name : string) (prj : Project) (lang : option Z)
    (d : DB) (x : Unit) : Prop :=
  exists c, In c (checks d) /\ matching name prj lang c
            /\ check_checksum c = unit_checksum x.

(** Target scope: for a language among the distinct languages of the
    matching rows, a translated unit of that language. *)
Definition target_selected (name : string) (prj : Project) (d : DB)
    (x : Unit) : Prop :=
  exists lang,
    In lang (check_languages name prj d)
    /\ flagged name prj lang d x
    /\ Some (unit_language x) = lang
    /\ unit_translated x = true.

(** Source scope: a unit of the subproject, in the language of the first
    translation of the subproject, translated or not. *)
Definition source_selected (name : string) (s : SubProject) (d : DB)
    (x : Unit) : Prop :=
  exists t rest,
    translation_set s d = t :: rest
    /\ flagged name (subproject_project s) None d x
    /\ unit_language x = language_id (translation_language t)
    /\ subproject_id (unit_subproject x) = subproject_id s.

Lemma opt_eqb_eq a b : opt_eqb a b = true <-> a = b.
Proof.
  destruct a as [x |], b as [y |]; simpl; split; intros H;
    try discriminate; try reflexivity.
  - apply Z.eqb_eq in H. congruence.
  - inversion H. apply Z.eqb_refl.
Qed.

Lemma opt_eqb_sym a b : opt_eqb a b = opt_eqb b a.
Proof.
  destruct a, b; simpl; try reflexivity. apply Z.eqb_sym.
Qed.

Lemma negb_ignore c : negb (check_ignore c) = true <-> check_ignore c = false.
Proof. destruct (check_ignore c); simpl; split; congruence. Qed.

Lemma checks_for_spec name prj lang c :
  checks_for name prj lang c = true <-> matching name prj lang c.
Proof.
  unfold checks_for, matching, same_project.
  rewrite !andb_true_iff, String.eqb_eq, Z.eqb_eq, opt_eqb_eq, negb_ignore.
  tauto.
Qed.

Lemma checksum_in_spec name prj lang d x :
  checksum_in (checks_for name prj lang) d x = true
  <-> flagged name prj lang d x.
Proof.
  unfold checksum_in, flagged. rewrite existsb_exists.
  split; intros [c [Hin H]]; exists c.
  - apply andb_true_iff in H. destruct H as [Hc Hsum].
    apply checks_for_spec in Hc. apply String.eqb_eq in Hsum. tauto.
  - destruct H as [Hc Hsum]. split; [exact Hin |].
    apply andb_true_iff. split;
      [apply checks_for_spec; exact Hc | apply String.eqb_eq; exact Hsum].
Qed.

Lemma distinct_In l x : In x (distinct l) <-> In x l.
Proof.
  induction l as [| y l IH]; simpl; [tauto |].
  rewrite filter_In, IH. split.
  - intros [H | [H _]]; auto.
  - intros [H | H]; [left; exact H |].
    destruct (opt_eqb y x) eqn:Hyx.
    + left. apply opt_eqb_eq. exact Hyx.
    + right. split; [exact H | reflexivity].
Qed.

Lemma distinct_NoDup l : List.NoDup (distinct l).
Proof.
  induction l as [| y l IH]; simpl; constructor.
  - rewrite filter_In. intros [_ H].
    rewrite (proj2 (opt_eqb_eq y y) eq_refl) in H. discriminate.
  - apply List.NoDup_filter. exact IH.
Qed.

(** The languages the target loops iterate over. *)
Lemma check_languages_spec name prj d lang :
  In lang (check_languages name prj d)
  <-> exists c, In c (checks d) /\ matching name prj lang c.
Proof.
  unfold check_languages. rewrite distinct_In, in_map_iff.
  split.
  - intros [c [Hlang Hc]]. apply filter_In in Hc. destruct Hc as [Hin Hc].
    exists c. split; [exact Hin |].
    rewrite !andb_true_iff, String.eqb_eq, negb_ignore in Hc.
    unfold same_project in Hc. rewrite Z.eqb_eq in Hc.
    unfold matching. tauto.
  - intros [c [Hin [Hn [Hp [Hl Hi]]]]]. exists c. split; [exact Hl |].
    apply filter_In. split; [exact Hin |].
    rewrite !andb_true_iff, String.eqb_eq, negb_ignore.
    unfold same_project. rewrite Z.eqb_eq. tauto.
Qed.

Lemma flagged_language name prj lang d x :
  flagged name prj lang d x -> In lang (check_languages name prj d).
Proof.
  intros [c [Hin [Hc _]]]. apply check_languages_spec.
  exists c. split; assumption.
Qed.

Lemma unit_language_is_spec lang x :
  unit_language_is lang x = true <-> Some (unit_language x) = lang.
Proof. unfold unit_language_is. apply opt_eqb_eq. Qed.

Lemma project_target_where name prj d x :
  where_of (project_target_union name prj d) d x = true
  <-> target_selected name prj d x
      /\ project_id (subproject_project (unit_subproject x))
         = project_id prj.
Proof.
  unfold project_target_union, project_target_res.
  rewrite where_of_fold. simpl. rewrite existsb_exists.
  unfold target_selected. split.
  - intros [lang [Hin H]].
    rewrite !andb_true_iff, checksum_in_spec, unit_language_is_spec in H.
    unfold same_project in H. rewrite Z.eqb_eq in H.
    split; [exists lang |]; tauto.
  - intros [[lang [Hin [Hf [Hl Ht]]]] Hp]. exists lang.
    split; [exact Hin |].
    rewrite !andb_true_iff, checksum_in_spec, unit_language_is_spec.
    unfold same_project. rewrite Z.eqb_eq. tauto.
Qed.

Lemma subproject_target_where name subprj d x :
  where_of (subproject_target_union name subprj d) d x = true
  <-> target_selected name (subproject_project subprj) d x
      /\ subproject_id (unit_subproject x) = subproject_id subprj.
Proof.
  unfold subproject_target_union, subproject_target_res.
  rewrite where_of_fold. simpl. rewrite existsb_exists.
  unfold target_selected. split.
  - intros [lang [Hin H]].
    rewrite !andb_true_iff, checksum_in_spec, unit_language_is_spec in H.
    unfold same_subproject in H. rewrite Z.eqb_eq in H.
    split; [exists lang |]; tauto.
  - intros [[lang [Hin [Hf [Hl Ht]]]] Hp]. exists lang.
    split; [exact Hin |].
    rewrite !andb_true_iff, checksum_in_spec, unit_language_is_spec.
    unfold same_subproject. rewrite Z.eqb_eq. tauto.
Qed.

Lemma flagged_same_project name prj prj' lang d x :
  project_id prj = project_id prj' ->
  flagged name prj lang d x <-> flagged name prj' lang d x.
Proof.
  intros Hid. unfold flagged, matching. rewrite Hid. tauto.
Qed.

Lemma subproject_set_spec prj d s :
  In s (subproject_set prj d)
  <-> In s (subprojects d)
      /\ project_id (subproject_project s) = project_id prj.
Proof.
  unfold subproject_set, same_project. rewrite filter_In, Z.eqb_eq. tauto.
Qed.

Lemma source_counted_spec name prj d x s :
  project_id (subproject_project s) = project_id prj ->
  source_counted name prj d x s = true <-> source_selected name s d x.
Proof.
  intros Hid. unfold source_counted, source_selected, head_language.
  destruct (translation_set s d) as [| t rest].
  - split; [discriminate |]. intros [t [rest [H _]]]. discriminate.
  - simpl. rewrite !andb_true_iff, checksum_in_spec.
    unfold same_language, same_subproject. rewrite !Z.eqb_eq.
    rewrite (flagged_same_project name prj (subproject_project s))
      by (symmetry; exact Hid).
    split.
    + intros [[Hf Hl] Hs]. exists t, rest. tauto.
    + intros [t' [rest' [Heq [Hf [Hl Hs]]]]]. inversion Heq. subst. tauto.
Qed.

Lemma subproject_source_where_spec name subprj d x :
  (exists t, head_language subprj d = Some (translation_language t)
             /\ subproject_source_where name subprj (translation_language t)
                                        d x = true)
  <-> source_selected name subprj d x.
Proof.
  unfold source_selected, head_language, subproject_source_where.
  destruct (translation_set subprj d) as [| t rest].
  - split; [intros [t [H _]]; discriminate |].
    intros [t [rest [H _]]]. discriminate.
  - split.
    + intros [t' [Heq H]]. inversion Heq as [Hl].
      rewrite !andb_true_iff, checksum_in_spec in H.
      unfold same_language, same_subproject in H. rewrite !Z.eqb_eq in H.
      exists t, rest. rewrite Hl. tauto.
    + intros [t' [rest' [Heq [Hf [Hl Hs]]]]]. inversion Heq. subst.
      exists t'. split; [reflexivity |].
      rewrite !andb_true_iff, checksum_in_spec.
      unfold same_language, same_subproject. rewrite !Z.eqb_eq. tauto.
Qed.

Lemma project_selection_spec name prj check d :
  (Checks.source check = true ->
   forall s, In s (subproject_set prj d) -> translation_set s d <> []) ->
  exists qs,
    project_selection name prj check d = Ok qs
    /\ forall x,
         where_of qs d x = true
         <-> (Checks.target check = true
              /\ target_selected name prj d x
              /\ project_id (subproject_project (unit_subproject x))
                 = project_id prj)
             \/ (Checks.source check = true
                 /\ exists s, In s (subproject_set prj d)
                              /\ source_selected name s d x).
Proof.
  intros Hall. unfold project_selection.
  set (qs1 := if Checks.target check
              then project_target_union name prj d else EmptyQuerySet).
  assert (Hqs1 : forall x,
             where_of qs1 d x = true
             <-> Checks.target check = true
                 /\ target_selected name prj d x
                 /\ project_id (subproject_project (unit_subproject x))
                    = project_id prj).
  { intros x. unfold qs1. destruct (Checks.target check).
    - rewrite project_target_where. tauto.
    - simpl. split; [discriminate | intros [H _]; discriminate]. }
  destruct (Checks.source check) eqn:Hsource.
  - destruct (source_fold_ok name prj d (subproject_set prj d) qs1)
      as [qs [Hfold [_ Hwhere]]].
    + unfold qs1. destruct (Checks.target check);
        [apply keyed_project_target | exact I].
    + intros s Hs Hnone. apply (Hall eq_refl s Hs).
      apply head_language_none. exact Hnone.
    + exists qs. split; [exact Hfold |].
      intros x. rewrite Hwhere, orb_true_iff, Hqs1, existsb_exists.
      split; (intros [H | H]; [left; exact H | right]).
      * destruct H as [s [Hs Hc]]. split; [reflexivity |].
        exists s. split; [exact Hs |].
        apply (source_counted_spec name prj d x s); [| exact Hc].
        apply subproject_set_spec in Hs. tauto.
      * destruct H as [_ [s [Hs Hc]]]. exists s. split; [exact Hs |].
        apply (source_counted_spec name prj d x s); [| exact Hc].
        apply subproject_set_spec in Hs. tauto.
  - exists qs1. split; [reflexivity |].
    intros x. rewrite Hqs1. split; [tauto |].
    intros [H | [H _]]; [exact H | discriminate].
Qed.

Section CheckScopes.

Variable CHECKS : gmap string Checks.CheckClass.
Variable get_project :
  HttpRequest -> string -> list Project -> outcome Project.
Variable get_subproject :
  HttpRequest -> string -> string -> list Project -> list SubProject
  -> outcome SubProject.

(** [source_checks] as the claim reads it: the number of counted units, when
    there is any. *)
Definition counts_of (counted : Unit -> bool) (d : DB) : list nat :=
  let n := List.length (List.filter counted (units d)) in
  if Nat.ltb 0 n then [n] else [].

(** C4: in [show_check_project] and [show_check_subproject] the target
    scope iterates over the distinct languages of the matching non-ignored
    Check rows and counts, per language, the translated units of that
    language; the source scope reads the Check rows whose language is NULL
    and counts the units of one language, that of the first translation of
    the subproject, translated or not. *)
Theorem check_scope_selects_units :
  forall (request : HttpRequest) (name project subproject : string)
         (check : Checks.CheckClass) (w : World),
    CHECKS !! name = Some check ->
    (forall prj,
        List.NoDup (check_languages name prj (db w))
        /\ forall lang,
             In lang (check_languages name prj (db w))
             <-> exists c, In c (checks (db w)) /\ matching name prj lang c)
    /\ (forall prj,
           get_project request project (projects (db w)) = Ok prj ->
           (Checks.source check = true ->
            forall s, In s (subproject_set prj (db w)) ->
                      translation_set s (db w) <> []) ->
           exists selected,
             listed_rows
               (fst (show_check_project CHECKS get_project request name
                                        project w))
             = Some (group_count project_key
                       (List.filter selected (units (db w))))
             /\ forall x,
                  selected x = true
                  <-> (Checks.target check = true
                       /\ target_selected name prj (db w) x
                       /\ project_id (subproject_project (unit_subproject x))
                          = project_id prj)
                      \/ (Checks.source check = true
                          /\ exists s, In s (subproject_set prj (db w))
                                       /\ source_selected name s (db w) x))
    /\ (forall subprj,
           get_subproject request project subproject (projects (db w))
                          (subprojects (db w)) = Ok subprj ->
           (Checks.source check = true ->
            translation_set subprj (db w) <> []) ->
           exists selected counted,
             listed_rows
               (fst (show_check_subproject CHECKS get_subproject request
                                           name project subproject w))
             = Some (group_count subproject_key
                       (List.filter selected (units (db w))))
             /\ listed_source_counts
                  (fst (show_check_subproject CHECKS get_subproject request
                                              name project subproject w))
                = Some (if Checks.source check
                        then counts_of counted (db w) else [])
             /\ (forall x,
                    selected x = true
                    <-> Checks.target check = true
                        /\ target_selected name (subproject_project subprj)
                                           (db w) x
                        /\ subproject_id (unit_subproject x)
                           = subproject_id subprj)
             /\ (forall x,
                    counted x = true <-> source_selected name subprj (db w) x)).
Proof.
  intros request name project subproject check w Hname.
  set (d := db w). split; [| split].
  - intros prj. split; [apply distinct_NoDup | apply check_languages_spec].
  - intros prj Hprj Hall.
    destruct (project_selection_spec name prj check d Hall)
      as [qs [Hsel Hwhere]].
    pose proof (show_check_project_run CHECKS get_project request name
                  project check prj w Hname Hprj) as Hrun.
    fold d in Hrun. rewrite Hsel in Hrun.
    destruct Hrun as [response [Hresp Hrows]].
    exists (where_of qs d). rewrite Hresp. split; [exact Hrows | exact Hwhere].
  - intros subprj Hsub Hsome.
    pose proof (show_check_subproject_run CHECKS get_subproject request name
                  project subproject check subprj w Hname Hsub) as Hrun.
    fold d in Hrun.
    set (counted :=
           match head_language subprj d with
           | Some l => subproject_source_where name subprj l d
           | None => fun _ => false
           end).
    assert (Hcounted : forall x,
               counted x = true <-> source_selected name subprj d x).
    { intros x. rewrite <- subproject_source_where_spec. unfold counted.
      unfold head_language. destruct (translation_set subprj d) as [| t rest].
      - split; [discriminate | intros [t [H _]]; discriminate].
      - split.
        + intros H. exists t. split; [reflexivity | exact H].
        + intros [t' [Heq H]]. inversion Heq as [Hl]. rewrite Hl. exact H. }
    assert (Hsources :
              subproject_sources name subprj check d
              = Ok (if Checks.source check then counts_of counted d else [])).
    { unfold subproject_sources, counts_of, counted, source_count.
      destruct (Checks.source check); [| reflexivity].
      destruct (head_language subprj d) as [l |] eqn:Hhead; [reflexivity |].
      exfalso. apply (Hsome eq_refl). apply head_language_none. exact Hhead. }
    rewrite Hsources in Hrun.
    destruct Hrun as [response [Hresp [Hrows Hcounts]]].
    exists (where_of (subproject_selection name subprj check d) d), counted.
    rewrite Hresp. split; [exact Hrows |]. split; [exact Hcounts |].
    split; [| exact Hcounted].
    intros x. unfold subproject_selection. destruct (Checks.target check).
    + rewrite subproject_target_where. tauto.
    + simpl. split; [discriminate | intros [H _]; discriminate].
Qed.

End CheckScopes.

(** On the fixture, the target check [same] of project [hello]. *)
Lemma check_scope_selects_units_witness :
  exists selected,
    listed_rows
      (fst (show_check_project Fixture.CHECKS Fixture.get_project
              (Fixture.get Fixture.anonymous "/checks/same/hello/" [])
              "same" "hello" (Fixture.world Fixture.tables)))
    = Some (group_count project_key
              (List.filter selected (units Fixture.tables)))
    /\ forall x,
         selected x = true
         <-> (true = true
              /\ target_selected "same" Fixture.hello Fixture.tables x
              /\ project_id (subproject_project (unit_subproject x))
                 = project_id Fixture.hello)
             \/ (false = true
                 /\ exists s, In s (subproject_set Fixture.hello
                                                   Fixture.tables)
                              /\ source_selected "same" s Fixture.tables x).
Proof.
  refine (proj1 (proj2 (check_scope_selects_units
            Fixture.CHECKS Fixture.get_project Fixture.get_subproject
            (Fixture.get Fixture.anonymous "/checks/same/hello/" [])
            "same" "hello" "main"
            {| Checks.name := "Unchanged translation";
               Checks.target := true; Checks.source := false |}
            (Fixture.world Fixture.tables) eq_refl))
          Fixture.hello eq_refl _).
  intros H. discriminate H.
Defined.

(** *** The dictionary views *)

(** The world once the project and the language of a request are found. *)
Definition resolved (w : World) : World :=
  logged [MLanguage] (logged [MProject] w).

Definition language_found (lang : string) (language : Language) (d : DB)
  : Prop :=
  List.filter (fun l => String.eqb (language_code l) lang) (languages d)
  = [language].

Lemma language_found_code lang language d :
  language_found lang language d -> language_code language = lang.
Proof.
  unfold language_found. intros H.
  assert (Hin : In language
                   (List.filter (fun l => String.eqb (language_code l) lang)
                                (languages d))).
  { rewrite H. left. reflexivity. }
  apply filter_In in Hin. destruct Hin as [_ Hcode].
  apply String.eqb_eq. exact Hcode.
Qed.

Section DictionaryProperties.

Variable get_project :
  HttpRequest -> string -> list Project -> outcome Project.
Variable reverse : string -> list (string * string) -> string.
Variable get_site_url : string -> string.
Variable login_redirect : HttpRequest -> string.
Variable weblate : Weblate.Module_.
Variable WordForm : QueryDict -> option (unicode * unicode).
Variable DictUploadForm :
  QueryDict -> list (string * UploadedFile) -> option string.
Variable LetterForm : QueryDict -> option unicode.
Variable upload :
  Project -> Language -> UploadedFile -> string -> DB -> outcome Z * DB.
Variable source_le : unicode -> unicode -> bool.
Variable istartswith : unicode -> unicode -> bool.

Lemma run_lookups {A} request project lang prj language w
    (k : Project -> Language -> M A) :
  get_project request project (projects (db w)) = Ok prj ->
  language_found lang language (db w) ->
  (let* prj := project_of get_project request project in
   let* language := get_language lang in
   k prj language) w
  = k prj language (resolved w).
Proof.
  intros Hprj Hlang. unfold language_found in Hlang.
  unfold bind, project_of, helper, get_language, get_object_or_404, query.
  unfold bind. rewrite Hprj. cbn [db]. rewrite Hlang. reflexivity.
Qed.

(** A view behind [login_required] and [permission_required perm]. *)
Definition guarded (perm : string)
    (view : HttpRequest -> string -> string -> M HttpResponse) :=
  login_required login_redirect
    (permission_required login_redirect perm view).

Lemma guarded_refuses perm view request project lang w :
  is_authenticated (user request) = false
  \/ has_perm (user request) perm = false ->
  guarded perm view request project lang w
  = (Ok (HttpResponseRedirect (login_redirect request)), w).
Proof.
  unfold guarded, login_required, permission_required, user_passes_test.
  intros [H | H].
  - rewrite H. reflexivity.
  - destruct (is_authenticated (user request)); rewrite ?H; reflexivity.
Qed.

Lemma guarded_admits perm view request project lang :
  is_authenticated (user request) = true ->
  has_perm (user request) perm = true ->
  guarded perm view request project lang = view request project lang.
Proof.
  unfold guarded, login_required, permission_required, user_passes_test.
  intros H1 H2. rewrite H1, H2. reflexivity.
Qed.

(** C7: [edit_dictionary], [delete_dictionary] and [upload_dictionary] run
    their bodies only for a logged-in user holding [trans.change_dictionary],
    [trans.delete_dictionary] and [trans.upload_dictionary] respectively;
    any other request is answered by the redirect of the decorators and the
    world, hence every Dictionary row, stays as it was. *)
Theorem dictionary_mutations_are_guarded :
  forall (request : HttpRequest) (project lang : string) (w : World),
    let refused perm :=
      is_authenticated (user request) = false
      \/ has_perm (user request) perm = false in
    let admitted perm :=
      is_authenticated (user request) = true
      /\ has_perm (user request) perm = true in
    let turned_away := (Ok (HttpResponseRedirect (login_redirect request)), w)
    in
    (refused "trans.change_dictionary" ->
     edit_dictionary get_project reverse login_redirect WordForm
                     request project lang w = turned_away)
    /\ (refused "trans.delete_dictionary" ->
        delete_dictionary get_project reverse login_redirect
                          request project lang w = turned_away)
    /\ (refused "trans.upload_dictionary" ->
        upload_dictionary get_project reverse login_redirect DictUploadForm
                          upload request project lang w = turned_away)
    /\ (admitted "trans.change_dictionary" ->
        edit_dictionary get_project reverse login_redirect WordForm
                        request project lang w
        = edit_dictionary_view get_project reverse WordForm
                               request project lang w)
    /\ (admitted "trans.delete_dictionary" ->
        delete_dictionary get_project reverse login_redirect
                          request project lang w
        = delete_dictionary_view get_project reverse request project lang w)
    /\ (admitted "trans.upload_dictionary" ->
        upload_dictionary get_project reverse login_redirect DictUploadForm
                          upload request project lang w
        = upload_dictionary_view get_project reverse DictUploadForm upload
                                 request project lang w).
Proof.
  intros request project lang w refused admitted turned_away.
  repeat split.
  - apply guarded_refuses.
  - apply guarded_refuses.
  - apply guarded_refuses.
  - intros [H1 H2].
    exact (f_equal (fun v => v w)
             (guarded_admits _ _ request project lang H1 H2)).
  - intros [H1 H2].
    exact (f_equal (fun v => v w)
             (guarded_admits _ _ request project lang H1 H2)).
  - intros [H1 H2].
    exact (f_equal (fun v => v w)
             (guarded_admits _ _ request project lang H1 H2)).
Qed.

End DictionaryProperties.

(** On the fixture, an anonymous upload is turned away. *)
Lemma dictionary_mutations_are_guarded_witness :
  upload_dictionary Fixture.get_project Fixture.reverse
    Fixture.login_redirect Fixture.DictUploadForm Fixture.upload
    (Fixture.post Fixture.anonymous "/dictionaries/hello/cs/upload/"
                  [("method", "add")]
                  [("file", {| file_name := "cs.po";
                               file_content := [lf] |})])
    "hello" "cs" (Fixture.world Fixture.tables)
  = (Ok (HttpResponseRedirect
           "/accounts/login/?next=/dictionaries/hello/cs/upload/"),
     Fixture.world Fixture.tables).
Proof.
  refine (proj1 (proj2 (proj2 (dictionary_mutations_are_guarded
            Fixture.get_project Fixture.reverse Fixture.login_redirect
            Fixture.WordForm Fixture.DictUploadForm Fixture.upload
            (Fixture.post Fixture.anonymous "/dictionaries/hello/cs/upload/"
                          [("method", "add")]
                          [("file", {| file_name := "cs.po";
                                       file_content := [lf] |})])
            "hello" "cs" (Fixture.world Fixture.tables)))) _).
  left. reflexivity.
Defined.

Section Upload.

Variable get_project :
  HttpRequest -> string -> list Project -> outcome Project.
Variable reverse : string -> list (string * string) -> string.
Variable login_redirect : HttpRequest -> string.
Variable DictUploadForm :
  QueryDict -> list (string * UploadedFile) -> option string.
Variable upload :
  Project -> Language -> UploadedFile -> string -> DB -> outcome Z * DB.

(** The one message an upload leaves, read off the outcome of the import. *)
Definition import_message (result : outcome Z) : Message :=
  match result with
  | Ok count =>
      if count =? 0 then (WARNING, "No words to import found in file.")
      else (INFO, "Imported " +:+ str_of_int count +:+ " words from file.")
  | Raise e => (ERROR, "File upload has failed: " +:+ exn_text e)
  end.

Definition upload_message (request : HttpRequest) (prj : Project)
    (language : Language) (d : DB) : Message :=
  if String.eqb (method request) "POST" then
    match DictUploadForm (POST request) (FILES request) with
    | Some method_ =>
        match files_get (FILES request) "file" with
        | Some fileobj =>
            import_message (fst (upload prj language fileobj method_ d))
        | None => import_message (Raise (KeyError "file"))
        end
    | None => (ERROR, "Failed to process form!")
    end
  else (ERROR, "Failed to process form!").

Lemma upload_dictionary_view_run request project lang prj language w :
  get_project request project (projects (db w)) = Ok prj ->
  language_found lang language (db w) ->
  exists w',
    upload_dictionary_view get_project reverse DictUploadForm upload
                           request project lang w
    = (Ok (HttpResponseRedirect
             (reverse "show_dictionary"
                      [("project", project_slug prj); ("lang", lang)])), w')
    /\ messages w'
       = messages w ++ [upload_message request prj language (db w)].
Proof.
  intros Hprj Hlang. unfold upload_dictionary_view.
  rewrite (run_lookups get_project request project lang prj language w)
    by assumption.
  unfold show_dictionary_url.
  rewrite (language_found_code lang language (db w) Hlang).
  unfold upload_message.
  destruct (String.eqb (method request) "POST");
    [| eexists; split; reflexivity].
  destruct (DictUploadForm (POST request) (FILES request)) as [method_ |];
    [| eexists; split; reflexivity].
  unfold bind, try_except, run_upload.
  destruct (files_get (FILES request) "file") as [fileobj |];
    [| eexists; split; reflexivity].
  cbn [db resolved logged].
  destruct (upload prj language fileobj method_ (db w)) as [[count | e] d'];
    cbn [fst import_message].
  - destruct (count =? 0); eexists; split; reflexivity.
  - eexists; split; reflexivity.
Qed.

(** C6: an upload that reaches the view body (the user is logged in and may
    upload, the project and the language exist) ends with a redirect to the
    [show_dictionary] page of that project and language and adds exactly one
    flash message: the error [Failed to process form!] for a request that is
    not a POST or whose form is invalid, an error carrying the exception text
    when the import raises, the warning [No words to import found in file.]
    for a count of zero and an info message with the count otherwise. *)
Theorem upload_dictionary_flashes_once :
  forall (request : HttpRequest) (project lang : string) (prj : Project)
         (language : Language) (w : World),
    is_authenticated (user request) = true ->
    has_perm (user request) "trans.upload_dictionary" = true ->
    get_project request project (projects (db w)) = Ok prj ->
    language_found lang language (db w) ->
    exists (message : Message) (w' : World),
      upload_dictionary get_project reverse login_redirect DictUploadForm
                        upload request project lang w
      = (Ok (HttpResponseRedirect
               (reverse "show_dictionary"
                        [("project", project_slug prj); ("lang", lang)])),
         w')
      /\ messages w' = messages w ++ [message]
      /\ (method request <> "POST"
          \/ DictUploadForm (POST request) (FILES request) = None ->
          message = (ERROR, "Failed to process form!"))
      /\ (forall method_ fileobj,
             method request = "POST" ->
             DictUploadForm (POST request) (FILES request) = Some method_ ->
             files_get (FILES request) "file" = Some fileobj ->
             match fst (upload prj language fileobj method_ (db w)) with
             | Raise e =>
                 message
                 = (ERROR, "File upload has failed: " +:+ exn_text e)
             | Ok count =>
                 (count = 0 ->
                  message = (WARNING, "No words to import found in file."))
                 /\ (count <> 0 ->
                     message
                     = (INFO,
                        "Imported " +:+ str_of_int count
                        +:+ " words from file."))
             end).
Proof.
  intros request project lang prj language w Hauth Hperm Hprj Hlang.
  destruct (upload_dictionary_view_run request project lang prj language w
              Hprj Hlang) as [w' [Hrun Hmsg]].
  exists (upload_message request prj language (db w)), w'.
  split; [| split; [exact Hmsg | split]].
  - exact (eq_trans
             (f_equal (fun v => v w)
                (guarded_admits login_redirect "trans.upload_dictionary"
                   (upload_dictionary_view get_project reverse
                                           DictUploadForm upload)
                   request project lang Hauth Hperm))
             Hrun).
  - unfold upload_message. intros [Hmethod | Hform].
    + destruct (String.eqb (method request) "POST") eqn:Heq;
        [| reflexivity].
      apply String.eqb_eq in Heq. contradiction.
    + rewrite Hform. destruct (String.eqb (method request) "POST");
        reflexivity.
  - intros method_ fileobj Hmethod Hform Hfile. unfold upload_message.
    rewrite Hmethod, Hform, Hfile.
    change (String.eqb "POST" "POST") with true. cbv iota.
    destruct (fst (upload prj language fileobj method_ (db w)))
      as [count | e]; cbn [import_message]; [| reflexivity].
    split; intros Hcount.
    + subst count. reflexivity.
    + apply Z.eqb_neq in Hcount. rewrite Hcount. reflexivity.
Qed.

End Upload.

(** On the fixture, a translator uploads a file of two lines. *)
Lemma upload_dictionary_flashes_once_witness :
  exists w',
    upload_dictionary Fixture.get_project Fixture.reverse
      Fixture.login_redirect Fixture.DictUploadForm Fixture.upload
      (Fixture.post Fixture.translator "/dictionaries/hello/cs/upload/"
                    [("method", "add")]
                    [("file", {| file_name := "cs.po";
                                 file_content := [x61; lf; x62; lf] |})])
      "hello" "cs" (Fixture.world Fixture.tables)
    = (Ok (HttpResponseRedirect "/dictionaries/hello/cs/"), w')
    /\ messages w' = [(INFO, "Imported 2 words from file.")].
Proof.
  destruct (upload_dictionary_flashes_once
              Fixture.get_project Fixture.reverse Fixture.login_redirect
              Fixture.DictUploadForm Fixture.upload
              (Fixture.post Fixture.translator
                 "/dictionaries/hello/cs/upload/" [("method", "add")]
                 [("file", {| file_name := "cs.po";
                              file_content := [x61; lf; x62; lf] |})])
              "hello" "cs" Fixture.hello Fixture.cs
              (Fixture.world Fixture.tables)
              eq_refl eq_refl eq_refl eq_refl)
    as [message [w' [Hrun [Hmsg [_ Hclass]]]]].
  exists w'. split; [exact Hrun |].
  rewrite Hmsg.
  specialize (Hclass "add" {| file_name := "cs.po";
                              file_content := [x61; lf; x62; lf] |}
                     eq_refl eq_refl eq_refl).
  cbn in Hclass. destruct Hclass as [_ Hinfo].
  rewrite Hinfo by discriminate. reflexivity.
Defined.

(** *** Order of the dictionary entries *)

Section Ordering.

Variable source_le : unicode -> unicode -> bool.




Lemma order_by_source_perm l :
  Permutation (order_by_source source_le l) l.
Proof.
  induction l as [| x l IH]; simpl; [constructor |].
  transitivity (x :: order_by_source source_le l);
    [| constructor; exact IH].
  generalize (order_by_source source_le l). clear.
  intros l. induction l as [| y l IH]; simpl; [reflexivity |].
  destruct (source_le (dictionary_source x) (dictionary_source y));
    [reflexivity |].
  rewrite IH. apply perm_swap.
Qed.

Hypothesis source_le_total :
  forall a b, source_le a b = true \/ source_le b a = true.







End Ordering.

(** *** Downloads *)

Definition csv_row (word : Dictionary) : bytes :=
  csv_writerow [encode_utf8 (dictionary_source word);
                encode_utf8 (dictionary_target word)].

Lemma fold_left_written (rows : list Dictionary) :
  forall written,
    fold_left (fun written word => written ++ csv_row word) rows written
    = written ++ concat (List.map csv_row rows).
Proof.
  induction rows as [| word rows IH]; intros written; simpl.
  - rewrite app_nil_r. reflexivity.
  - rewrite IH, <- app_assoc. reflexivity.
Qed.

Lemma fold_left_calls (c : Dictionary -> Ttkit.StoreCall)
    (rows : list Dictionary) :
  forall store,
    fold_left (fun store word => Ttkit.call store (c word)) rows store
    = {| Ttkit.store_class := Ttkit.store_class store;
         Ttkit.calls := Ttkit.calls store ++ List.map c rows |}.
Proof.
  induction rows as [| word rows IH]; intros store; simpl.
  - rewrite app_nil_r. destruct store. reflexivity.
  - rewrite IH. unfold Ttkit.call; simpl.
    rewrite <- app_assoc. reflexivity.
Qed.

Section Download.

Variable get_project :
  HttpRequest -> string -> list Project -> outcome Project.
Variable reverse : string -> list (string * string) -> string.
Variable get_site_url : string -> string.
Variable weblate : Weblate.Module_.
Variable source_le : unicode -> unicode -> bool.

(** The header [download_dictionary_ttkit] sets on a PO store. *)
Definition po_header (prj : Project) (language : Language)
  : Ttkit.StoreCall :=
  Ttkit.updateheader true
    [("language", language_code language);
     ("x_generator", "Weblate " +:+ Weblate.VERSION weblate);
     ("project_id_version",
      language_name language +:+ " (" +:+ project_name prj +:+ ")");
     ("language_team",
      language_name language +:+ " <"
      +:+ get_site_url
            (reverse "show_dictionary"
                     [("project", project_slug prj);
                      ("lang", language_code language)])
      +:+ ">")].

Definition glossary (prj : Project) (language : Language)
    (extension : string) : list (string * string) :=
  [("Content-Disposition",
    "attachment; filename=glossary-" +:+ project_slug prj +:+ "-"
    +:+ language_code language +:+ "." +:+ extension)].

Lemma ttkit_po prj language words w :
  download_dictionary_ttkit reverse get_site_url weblate "po" prj language
                            words w
  = (Ok (Download "text/x-po; charset=utf-8" (glossary prj language "po")
           (Saved {| Ttkit.store_class := Ttkit.pofile;
                     Ttkit.calls :=
                       po_header prj language
                       :: List.map
                            (fun word =>
                               Ttkit.addunit (dictionary_source word)
                                             (dictionary_target word) None)
                            (words (db w)) |})),
     logged [MDictionary] w).
Proof.
  unfold download_dictionary_ttkit.
  change (String.eqb "po" "po") with true. cbv iota. cbv beta.
  unfold bind, query, ret, attachment. rewrite fold_left_calls. reflexivity.
Qed.

Lemma ttkit_tbx prj language words w :
  download_dictionary_ttkit reverse get_site_url weblate "tbx" prj language
                            words w
  = (Ok (Download "application/x-tbx; charset=utf-8"
           (glossary prj language "tbx")
           (Saved {| Ttkit.store_class := Ttkit.tbxfile;
                     Ttkit.calls :=
                       List.map
                         (fun word =>
                            Ttkit.addunit (dictionary_source word)
                                          (dictionary_target word)
                                          (Some (language_code language)))
                         (words (db w)) |})),
     logged [MDictionary] w).
Proof.
  unfold download_dictionary_ttkit.
  change (String.eqb "tbx" "po") with false. cbv iota. cbv beta.
  unfold bind, query, ret, attachment. rewrite fold_left_calls. reflexivity.
Qed.

(** C2: for a PO export [download_dictionary_ttkit] first sets the header
    of the store (language: the language code; generator: [Weblate] and the
    version; project-id-version: the language name and the project name in
    parentheses; language-team: the language name and the site URL of the
    [show_dictionary] page) and then adds one unit per word; for a TBX export
    it sets no header and gives every target the language code. *)
Theorem ttkit_header_only_for_po :
  forall (prj : Project) (language : Language)
         (words : DB -> list Dictionary) (w : World),
    (exists headers,
        fst (download_dictionary_ttkit reverse get_site_url weblate "po" prj
                                       language words w)
        = Ok (Download "text/x-po; charset=utf-8" headers
                (Saved
                   {| Ttkit.store_class := Ttkit.pofile;
                      Ttkit.calls :=
                        Ttkit.updateheader true
                          [("language", language_code language);
                           ("x_generator",
                            "Weblate " +:+ Weblate.VERSION weblate);
                           ("project_id_version",
                            language_name language +:+ " (" +:+
                            project_name prj +:+ ")");
                           ("language_team",
                            language_name language +:+ " <" +:+
                            get_site_url
                              (reverse "show_dictionary"
                                 [("project", project_slug prj);
                                  ("lang", language_code language)])
                            +:+ ">")]
                        :: List.map
                             (fun word =>
                                Ttkit.addunit (dictionary_source word)
                                              (dictionary_target word) None)
                             (words (db w)) |})))
    /\ (exists headers,
           fst (download_dictionary_ttkit reverse get_site_url weblate "tbx"
                                          prj language words w)
           = Ok (Download "application/x-tbx; charset=utf-8" headers
                   (Saved
                      {| Ttkit.store_class := Ttkit.tbxfile;
                         Ttkit.calls :=
                           List.map
                             (fun word =>
                                Ttkit.addunit
                                  (dictionary_source word)
                                  (dictionary_target word)
                                  (Some (language_code language)))
                             (words (db w)) |}))).
Proof.
  intros prj language words w. split.
  - exists (glossary prj language "po"). rewrite ttkit_po. reflexivity.
  - exists (glossary prj language "tbx"). rewrite ttkit_tbx. reflexivity.
Qed.

Definition supported (f : string) : Prop :=
  f = "csv" \/ f = "po" \/ f = "tbx".

Lemma supported_spec f :
  existsb (String.eqb f) ["csv"; "po"; "tbx"] = true <-> supported f.
Proof.
  unfold supported. cbn [existsb].
  rewrite orb_false_r, !orb_true_iff, !String.eqb_eq. reflexivity.
Qed.

Lemma parse_export_format_spec request :
  parse_export_format request
  = match qd_get (GET request) "format" with
    | Some f =>
        if existsb (String.eqb f) ["csv"; "po"; "tbx"] then f else "csv"
    | None => "csv"
    end.
Proof.
  unfold parse_export_format, qd_contains.
  destruct (qd_get (GET request) "format"); reflexivity.
Qed.

Definition csv_download (prj : Project) (language : Language)
    (rows : list Dictionary) : HttpResponse :=
  Download "text/csv; charset=utf-8"
    [("Content-Disposition",
      "attachment; filename=dictionary-" +:+ project_slug prj +:+ "-"
      +:+ language_code language +:+ ".csv")]
    (Written (concat (List.map csv_row rows))).

Lemma download_dictionary_run request project lang prj language w :
  get_project request project (projects (db w)) = Ok prj ->
  language_found lang language (db w) ->
  download_dictionary get_project reverse get_site_url weblate source_le
                      request project lang w
  = if existsb (String.eqb (parse_export_format request)) ["po"; "tbx"]
    then download_dictionary_ttkit reverse get_site_url weblate
           (parse_export_format request) prj language
           (words_of source_le prj language) (resolved w)
    else (Ok (csv_download prj language
                (words_of source_le prj language (db w))),
          logged [MDictionary] (resolved w)).
Proof.
  intros Hprj Hlang. unfold download_dictionary.
  rewrite (run_lookups get_project request project lang prj language w)
    by assumption.
  destruct (existsb (String.eqb (parse_export_format request))
                    ["po"; "tbx"]); [reflexivity |].
  pose proof (fold_left_written (words_of source_le prj language (db w)) [])
    as Hwritten.
  unfold bind, query, ret, attachment, csv_download.
  unfold csv_row in *. cbn [db resolved logged].
  rewrite Hwritten. reflexivity.
Qed.

(** C1: [download_dictionary] takes the export format from the [format]
    GET parameter and falls back to [csv] when the parameter is absent or is
    none of [csv], [po], [tbx]; for [csv] it answers with the attachment
    [dictionary-<project slug>-<language code>.csv] of type
    [text/csv; charset=utf-8] holding one CSV record per Dictionary entry of
    the project and language, made of the UTF-8 encoded source and target;
    for [po] and [tbx] it hands over to [download_dictionary_ttkit]. *)
Theorem download_dictionary_formats :
  forall (request : HttpRequest) (project lang : string) (prj : Project)
         (language : Language) (w : World),
    get_project request project (projects (db w)) = Ok prj ->
    language_found lang language (db w) ->
    let export_format := parse_export_format request in
    let entries :=
      List.filter (in_dictionary prj language) (dictionaries (db w)) in
    (forall f, qd_get (GET request) "format" = Some f -> supported f ->
               export_format = f)
    /\ (qd_get (GET request) "format" = None
        \/ (exists f, qd_get (GET request) "format" = Some f
                      /\ ~ supported f) ->
        export_format = "csv")
    /\ (export_format = "csv" ->
        exists rows,
          Permutation rows entries
          /\ fst (download_dictionary get_project reverse get_site_url
                    weblate source_le request project lang w)
             = Ok (Download "text/csv; charset=utf-8"
                     [("Content-Disposition",
                       "attachment; filename=dictionary-"
                       +:+ project_slug prj +:+ "-" +:+ lang +:+ ".csv")]
                     (Written
                        (concat
                           (List.map
                              (fun word =>
                                 csv_writerow
                                   [encode_utf8 (dictionary_source word);
                                    encode_utf8 (dictionary_target word)])
                              rows)))))
    /\ (export_format = "po" \/ export_format = "tbx" ->
        download_dictionary get_project reverse get_site_url weblate
                            source_le request project lang w
        = download_dictionary_ttkit reverse get_site_url weblate
            export_format prj language (words_of source_le prj language)
            (resolved w)).
Proof.
  intros request project lang prj language w Hprj Hlang export_format
         entries.
  pose proof (download_dictionary_run request project lang prj language w
                Hprj Hlang) as Hrun.
  pose proof (parse_export_format_spec request) as Hparse.
  fold export_format in Hrun, Hparse.
  split; [| split; [| split]].
  - intros f Hf Hsup. rewrite Hparse, Hf.
    rewrite (proj2 (supported_spec f) Hsup). reflexivity.
  - intros [Hnone | [f [Hf Hsup]]]; rewrite Hparse.
    + rewrite Hnone. reflexivity.
    + rewrite Hf.
      destruct (existsb (String.eqb f) ["csv"; "po"; "tbx"]) eqn:Hex;
        [| reflexivity].
      apply supported_spec in Hex. contradiction.
  - intros Hcsv. rewrite Hcsv in Hrun.
    exists (words_of source_le prj language (db w)). split.
    + apply order_by_source_perm.
    + rewrite Hrun. cbn [existsb String.eqb Ascii.eqb Bool.eqb orb fst].
      unfold csv_download.
      rewrite (language_found_code lang language (db w) Hlang).
      reflexivity.
  - intros Hfmt. rewrite Hrun.
    destruct Hfmt as [H | H]; rewrite H; reflexivity.
Qed.

End Download.

(** On the fixture, the Czech glossary of [hello] as CSV. *)
Lemma download_dictionary_formats_witness :
  fst (download_dictionary Fixture.get_project Fixture.reverse
         Fixture.get_site_url Fixture.weblate Fixture.source_le
         (Fixture.get Fixture.anonymous "/dictionaries/hello/cs/download/"
                      [("format", "xliff")])
         "hello" "cs" (Fixture.world Fixture.tables))
  = Ok (Download "text/csv; charset=utf-8"
          [("Content-Disposition",
            "attachment; filename=dictionary-hello-cs.csv")]
          (Written
             (bytes_of_string "apple,jablko"
              ++ [cr; lf; dquote] ++ bytes_of_string "say, do"
              ++ [dquote] ++ bytes_of_string ",mluvit" ++ [cr; lf]
              ++ bytes_of_string "zebra,zebra" ++ [cr; lf]))).
Proof.
  destruct (proj1 (proj2 (proj2 (download_dictionary_formats
              Fixture.get_project Fixture.reverse Fixture.get_site_url
              Fixture.weblate Fixture.source_le
              (Fixture.get Fixture.anonymous
                 "/dictionaries/hello/cs/download/" [("format", "xliff")])
              "hello" "cs" Fixture.hello Fixture.cs
              (Fixture.world Fixture.tables) eq_refl eq_refl)))
            eq_refl) as [rows [_ Hrun]].
  reflexivity.
Defined.

(** *** The listing and its pages *)

(** The page a rendered listing shows under [words]. *)
Definition listed_page (r : outcome HttpResponse) : option Page :=
  match r with
  | Ok (Rendered _ context) =>
      match context_get context "words" with
      | Some (CPage p) => Some p
      | _ => None
      end
  | _ => None
  end.




Lemma page_is_slice p d number_ pg :
  Paginator.page p d number_ = Ok pg ->
  exists n m, object_list pg = firstn n (skipn m (Paginator.objects p d)).
Proof.
  unfold Paginator.page, Paginator.slice.
  destruct (Paginator.validate_number p d number_) as [k | e];
    [| discriminate].
  match goal with
  | |- context [if ?c then Raise AssertionError else _] => destruct c
  end; [discriminate |].
  intros H. inversion H. simpl. eauto.
Qed.



Section Listing.

Variable get_project :
  HttpRequest -> string -> list Project -> outcome Project.
Variable reverse : string -> list (string * string) -> string.
Variable get_site_url : string -> string.
Variable weblate : Weblate.Module_.
Variable WordForm : QueryDict -> option (unicode * unicode).
Variable LetterForm : QueryDict -> option unicode.
Variable source_le : unicode -> unicode -> bool.
Variable istartswith : unicode -> unicode -> bool.

Lemma deliver_page_is_slice p d page_ pg :
  deliver_page p page_ d = Ok pg ->
  exists n m, object_list pg = firstn n (skipn m (Paginator.objects p d)).
Proof.
  unfold deliver_page.
  destruct (Paginator.page p d page_) as [pg' | e] eqn:Hpage.
  - intros H. inversion H. subst. eapply page_is_slice. exact Hpage.
  - destruct e; try discriminate.
    + apply page_is_slice.
    + destruct (Paginator.num_pages p d); [| discriminate].
      apply page_is_slice.
Qed.

Definition may_add (request : HttpRequest) : bool :=
  String.eqb (method request) "POST"
  && has_perm (user request) "trans.add_dictionary".

(** What [show_dictionary] hands to the template under [words]. *)
Definition delivered (request : HttpRequest) (prj : Project)
    (language : Language) (d : DB) : outcome Page :=
  match Paginator.make
          (fst (letter_words LetterForm source_le istartswith request prj
                             language))
          (get_arg (GET request) "limit" 25) with
  | Ok paginator =>
      deliver_page paginator (get_arg (GET request) "page" 1) d
  | Raise e => Raise e
  end.

Lemma show_dictionary_run request project lang prj language w :
  get_project request project (projects (db w)) = Ok prj ->
  language_found lang language (db w) ->
  may_add request = false ->
  match delivered request prj language (db w) with
  | Ok pg =>
      listed_page
        (fst (show_dictionary get_project WordForm LetterForm source_le
                              istartswith request project lang w))
      = Some pg
  | Raise e =>
      fst (show_dictionary get_project WordForm LetterForm source_le
                           istartswith request project lang w)
      = Raise e
  end.
Proof.
  intros Hprj Hlang Hadd. unfold show_dictionary.
  rewrite (run_lookups get_project request project lang prj language w)
    by assumption.
  unfold may_add in Hadd. rewrite Hadd. unfold delivered.
  destruct (letter_words LetterForm source_le istartswith request prj
                         language) as [words letter].
  cbn [fst]. unfold bind, lift, helper.
  destruct (Paginator.make words (get_arg (GET request) "limit" 25))
    as [paginator | e]; [| reflexivity].
  cbn [db resolved logged].
  destruct (deliver_page paginator (get_arg (GET request) "page" 1) (db w));
    reflexivity.
Qed.


Lemma make_objects words limit paginator :
  Paginator.make words limit = Ok paginator ->
  Paginator.objects paginator = words.
Proof.
  unfold Paginator.make. destruct (Paginator.int limit); [| discriminate].
  intros H. inversion H. reflexivity.
Qed.


End Listing.

(** *** Pagination *)

Section Pages.

Variable words : DB -> list Dictionary.
Variable per_page : Z.
Variable d : DB.
Hypothesis per_page_positive : 0 < per_page.

Definition paginator : Paginator.t :=
  {| Paginator.objects := words; Paginator.per_page := per_page;
     Paginator.orphans := 0; Paginator.allow_empty_first_page := true |}.

(** The number of the last page. *)
Definition last_page : Z :=
  Paginator.ceil_div (Z.max 1 (Z.of_nat (List.length (words d)))) per_page.

(** The page of that number, [per_page] rows from row
    [(number - 1) * per_page] on. *)
Definition page_number (n : Z) : Page :=
  {| number := n;
     object_list :=
       firstn (Z.to_nat per_page)
              (skipn (Z.to_nat ((n - 1) * per_page)) (words d)) |}.

Lemma last_page_positive : 1 <= last_page.
Proof.
  unfold last_page, Paginator.ceil_div.
  assert (H : - Z.max 1 (Z.of_nat (List.length (words d))) / per_page < 0).
  { apply Z.div_lt_upper_bound; lia. }
  lia.
Qed.

Lemma num_pages_last : Paginator.num_pages paginator d = Ok last_page.
Proof.
  unfold Paginator.num_pages, Paginator.count, paginator; simpl.
  rewrite andb_false_r, Z.sub_0_r.
  destruct (per_page =? 0) eqn:H; [apply Z.eqb_eq in H; lia |].
  reflexivity.
Qed.

Lemma validate_in_range n :
  1 <= n <= last_page ->
  Paginator.validate_number paginator d (Paginator.Int n) = Ok n.
Proof.
  intros Hn. unfold Paginator.validate_number. cbn [Paginator.int].
  rewrite num_pages_last.
  destruct (n <? 1) eqn:H1; [apply Z.ltb_lt in H1; lia |].
  destruct (last_page <? n) eqn:H2; [apply Z.ltb_lt in H2; lia |].
  reflexivity.
Qed.

Lemma validate_out_of_range n :
  n < 1 \/ last_page < n ->
  Paginator.validate_number paginator d (Paginator.Int n) = Raise EmptyPage.
Proof.
  intros Hn. pose proof last_page_positive as Hlast.
  unfold Paginator.validate_number. cbn [Paginator.int].
  rewrite num_pages_last.
  destruct (n <? 1) eqn:H1; [reflexivity |]. apply Z.ltb_ge in H1.
  destruct (last_page <? n) eqn:H2; [| apply Z.ltb_ge in H2; lia].
  destruct (n =? 1) eqn:H3; [apply Z.eqb_eq in H3; lia |]. reflexivity.
Qed.

Lemma page_in_range n :
  1 <= n <= last_page ->
  Paginator.page paginator d (Paginator.Int n) = Ok (page_number n).
Proof.
  intros Hn. unfold Paginator.page. rewrite validate_in_range by exact Hn.
  unfold Paginator.slice, Paginator.count, page_number.
  cbn [Paginator.objects Paginator.per_page Paginator.orphans paginator].
  set (rows := words d). set (count := Z.of_nat (List.length rows)).
  set (bottom := (n - 1) * per_page).
  assert (Hbottom : 0 <= bottom) by (unfold bottom; nia).
  destruct (count <=? bottom + per_page + 0) eqn:Htop.
  - apply Z.leb_le in Htop.
    destruct ((bottom <? 0) || (count <? 0)) eqn:Hneg.
    { apply orb_true_iff in Hneg.
      destruct Hneg as [H | H]; apply Z.ltb_lt in H; lia. }
    f_equal. f_equal.
    rewrite !firstn_all2; [reflexivity | |];
      rewrite length_skipn; unfold count in *; lia.
  - apply Z.leb_gt in Htop.
    destruct ((bottom <? 0) || (bottom + per_page <? 0)) eqn:Hneg.
    { apply orb_true_iff in Hneg.
      destruct Hneg as [H | H]; apply Z.ltb_lt in H; lia. }
    f_equal. f_equal. f_equal. lia.
Qed.

(** The page number [deliver_page] settles on. *)
Definition settled (page_ : Paginator.arg) : Z :=
  match Paginator.int page_ with
  | Raise _ => 1
  | Ok n => if (1 <=? n) && (n <=? last_page) then n else last_page
  end.

Lemma deliver_page_settled page_ :
  deliver_page paginator page_ d = Ok (page_number (settled page_)).
Proof.
  pose proof last_page_positive as Hlast.
  unfold deliver_page, settled.
  destruct (Paginator.int page_) as [n | e] eqn:Hint.
  - destruct ((1 <=? n) && (n <=? last_page)) eqn:Hrange.
    + apply andb_true_iff in Hrange. destruct Hrange as [H1 H2].
      apply Z.leb_le in H1. apply Z.leb_le in H2.
      assert (Hpage : Paginator.page paginator d page_
                      = Paginator.page paginator d (Paginator.Int n)).
      { unfold Paginator.page, Paginator.validate_number.
        rewrite Hint. reflexivity. }
      rewrite Hpage, page_in_range by lia. reflexivity.
    + assert (Hout : n < 1 \/ last_page < n).
      { apply andb_false_iff in Hrange.
        destruct Hrange as [H | H]; apply Z.leb_gt in H; lia. }
      assert (Hpage : Paginator.page paginator d page_ = Raise EmptyPage).
      { unfold Paginator.page.
        replace (Paginator.validate_number paginator d page_)
          with (Paginator.validate_number paginator d (Paginator.Int n)).
        - rewrite validate_out_of_range by exact Hout. reflexivity.
        - unfold Paginator.validate_number. rewrite Hint. reflexivity. }
      rewrite Hpage, num_pages_last. apply page_in_range. lia.
  - assert (Hpage : Paginator.page paginator d page_
                    = Raise PageNotAnInteger).
    { unfold Paginator.page, Paginator.validate_number.
      rewrite Hint. reflexivity. }
    rewrite Hpage. apply page_in_range. lia.
Qed.

End Pages.

(** *** Order of the listing and of the exports *)

Section Enumeration.

Variable get_project :
  HttpRequest -> string -> list Project -> outcome Project.
Variable reverse : string -> list (string * string) -> string.
Variable get_site_url : string -> string.
Variable weblate : Weblate.Module_.
Variable WordForm : QueryDict -> option (unicode * unicode).
Variable LetterForm : QueryDict -> option unicode.
Variable source_le : unicode -> unicode -> bool.
Variable istartswith : unicode -> unicode -> bool.





End Enumeration.



Section Pagination.

Variable get_project :
  HttpRequest -> string -> list Project -> outcome Project.
Variable WordForm : QueryDict -> option (unicode * unicode).
Variable LetterForm : QueryDict -> option unicode.
Variable source_le : unicode -> unicode -> bool.
Variable istartswith : unicode -> unicode -> bool.


End Pagination.



(** ** Further properties of the views *)

(** *** Grouping and counting *)

Lemma keys_eqb_eq (a b : list string) : keys_eqb a b = true <-> a = b.
Proof.
  revert b. induction a as [| x a IH]; intros [| y b]; simpl;
    try (split; [discriminate | discriminate]); [tauto |].
  rewrite andb_true_iff, String.eqb_eq, IH.
  split; [intros [-> ->]; reflexivity | intros H; inversion H; auto].
Qed.

Lemma keys_eqb_refl (a : list string) : keys_eqb a a = true.
Proof. apply keys_eqb_eq. reflexivity. Qed.

(** The count listed for key [k]: 0 when [k] has no row. *)
Fixpoint tally (k : list string) (acc : list ValuesRow) : nat :=
  match acc with
  | [] => 0%nat
  | (k', n) :: r => if keys_eqb k k' then (n + tally k r)%nat else tally k r
  end.

Definition well_grouped (acc : list ValuesRow) : Prop :=
  List.NoDup (List.map fst acc) /\ Forall (fun row => (1 <= snd row)%nat) acc.

Lemma bump_keys k acc k' :
  In k' (List.map fst (bump k acc)) <-> k' = k \/ In k' (List.map fst acc).
Proof.
  induction acc as [| [k0 n] r IH]; simpl.
  - intuition.
  - destruct (keys_eqb k k0) eqn:Hk; simpl.
    + apply keys_eqb_eq in Hk. subst k0. intuition.
    + rewrite IH. intuition.
Qed.

Lemma bump_well_grouped k acc :
  well_grouped acc -> well_grouped (bump k acc).
Proof.
  intros [Hnodup Hpos]. induction acc as [| [k0 n] r IH]; simpl.
  - split; repeat constructor; auto.
  - inversion Hnodup as [| ? ? Hnotin Hnodup']. subst.
    inversion Hpos as [| ? ? Hn Hpos']. subst. simpl in Hn.
    destruct (keys_eqb k k0) eqn:Hk; simpl.
    + split; constructor; simpl; auto; lia.
    + destruct (IH Hnodup' Hpos') as [IH1 IH2].
      split; constructor; simpl; auto.
      rewrite bump_keys. intros [-> | H]; [| contradiction].
      rewrite keys_eqb_refl in Hk. discriminate.
Qed.

Lemma tally_bump k k' acc :
  tally k (bump k' acc)
  = (tally k acc + if keys_eqb k k' then 1 else 0)%nat.
Proof.
  induction acc as [| [k0 n] r IH]; simpl.
  - destruct (keys_eqb k k'); reflexivity.
  - destruct (keys_eqb k' k0) eqn:Hk'; simpl.
    + apply keys_eqb_eq in Hk'. subst k0.
      destruct (keys_eqb k k'); lia.
    + rewrite IH. destruct (keys_eqb k k0); lia.
Qed.

Lemma tally_absent k acc :
  ~ In k (List.map fst acc) -> tally k acc = 0%nat.
Proof.
  induction acc as [| [k0 n] r IH]; simpl; [reflexivity |].
  intros Hnotin. destruct (keys_eqb k k0) eqn:Hk.
  - apply keys_eqb_eq in Hk. subst. tauto.
  - apply IH. tauto.
Qed.

Lemma tally_listed k n acc :
  List.NoDup (List.map fst acc) -> In (k, n) acc -> tally k acc = n.
Proof.
  induction acc as [| [k0 n0] r IH]; simpl; [tauto |].
  intros Hnodup Hin. inversion Hnodup as [| ? ? Hnotin Hnodup']. subst.
  destruct Hin as [Heq | Hin].
  - inversion Heq. subst. rewrite keys_eqb_refl.
    rewrite tally_absent by exact Hnotin. lia.
  - destruct (keys_eqb k k0) eqn:Hk.
    + apply keys_eqb_eq in Hk. subst k0. exfalso. apply Hnotin.
      apply (in_map fst) in Hin. exact Hin.
    + apply IH; assumption.
Qed.

Lemma tally_positive k acc :
  well_grouped acc -> (1 <= tally k acc)%nat ->
  In (k, tally k acc) acc.
Proof.
  intros [Hnodup Hpos]. induction acc as [| [k0 n0] r IH]; simpl; [lia |].
  inversion Hnodup as [| ? ? Hnotin Hnodup']. subst.
  inversion Hpos as [| ? ? Hn Hpos']. subst.
  destruct (keys_eqb k k0) eqn:Hk.
  - apply keys_eqb_eq in Hk. subst k0.
    rewrite tally_absent by exact Hnotin. intros _. left. f_equal. lia.
  - intros H. right. apply IH; assumption.
Qed.

Section GroupCount.

Context {A : Type}.
Variable key : A -> list string.

(** The rows of a table that fall in group [k]. *)
Definition members (k : list string) (rows : list A) : list A :=
  List.filter (fun row => keys_eqb (key row) k) rows.

Lemma group_count_acc rows :
  forall acc,
    well_grouped acc ->
    well_grouped (fold_left (fun acc row => bump (key row) acc) rows acc)
    /\ forall k,
         tally k (fold_left (fun acc row => bump (key row) acc) rows acc)
         = (tally k acc + List.length (members k rows))%nat.
Proof.
  induction rows as [| row rows IH]; intros acc Hacc; simpl.
  - split; [exact Hacc | intros; lia].
  - destruct (IH (bump (key row) acc) (bump_well_grouped _ _ Hacc))
      as [Hwell Htally].
    split; [exact Hwell |]. intros k. rewrite Htally, tally_bump.
    replace (keys_eqb k (key row)) with (keys_eqb (key row) k).
    + destruct (keys_eqb (key row) k); simpl; lia.
    + destruct (keys_eqb (key row) k) eqn:H1, (keys_eqb k (key row)) eqn:H2;
        try reflexivity.
      * apply keys_eqb_eq in H1. subst. rewrite keys_eqb_refl in H2.
        discriminate.
      * apply keys_eqb_eq in H2. subst. rewrite keys_eqb_refl in H1.
        discriminate.
Qed.

Lemma group_count_well_grouped rows : well_grouped (group_count key rows).
Proof.
  apply group_count_acc. split; constructor.
Qed.

(** A group is listed with count [n] exactly when it has [n] members and
    at least one. *)
Lemma group_count_spec rows k n :
  In (k, n) (group_count key rows)
  <-> n = List.length (members k rows) /\ (1 <= n)%nat.
Proof.
  destruct (group_count_acc rows []) as [Hwell Htally];
    [split; constructor |].
  fold (group_count key rows) in Hwell, Htally.
  specialize (Htally k). simpl in Htally. split.
  - intros Hin. destruct Hwell as [Hnodup Hpos].
    rewrite (tally_listed k n _ Hnodup Hin) in Htally. split; [exact Htally |].
    rewrite List.Forall_forall in Hpos. apply (Hpos (k, n) Hin).
  - intros [Hn Hpos]. rewrite <- Hn in Htally.
    rewrite <- Htally. apply tally_positive; [exact Hwell | lia].
Qed.

Lemma group_count_empty rows : group_count key rows = [] <-> rows = [].
Proof.
  split; [| intros ->; reflexivity].
  destruct rows as [| row rows]; [reflexivity |]. intros Hnil.
  assert (Hin : In (key row,
                    List.length (members (key row) (row :: rows)))
                   (group_count key (row :: rows))).
  { apply group_count_spec. split; [reflexivity |].
    unfold members. simpl. rewrite keys_eqb_refl. simpl. lia. }
  rewrite Hnil in Hin. destruct Hin.
Qed.

End GroupCount.

Lemma filter_and {A} (f g : A -> bool) (l : list A) :
  List.filter f (List.filter g l) = List.filter (fun x => g x && f x) l.
Proof.
  induction l as [| x l IH]; simpl; [reflexivity |].
  destruct (g x); simpl; [| exact IH].
  destruct (f x); rewrite IH; reflexivity.
Qed.

Lemma keys_eqb_single a b : keys_eqb [a] [b] = String.eqb a b.
Proof. simpl. apply andb_true_r. Qed.

(** *** The overview listings count the failing checks *)

(** The Check rows of that name that are not ignored. *)
Definition failing (name : string) (d : DB) : list Check :=
  List.filter (fun c => negb (check_ignore c)
                        && String.eqb (check_check c) name)
              (checks d).

(** Those of them that belong to a project of that slug. *)
Definition failing_in (name slug : string) (d : DB) : list Check :=
  List.filter (fun c => (String.eqb (check_check c) name
                         && negb (check_ignore c))
                        && String.eqb (project_slug (check_project c)) slug)
              (checks d).

(** X1: [show_checks] always answers, with one row per check name that
    has a Check row which is not ignored, and the row carries the number of
    such rows; a name without one is not listed. *)
Theorem show_checks_counts_failing :
  forall (request : HttpRequest) (w : World),
  exists rows,
    fst (show_checks request w)
    = Ok (Rendered "checks.html"
            [("checks", CValues ["check"] rows);
             ("title", CText "Failing checks")])
    /\ List.NoDup (List.map fst rows)
    /\ forall name n,
         In ([name], n) rows
         <-> n = List.length (failing name (db w)) /\ (1 <= n)%nat.
Proof.
  intros request w.
  exists (group_count (fun c => [check_check c])
            (List.filter (fun c => negb (check_ignore c)) (checks (db w)))).
  split; [reflexivity |]. split.
  - apply group_count_well_grouped.
  - intros name n. rewrite group_count_spec. unfold members, failing.
    rewrite filter_and.
    rewrite (filter_ext
               (fun c => negb (check_ignore c)
                         && keys_eqb [check_check c] [name])
               (fun c => negb (check_ignore c)
                         && String.eqb (check_check c) name));
      [reflexivity |].
    intros c. rewrite keys_eqb_single. reflexivity.
Qed.

Section CheckDetails.

Variable CHECKS : gmap string Checks.CheckClass.

(** X2: for a registered check, [show_check] lists one row per project
    slug that has a non-ignored Check row of that name, with the number of
    such rows, under the display name of the check as title. *)
Theorem show_check_counts_per_project :
  forall (request : HttpRequest) (name : string)
         (check : Checks.CheckClass) (w : World),
    CHECKS !! name = Some check ->
    exists rows,
      fst (show_check CHECKS request name w)
      = Ok (Rendered "check.html"
              [("checks", CValues ["project__slug"] rows);
               ("title", CText (Checks.name check));
               ("check", CCheck check)])
      /\ List.NoDup (List.map fst rows)
      /\ forall slug n,
           In ([slug], n) rows
           <-> n = List.length (failing_in name slug (db w))
               /\ (1 <= n)%nat.
Proof.
  intros request name check w Hname.
  exists (group_count (fun c => [project_slug (check_project c)])
            (List.filter (fun c => String.eqb (check_check c) name
                                   && negb (check_ignore c))
                         (checks (db w)))).
  split; [| split].
  - unfold show_check, bind, lookup_check. rewrite Hname. reflexivity.
  - apply group_count_well_grouped.
  - intros slug n. rewrite group_count_spec. unfold members, failing_in.
    rewrite filter_and.
    rewrite (filter_ext
               (fun c => (String.eqb (check_check c) name
                          && negb (check_ignore c))
                         && keys_eqb [project_slug (check_project c)] [slug])
               (fun c => (String.eqb (check_check c) name
                          && negb (check_ignore c))
                         && String.eqb (project_slug (check_project c))
                                       slug));
      [reflexivity |].
    intros c. rewrite keys_eqb_single. reflexivity.
Qed.

End CheckDetails.

(** On the fixture, the failing [same] checks of project [hello]. *)
Lemma show_check_counts_per_project_witness :
  exists rows,
    fst (show_check Fixture.CHECKS
           (Fixture.get Fixture.anonymous "/checks/same/" []) "same"
           (Fixture.world Fixture.tables))
    = Ok (Rendered "check.html"
            [("checks", CValues ["project__slug"] rows);
             ("title", CText "Unchanged translation");
             ("check", CCheck {| Checks.name := "Unchanged translation";
                                 Checks.target := true;
                                 Checks.source := false |})])
    /\ In (["hello"], 2%nat) rows.
Proof.
  destruct (show_check_counts_per_project Fixture.CHECKS
              (Fixture.get Fixture.anonymous "/checks/same/" []) "same"
              {| Checks.name := "Unchanged translation";
                 Checks.target := true; Checks.source := false |}
              (Fixture.world Fixture.tables) eq_refl)
    as [rows [Hrun [_ Hrows]]].
  exists rows. split; [exact Hrun |].
  apply Hrows. split; [reflexivity | repeat constructor].
Defined.

(** *** Views that only read *)

(** [only_reads m]: a run of [m] leaves the tables and the flash messages
    as they were and only adds statements to the log. *)
Definition only_reads {A} (m : M A) : Prop :=
  forall w,
    db (snd (m w)) = db w
    /\ messages (snd (m w)) = messages w
    /\ exists more, queries (snd (m w)) = queries w ++ more.

Lemma only_reads_ret {A} (a : A) : only_reads (ret a).
Proof.
  intros w. simpl. repeat split. exists []. rewrite app_nil_r. reflexivity.
Qed.

Lemma only_reads_raise {A} (e : exn) : only_reads (@raise A e).
Proof.
  intros w. simpl. repeat split. exists []. rewrite app_nil_r. reflexivity.
Qed.

Lemma only_reads_lift {A} (o : outcome A) : only_reads (lift o).
Proof.
  intros w. simpl. repeat split. exists []. rewrite app_nil_r. reflexivity.
Qed.

Lemma only_reads_query {A} (tables : list Model) (f : DB -> A) :
  only_reads (query tables f).
Proof. intros w. simpl. repeat split. exists [tables]. reflexivity. Qed.

Lemma only_reads_helper {A} (tables : list Model) (f : DB -> outcome A) :
  only_reads (helper tables f).
Proof. intros w. simpl. repeat split. exists [tables]. reflexivity. Qed.

Lemma only_reads_bind {A B} (m : M A) (k : A -> M B) :
  only_reads m -> (forall a, only_reads (k a)) -> only_reads (bind m k).
Proof.
  intros Hm Hk w. destruct (Hm w) as [Hdb [Hmsg [more Hlog]]].
  unfold bind. destruct (m w) as [[a | e] w1]; simpl in *.
  - destruct (Hk a w1) as [Hdb' [Hmsg' [more' Hlog']]].
    rewrite Hdb', Hmsg', Hlog', Hdb, Hmsg, Hlog.
    repeat split. exists (more ++ more'). rewrite app_assoc. reflexivity.
  - repeat split; try assumption. exists more. exact Hlog.
Qed.

Lemma only_reads_for_each {A S} (l : list A) (body : A -> S -> M S) :
  (forall x s, only_reads (body x s)) ->
  forall s, only_reads (for_each l body s).
Proof.
  intros Hbody. induction l as [| x l IH]; intros s; simpl.
  - apply only_reads_ret.
  - apply only_reads_bind; [apply Hbody | exact IH].
Qed.

Lemma only_reads_first_language subproject :
  only_reads (first_language subproject).
Proof.
  unfold first_language, first_row.
  apply only_reads_bind.
  - apply only_reads_bind; [apply only_reads_query |].
    intros [| obj found]; [apply only_reads_raise | apply only_reads_ret].
  - intros first. apply only_reads_query.
Qed.

Lemma only_reads_evaluate qs : only_reads (evaluate qs).
Proof.
  destruct qs; simpl; [apply only_reads_ret | apply only_reads_query].
Qed.

Lemma only_reads_lookup_check CHECKS name :
  only_reads (lookup_check CHECKS name).
Proof.
  unfold lookup_check.
  destruct (CHECKS !! name); [apply only_reads_ret | apply only_reads_raise].
Qed.

Lemma only_reads_get_object_or_404 {A} model object_name
    (table : DB -> list A) lookup :
  only_reads (get_object_or_404 model object_name table lookup).
Proof.
  unfold get_object_or_404. apply only_reads_bind;
    [apply only_reads_query |].
  intros [| obj [| obj' found]];
    [apply only_reads_raise | apply only_reads_ret | apply only_reads_raise].
Qed.

Ltac only_reads_steps :=
  repeat first
    [ apply only_reads_ret
    | apply only_reads_raise
    | apply only_reads_lift
    | apply only_reads_query
    | apply only_reads_helper
    | apply only_reads_evaluate
    | apply only_reads_lookup_check
    | apply only_reads_first_language
    | apply only_reads_get_object_or_404
    | apply only_reads_for_each; intros
    | apply only_reads_bind; [| intros]
    | match goal with
      | |- only_reads (if ?c then _ else _) => destruct c
      end ].

Section ReadingViews.

Variable CHECKS : gmap string Checks.CheckClass.
Variable get_project :
  HttpRequest -> string -> list Project -> outcome Project.
Variable get_subproject :
  HttpRequest -> string -> string -> list Project -> list SubProject
  -> outcome SubProject.
Variable reverse : string -> list (string * string) -> string.
Variable get_site_url : string -> string.
Variable weblate : Weblate.Module_.
Variable source_le : unicode -> unicode -> bool.

(** X3: whatever the request and whether they answer or raise, the four
    failing-check views write nothing: the tables and the flash messages are
    left as they were and the log of statements only grows. *)
Theorem check_views_only_read :
  forall (request : HttpRequest) (name project subproject : string),
    only_reads (show_checks request)
    /\ only_reads (show_check CHECKS request name)
    /\ only_reads (show_check_project CHECKS get_project request name
                                      project)
    /\ only_reads (show_check_subproject CHECKS get_subproject request name
                                         project subproject).
Proof.
  intros request name project subproject. split; [| split; [| split]].
  - unfold show_checks. only_reads_steps.
  - unfold show_check. only_reads_steps.
  - unfold show_check_project, project_of, project_target_units,
      project_source_units. only_reads_steps.
  - unfold show_check_subproject, subproject_of, subproject_target_units,
      subproject_source_checks. only_reads_steps.
Qed.

Lemma only_reads_ttkit export_format prj language words :
  only_reads (download_dictionary_ttkit reverse get_site_url weblate
                                        export_format prj language words).
Proof.
  unfold download_dictionary_ttkit.
  destruct (String.eqb export_format "po"); cbv beta iota;
    only_reads_steps.
Qed.

(** X4: [show_dictionaries] and [download_dictionary], in every format,
    write nothing either. *)
Theorem dictionary_reads_only_read :
  forall (request : HttpRequest) (project lang : string),
    only_reads (show_dictionaries get_project request project)
    /\ only_reads (download_dictionary get_project reverse get_site_url
                                       weblate source_le request project
                                       lang).
Proof.
  intros request project lang. split.
  - unfold show_dictionaries, project_of. only_reads_steps.
  - unfold download_dictionary, project_of, get_language.
    only_reads_steps; apply only_reads_ttkit.
Qed.

End ReadingViews.

(** *** The languages of a project's dictionaries *)

Section Dictionaries.

Variable get_project :
  HttpRequest -> string -> list Project -> outcome Project.

(** X5: for a project that resolves, [show_dictionaries] lists, in table
    order, exactly the languages into which some subproject of the project
    is translated. *)
Theorem show_dictionaries_lists_translated_languages :
  forall (request : HttpRequest) (project : string) (obj : Project)
         (w : World),
    get_project request project (projects (db w)) = Ok obj ->
    exists listed,
      fst (show_dictionaries get_project request project w)
      = Ok (Rendered "dictionaries.html"
              [("title", CText "Dictionaries");
               ("dicts", CLanguages listed);
               ("project", CProject obj)])
      /\ forall l,
           In l listed
           <-> In l (languages (db w))
               /\ exists t,
                    In t (translations (db w))
                    /\ project_id
                         (subproject_project (translation_subproject t))
                       = project_id obj
                    /\ language_id (translation_language t)
                       = language_id l.
Proof.
  intros request project obj w Hobj.
  eexists. split.
  - unfold show_dictionaries, bind, project_of, helper, query.
    rewrite Hobj. cbn [db fst]. reflexivity.
  - intros l. rewrite filter_In, existsb_exists.
    unfold project_languages.
    split; intros [Hl H]; (split; [exact Hl |]).
    + destruct H as [key [Hkey Heq]]. apply opt_eqb_eq in Heq. subst key.
      apply distinct_In, in_map_iff in Hkey.
      destruct Hkey as [t [Hid Ht]]. apply filter_In in Ht.
      destruct Ht as [Ht Hprj]. unfold same_project in Hprj.
      apply Z.eqb_eq in Hprj. inversion Hid.
      exists t. auto.
    + destruct H as [t [Ht [Hprj Hid]]].
      exists (Some (language_id l)). split; [| apply opt_eqb_eq; reflexivity].
      apply distinct_In, in_map_iff. exists t. split; [rewrite Hid; reflexivity |].
      apply filter_In. split; [exact Ht |].
      unfold same_project. apply Z.eqb_eq. exact Hprj.
Qed.

End Dictionaries.

(** On the fixture, [hello] has dictionaries for Czech and German. *)
Lemma show_dictionaries_lists_translated_languages_witness :
  exists listed,
    fst (show_dictionaries Fixture.get_project
           (Fixture.get Fixture.anonymous "/dictionaries/hello/" [])
           "hello" (Fixture.world Fixture.tables))
    = Ok (Rendered "dictionaries.html"
            [("title", CText "Dictionaries");
             ("dicts", CLanguages listed);
             ("project", CProject Fixture.hello)])
    /\ In Fixture.de listed.
Proof.
  destruct (show_dictionaries_lists_translated_languages Fixture.get_project
              (Fixture.get Fixture.anonymous "/dictionaries/hello/" [])
              "hello" Fixture.hello (Fixture.world Fixture.tables) eq_refl)
    as [listed [Hrun Hlisted]].
  exists listed. split; [exact Hrun |].
  apply Hlisted. split; [right; left; reflexivity |].
  exists Fixture.main_de. split; [right; left; reflexivity |].
  split; reflexivity.
Defined.

(** *** Editing and deleting a word *)

(** The lookup of [get_word]: the word of that key in that project and
    language. *)
Definition word_lookup (prj : Project) (language : Language) (n : Z)
    (word : Dictionary) : bool :=
  same_project (dictionary_project word) prj
  && same_language (dictionary_language word) language
  && (dictionary_id word =? n).

(** Every table but the dictionary is the same. *)
Definition other_tables_kept (d d' : DB) : Prop :=
  projects d' = projects d /\ languages d' = languages d
  /\ subprojects d' = subprojects d /\ translations d' = translations d
  /\ units d' = units d /\ checks d' = checks d.

Definition no_word : exn := Http404 "No Dictionary matches the given query.".

Lemma Forall2_map_graph {A B} (R : A -> B -> Prop) (f : A -> B)
    (l : list A) :
  (forall x, R x (f x)) -> Forall2 R l (List.map f l).
Proof.
  intros H. induction l as [| x l IH]; simpl; constructor; auto.
Qed.

Section Words.

Variable get_project :
  HttpRequest -> string -> list Project -> outcome Project.
Variable reverse : string -> list (string * string) -> string.
Variable login_redirect : HttpRequest -> string.
Variable WordForm : QueryDict -> option (unicode * unicode).

Lemma get_word_found prj language s n word w :
  int_of_str s = Some n ->
  List.filter (word_lookup prj language n) (dictionaries (db w)) = [word] ->
  get_word prj language (Some s) w = (Ok word, logged [MDictionary] w).
Proof.
  intros Hs Hword. unfold get_word. rewrite Hs.
  unfold get_object_or_404, bind, query. unfold word_lookup in Hword.
  rewrite Hword. reflexivity.
Qed.

(** The request names no word of this project and language: no key, or a
    key that no word of the project and language carries. *)
Definition names_no_word (prj : Project) (language : Language)
    (id : option string) (d : DB) : Prop :=
  id = None
  \/ exists s n,
       id = Some s /\ int_of_str s = Some n
       /\ List.filter (word_lookup prj language n) (dictionaries d) = [].

Lemma get_word_missing prj language id w :
  names_no_word prj language id (db w) ->
  get_word prj language id w = (Raise no_word, logged [MDictionary] w).
Proof.
  intros [-> | [s [n [-> [Hs Hnone]]]]]; unfold get_word.
  - unfold get_object_or_404, bind, query.
    rewrite filter_none by reflexivity. reflexivity.
  - rewrite Hs. unfold get_object_or_404, bind, query.
    unfold word_lookup in Hnone. rewrite Hnone. reflexivity.
Qed.

Lemma admitted_view perm view request project lang w :
  is_authenticated (user request) = true ->
  has_perm (user request) perm = true ->
  login_required login_redirect
    (permission_required login_redirect perm view) request project lang w
  = view request project lang w.
Proof.
  intros H1 H2.
  exact (f_equal (fun v => v w)
           (guarded_admits login_redirect perm view request project lang
                           H1 H2)).
Qed.

(** X6: a valid POST to [edit_dictionary] by a user who may change words,
    naming (in the query string) a word of the project and language,
    rewrites the source and target of that word and nothing else: every row
    under another key stays where it was, the other tables and the flash
    messages are kept, and the answer is a redirect to the dictionary. *)
Theorem edit_dictionary_rewrites_one_word :
  forall (request : HttpRequest) (project lang : string) (prj : Project)
         (language : Language) (s : string) (n : Z) (word : Dictionary)
         (source_ target_ : unicode) (w : World),
    is_authenticated (user request) = true ->
    has_perm (user request) "trans.change_dictionary" = true ->
    get_project request project (projects (db w)) = Ok prj ->
    language_found lang language (db w) ->
    qd_get (GET request) "id" = Some s ->
    int_of_str s = Some n ->
    List.filter (word_lookup prj language n) (dictionaries (db w)) = [word] ->
    method request = "POST" ->
    WordForm (POST request) = Some (source_, target_) ->
    exists w',
      edit_dictionary get_project reverse login_redirect WordForm
                      request project lang w
      = (Ok (HttpResponseRedirect
               (reverse "show_dictionary"
                        [("project", project_slug prj); ("lang", lang)])),
         w')
      /\ Forall2
           (fun old new =>
              if dictionary_id old =? n
              then new = {| dictionary_id := n;
                            dictionary_project := dictionary_project word;
                            dictionary_language := dictionary_language word;
                            dictionary_source := source_;
                            dictionary_target := target_ |}
              else new = old)
           (dictionaries (db w)) (dictionaries (db w'))
      /\ other_tables_kept (db w) (db w')
      /\ messages w' = messages w.
Proof.
  intros request project lang prj language s n word source_ target_ w
         Hauth Hperm Hprj Hlang Hid Hs Hword Hmethod Hform.
  assert (Hn : dictionary_id word = n).
  { assert (Hin : In word (List.filter (word_lookup prj language n)
                                       (dictionaries (db w)))).
    { rewrite Hword. left. reflexivity. }
    apply filter_In in Hin. destruct Hin as [_ Hin].
    unfold word_lookup in Hin. rewrite !andb_true_iff in Hin.
    apply Z.eqb_eq. tauto. }
  assert (Hexists : existsb (fun x => dictionary_id x =? n)
                            (dictionaries (db w)) = true).
  { apply existsb_exists. exists word. split.
    - assert (Hin : In word (List.filter (word_lookup prj language n)
                                         (dictionaries (db w)))).
      { rewrite Hword. left. reflexivity. }
      apply filter_In in Hin. tauto.
    - apply Z.eqb_eq. exact Hn. }
  eexists. split; [| split; [| split]].
  - unfold edit_dictionary. rewrite admitted_view by assumption.
    unfold edit_dictionary_view.
    rewrite (run_lookups get_project request project lang prj language w)
      by assumption.
    unfold bind at 1. rewrite Hid.
    rewrite (get_word_found prj language s n word (resolved w) Hs Hword).
    rewrite Hmethod, Hform. change (String.eqb "POST" "POST") with true.
    cbv iota. unfold bind, execute, ret, show_dictionary_url.
    rewrite (language_found_code lang language (db w) Hlang).
    reflexivity.
  - cbn [db dictionaries save resolved logged dictionary_id].
    rewrite Hn, Hexists. apply Forall2_map_graph.
    intros x. destruct (dictionary_id x =? n); reflexivity.
  - cbn [db save resolved logged]. repeat split.
  - reflexivity.
Qed.

Lemma only_reads_get_word prj language id :
  only_reads (get_word prj language id).
Proof.
  unfold get_word. destruct id as [s |].
  - destruct (int_of_str s); only_reads_steps.
  - only_reads_steps.
Qed.

Lemma only_reads_guarded perm view request project lang :
  only_reads (view request project lang) ->
  only_reads (login_required login_redirect
                (permission_required login_redirect perm view)
                request project lang).
Proof.
  intros Hview.
  unfold login_required, permission_required, user_passes_test.
  destruct (is_authenticated (user request)); [| apply only_reads_ret].
  destruct (has_perm (user request) perm);
    [exact Hview | apply only_reads_ret].
Qed.

(** X7: [edit_dictionary] writes only on a valid POST: for a request that
    is not a POST, or whose form does not validate, it leaves the tables and
    the flash messages as they were, whoever asks and whatever it answers. *)
Theorem edit_dictionary_writes_only_on_valid_post :
  forall (request : HttpRequest) (project lang : string),
    method request <> "POST" \/ WordForm (POST request) = None ->
    only_reads (edit_dictionary get_project reverse login_redirect WordForm
                                request project lang).
Proof.
  intros request project lang Hinvalid.
  unfold edit_dictionary. apply only_reads_guarded.
  unfold edit_dictionary_view, project_of, get_language.
  apply only_reads_bind; [apply only_reads_helper | intros prj].
  apply only_reads_bind;
    [apply only_reads_get_object_or_404 | intros language].
  apply only_reads_bind; [apply only_reads_get_word | intros word].
  destruct (String.eqb (method request) "POST") eqn:Hmethod;
    [| apply only_reads_ret].
  destruct (WordForm (POST request)) as [[source_ target_] |];
    [| apply only_reads_ret].
  exfalso. apply String.eqb_eq in Hmethod.
  destruct Hinvalid as [H | H]; [contradiction | discriminate].
Qed.

(** X8: a request that names no word of the project and language (no [id],
    or the key of no word there: an unknown key, or a word of another
    project or language) is answered with [Http404] by [edit_dictionary],
    which reads [id] from the query string, and by [delete_dictionary],
    which reads it from the POST data; no table is touched. *)
Theorem unknown_word_is_not_found :
  forall (request : HttpRequest) (project lang : string) (prj : Project)
         (language : Language) (w : World),
    is_authenticated (user request) = true ->
    get_project request project (projects (db w)) = Ok prj ->
    language_found lang language (db w) ->
    (has_perm (user request) "trans.change_dictionary" = true ->
     names_no_word prj language (qd_get (GET request) "id") (db w) ->
     edit_dictionary get_project reverse login_redirect WordForm
                     request project lang w
     = (Raise no_word, logged [MDictionary] (resolved w)))
    /\ (has_perm (user request) "trans.delete_dictionary" = true ->
        names_no_word prj language (qd_get (POST request) "id") (db w) ->
        delete_dictionary get_project reverse login_redirect
                          request project lang w
        = (Raise no_word, logged [MDictionary] (resolved w))).
Proof.
  intros request project lang prj language w Hauth Hprj Hlang. split.
  - intros Hperm Hnone. unfold edit_dictionary.
    rewrite admitted_view by assumption. unfold edit_dictionary_view.
    rewrite (run_lookups get_project request project lang prj language w)
      by assumption.
    unfold bind at 1.
    rewrite (get_word_missing prj language _ (resolved w) Hnone).
    reflexivity.
  - intros Hperm Hnone. unfold delete_dictionary.
    rewrite admitted_view by assumption. unfold delete_dictionary_view.
    rewrite (run_lookups get_project request project lang prj language w)
      by assumption.
    unfold bind at 1.
    rewrite (get_word_missing prj language _ (resolved w) Hnone).
    reflexivity.
Qed.

(** X9: a POST to [delete_dictionary] by a user who may delete words,
    naming a word of the project and language, removes the rows of that key
    and no other, keeps the other tables, and redirects to the dictionary;
    the same request sent again finds nothing and gets [Http404]. *)
Theorem delete_dictionary_removes_the_word :
  forall (request : HttpRequest) (project lang : string) (prj : Project)
         (language : Language) (s : string) (n : Z) (word : Dictionary)
         (w : World),
    is_authenticated (user request) = true ->
    has_perm (user request) "trans.delete_dictionary" = true ->
    get_project request project (projects (db w)) = Ok prj ->
    language_found lang language (db w) ->
    qd_get (POST request) "id" = Some s ->
    int_of_str s = Some n ->
    List.filter (word_lookup prj language n) (dictionaries (db w)) = [word] ->
    exists w',
      delete_dictionary get_project reverse login_redirect
                        request project lang w
      = (Ok (HttpResponseRedirect
               (reverse "show_dictionary"
                        [("project", project_slug prj); ("lang", lang)])),
         w')
      /\ dictionaries (db w')
         = List.filter (fun x => negb (dictionary_id x =? n))
                       (dictionaries (db w))
      /\ other_tables_kept (db w) (db w')
      /\ fst (delete_dictionary get_project reverse login_redirect
                                request project lang w')
         = Raise no_word.
Proof.
  intros request project lang prj language s n word w
         Hauth Hperm Hprj Hlang Hid Hs Hword.
  assert (Hn : dictionary_id word = n).
  { assert (Hin : In word (List.filter (word_lookup prj language n)
                                       (dictionaries (db w)))).
    { rewrite Hword. left. reflexivity. }
    apply filter_In in Hin. destruct Hin as [_ Hin].
    unfold word_lookup in Hin. rewrite !andb_true_iff in Hin.
    apply Z.eqb_eq. tauto. }
  eexists. split; [| split; [| split]].
  - unfold delete_dictionary. rewrite admitted_view by assumption.
    unfold delete_dictionary_view.
    rewrite (run_lookups get_project request project lang prj language w)
      by assumption.
    unfold bind at 1. rewrite Hid.
    rewrite (get_word_found prj language s n word (resolved w) Hs Hword).
    unfold bind, execute, ret, show_dictionary_url.
    rewrite (language_found_code lang language (db w) Hlang).
    reflexivity.
  - cbn [db dictionaries delete resolved logged]. rewrite Hn. reflexivity.
  - cbn [db delete resolved logged]. repeat split.
  - unfold delete_dictionary. rewrite admitted_view by assumption.
    unfold delete_dictionary_view.
    rewrite (run_lookups get_project request project lang prj language _)
      by assumption.
    unfold bind at 1. rewrite get_word_missing; [reflexivity |].
    right. exists s, n. split; [exact Hid |]. split; [exact Hs |].
    cbn [db dictionaries delete resolved logged]. rewrite Hn.
    rewrite filter_and. apply filter_none. intros x.
    unfold word_lookup. destruct (dictionary_id x =? n);
      [reflexivity | rewrite andb_false_r; reflexivity].
Qed.

End Words.

(** On the fixture, a manager renames [apple] of the Czech glossary. *)
Lemma edit_dictionary_rewrites_one_word_witness :
  exists w',
    edit_dictionary Fixture.get_project Fixture.reverse
      Fixture.login_redirect Fixture.WordForm
      {| method := "POST"; GET := [("id", "2")];
         POST := [("source", "pear"); ("target", "hruska")]; FILES := [];
         user := Fixture.manager;
         full_path := "/dictionaries/hello/cs/edit/?id=2" |}
      "hello" "cs" (Fixture.world Fixture.tables)
    = (Ok (HttpResponseRedirect "/dictionaries/hello/cs/"), w').
Proof.
  destruct (edit_dictionary_rewrites_one_word
              Fixture.get_project Fixture.reverse Fixture.login_redirect
              Fixture.WordForm
              {| method := "POST"; GET := [("id", "2")];
                 POST := [("source", "pear"); ("target", "hruska")];
                 FILES := []; user := Fixture.manager;
                 full_path := "/dictionaries/hello/cs/edit/?id=2" |}
              "hello" "cs" Fixture.hello Fixture.cs "2" 2
              (Fixture.word_ 2 Fixture.cs "apple" "jablko")
              (u "pear") (u "hruska") (Fixture.world Fixture.tables)
              eq_refl eq_refl eq_refl eq_refl eq_refl eq_refl eq_refl
              eq_refl eq_refl)
    as [w' [Hrun _]].
  exists w'. exact Hrun.
Defined.

(** On the fixture, opening the edit form changes no table. *)
Lemma edit_dictionary_writes_only_on_valid_post_witness :
  db (snd (edit_dictionary Fixture.get_project Fixture.reverse
             Fixture.login_redirect Fixture.WordForm
             (Fixture.get Fixture.manager "/dictionaries/hello/cs/edit/?id=2"
                          [("id", "2")])
             "hello" "cs" (Fixture.world Fixture.tables)))
  = Fixture.tables.
Proof.
  refine (proj1 (edit_dictionary_writes_only_on_valid_post
            Fixture.get_project Fixture.reverse Fixture.login_redirect
            Fixture.WordForm
            (Fixture.get Fixture.manager "/dictionaries/hello/cs/edit/?id=2"
                         [("id", "2")])
            "hello" "cs" _ (Fixture.world Fixture.tables))).
  left. discriminate.
Defined.

(** On the fixture, word 3 is German: the Czech dictionary does not have
    it. *)
Lemma unknown_word_is_not_found_witness :
  fst (edit_dictionary Fixture.get_project Fixture.reverse
         Fixture.login_redirect Fixture.WordForm
         (Fixture.get Fixture.manager "/dictionaries/hello/cs/edit/?id=3"
                      [("id", "3")])
         "hello" "cs" (Fixture.world Fixture.tables))
  = Raise no_word.
Proof.
  refine (f_equal fst
            (proj1 (unknown_word_is_not_found
               Fixture.get_project Fixture.reverse Fixture.login_redirect
               Fixture.WordForm
               (Fixture.get Fixture.manager
                  "/dictionaries/hello/cs/edit/?id=3" [("id", "3")])
               "hello" "cs" Fixture.hello Fixture.cs
               (Fixture.world Fixture.tables) eq_refl eq_refl eq_refl)
             eq_refl _)).
  right. exists "3", 3. repeat split.
Defined.

(** On the fixture, a manager deletes [apple] from the Czech glossary. *)
Lemma delete_dictionary_removes_the_word_witness :
  exists w',
    delete_dictionary Fixture.get_project Fixture.reverse
      Fixture.login_redirect
      (Fixture.post Fixture.manager "/dictionaries/hello/cs/delete/"
                    [("id", "2")] [])
      "hello" "cs" (Fixture.world Fixture.tables)
    = (Ok (HttpResponseRedirect "/dictionaries/hello/cs/"), w')
    /\ List.map dictionary_id (dictionaries (db w')) = [1; 3; 4].
Proof.
  destruct (delete_dictionary_removes_the_word
              Fixture.get_project Fixture.reverse Fixture.login_redirect
              (Fixture.post Fixture.manager "/dictionaries/hello/cs/delete/"
                            [("id", "2")] [])
              "hello" "cs" Fixture.hello Fixture.cs "2" 2
              (Fixture.word_ 2 Fixture.cs "apple" "jablko")
              (Fixture.world Fixture.tables)
              eq_refl eq_refl eq_refl eq_refl eq_refl eq_refl eq_refl)
    as [w' [Hrun [Hrows _]]].
  exists w'. split; [exact Hrun |]. rewrite Hrows. reflexivity.
Defined.

(** *** What an upload and an added word leave in the tables *)

Section Importing.

Variable get_project :
  HttpRequest -> string -> list Project -> outcome Project.
Variable reverse : string -> list (string * string) -> string.
Variable login_redirect : HttpRequest -> string.
Variable DictUploadForm :
  QueryDict -> list (string * UploadedFile) -> option string.
Variable upload :
  Project -> Language -> UploadedFile -> string -> DB -> outcome Z * DB.

(** X10: [upload_dictionary] calls the importer only for a POST whose form
    validates and carries the file: then the tables are what the importer
    leaves, whether it returns or raises; in every other case the tables
    stay as they were. *)
Theorem upload_dictionary_imports_only_valid_posts :
  forall (request : HttpRequest) (project lang : string) (prj : Project)
         (language : Language) (w : World),
    is_authenticated (user request) = true ->
    has_perm (user request) "trans.upload_dictionary" = true ->
    get_project request project (projects (db w)) = Ok prj ->
    language_found lang language (db w) ->
    let w' :=
      snd (upload_dictionary get_project reverse login_redirect
                             DictUploadForm upload request project lang w) in
    (method request <> "POST"
     \/ DictUploadForm (POST request) (FILES request) = None
     \/ files_get (FILES request) "file" = None ->
     db w' = db w)
    /\ (forall method_ fileobj,
           method request = "POST" ->
           DictUploadForm (POST request) (FILES request) = Some method_ ->
           files_get (FILES request) "file" = Some fileobj ->
           db w' = snd (upload prj language fileobj method_ (db w))).
Proof.
  intros request project lang prj language w Hauth Hperm Hprj Hlang w'.
  assert (Hw' : w' = snd (upload_dictionary_view get_project reverse
                            DictUploadForm upload request project lang w)).
  { unfold w', upload_dictionary.
    rewrite (admitted_view login_redirect) by assumption. reflexivity. }
  rewrite Hw'. clear w' Hw'. unfold upload_dictionary_view.
  rewrite (run_lookups get_project request project lang prj language w)
    by assumption.
  unfold bind, try_except, run_upload, add_message, ret.
  split.
  - intros Hinvalid.
    destruct (String.eqb (method request) "POST") eqn:Hmethod;
      [| reflexivity].
    destruct (DictUploadForm (POST request) (FILES request)) as [method_ |];
      [| reflexivity].
    destruct (files_get (FILES request) "file") as [fileobj |];
      [| reflexivity].
    apply String.eqb_eq in Hmethod.
    destruct Hinvalid as [H | [H | H]]; [contradiction | discriminate ..].
  - intros method_ fileobj Hmethod Hform Hfile.
    rewrite Hmethod, Hform, Hfile.
    change (String.eqb "POST" "POST") with true. cbv iota.
    cbn [db resolved logged].
    destruct (upload prj language fileobj method_ (db w))
      as [[count | e] d']; cbn [snd fst db].
    + destruct (count =? 0); reflexivity.
    + reflexivity.
Qed.

End Importing.

(** On the fixture, a GET to the upload address imports nothing. *)
Lemma upload_dictionary_imports_only_valid_posts_witness :
  db (snd (upload_dictionary Fixture.get_project Fixture.reverse
             Fixture.login_redirect Fixture.DictUploadForm Fixture.upload
             (Fixture.get Fixture.translator
                          "/dictionaries/hello/cs/upload/" [])
             "hello" "cs" (Fixture.world Fixture.tables)))
  = Fixture.tables.
Proof.
  refine (proj1 (upload_dictionary_imports_only_valid_posts
            Fixture.get_project Fixture.reverse Fixture.login_redirect
            Fixture.DictUploadForm Fixture.upload
            (Fixture.get Fixture.translator
                         "/dictionaries/hello/cs/upload/" [])
            "hello" "cs" Fixture.hello Fixture.cs
            (Fixture.world Fixture.tables)
            eq_refl eq_refl eq_refl eq_refl) _).
  left. discriminate.
Defined.

Lemma below_fresh_key (l : list Dictionary) x :
  In x l ->
  dictionary_id x < 1 + fold_right Z.max 0 (List.map dictionary_id l).
Proof.
  induction l as [| y l IH]; simpl; [tauto |].
  intros [-> | Hin]; [lia |]. specialize (IH Hin). lia.
Qed.

Section Adding.

Variable get_project :
  HttpRequest -> string -> list Project -> outcome Project.
Variable WordForm : QueryDict -> option (unicode * unicode).
Variable LetterForm : QueryDict -> option unicode.
Variable source_le : unicode -> unicode -> bool.
Variable istartswith : unicode -> unicode -> bool.

(** X11: a POST to [show_dictionary] by a user who may add words is
    answered with a redirect to the address it came to.  With a valid form
    it appends exactly one word, under a key above every key in use, with
    the project, the language and the two terms of the form, and that word
    is from then on among the words listed and exported for the project and
    language; with an invalid form the tables stay as they were. *)
Theorem show_dictionary_adds_one_word :
  forall (request : HttpRequest) (project lang : string) (prj : Project)
         (language : Language) (w : World),
    get_project request project (projects (db w)) = Ok prj ->
    language_found lang language (db w) ->
    may_add request = true ->
    exists w',
      show_dictionary get_project WordForm LetterForm source_le istartswith
                      request project lang w
      = (Ok (HttpResponseRedirect (full_path request)), w')
      /\ match WordForm (POST request) with
         | None => db w' = db w
         | Some (source_, target_) =>
             exists word,
               dictionaries (db w') = dictionaries (db w) ++ [word]
               /\ other_tables_kept (db w) (db w')
               /\ (forall x, In x (dictionaries (db w)) ->
                             dictionary_id x < dictionary_id word)
               /\ dictionary_project word = prj
               /\ dictionary_language word = language
               /\ dictionary_source word = source_
               /\ dictionary_target word = target_
               /\ Permutation (words_of source_le prj language (db w'))
                              (word :: words_of source_le prj language (db w))
         end.
Proof.
  intros request project lang prj language w Hprj Hlang Hadd.
  unfold show_dictionary.
  rewrite (run_lookups get_project request project lang prj language w)
    by assumption.
  unfold may_add in Hadd. rewrite Hadd. unfold bind, execute, ret.
  destruct (WordForm (POST request)) as [[source_ target_] |].
  - eexists. split; [reflexivity |].
    cbn [db create resolved logged dictionaries].
    eexists. split; [reflexivity |]. split; [repeat split |].
    split; [intros x Hx; cbn [dictionary_id]; apply below_fresh_key, Hx |].
    repeat (split; [reflexivity |]).
    unfold words_of, dictionary_words. cbn [dictionaries create].
    rewrite List.filter_app. cbn [List.filter].
    unfold in_dictionary at 2, same_project, same_language.
    cbn [dictionary_project dictionary_language].
    rewrite !Z.eqb_refl. cbn [andb].
    rewrite order_by_source_perm.
    rewrite <- Permutation_cons_append. constructor.
    symmetry. apply order_by_source_perm.
  - eexists. split; reflexivity.
Qed.

End Adding.

(** On the fixture, a translator adds [pear] to the Czech glossary. *)
Lemma show_dictionary_adds_one_word_witness :
  exists w',
    show_dictionary Fixture.get_project Fixture.WordForm Fixture.LetterForm
      Fixture.source_le Fixture.istartswith
      (Fixture.post Fixture.translator "/dictionaries/hello/cs/"
                    [("source", "pear"); ("target", "hruska")] [])
      "hello" "cs" (Fixture.world Fixture.tables)
    = (Ok (HttpResponseRedirect "/dictionaries/hello/cs/"), w')
    /\ List.map dictionary_id (dictionaries (db w')) = [1; 2; 3; 4; 5].
Proof.
  destruct (show_dictionary_adds_one_word
              Fixture.get_project Fixture.WordForm Fixture.LetterForm
              Fixture.source_le Fixture.istartswith
              (Fixture.post Fixture.translator "/dictionaries/hello/cs/"
                            [("source", "pear"); ("target", "hruska")] [])
              "hello" "cs" Fixture.hello Fixture.cs
              (Fixture.world Fixture.tables) eq_refl eq_refl eq_refl)
    as [w' [Hrun _]].
  exists w'. split; [exact Hrun |].
  inversion Hrun. reflexivity.
Defined.

(** *** What a page of the listing holds *)






Lemma in_slice {A} (n m : nat) (l : list A) x :
  In x (firstn n (skipn m l)) -> In x l.
Proof.
  intros H. rewrite <- (firstn_skipn m l). apply in_or_app. right.
  rewrite <- (firstn_skipn n (skipn m l)). apply in_or_app. left. exact H.
Qed.

Section PageContents.

Variable get_project :
  HttpRequest -> string -> list Project -> outcome Project.
Variable WordForm : QueryDict -> option (unicode * unicode).
Variable LetterForm : QueryDict -> option unicode.
Variable source_le : unicode -> unicode -> bool.
Variable istartswith : unicode -> unicode -> bool.

Lemma letter_words_members request prj language d word :
  In word (fst (letter_words LetterForm source_le istartswith request prj
                             language) d) ->
  In word (dictionaries d)
  /\ in_dictionary prj language word = true
  /\ forall c l,
       LetterForm (GET request) = Some (c :: l) ->
       istartswith (dictionary_source word) (c :: l) = true.
Proof.
  unfold letter_words.
  destruct (LetterForm (GET request)) as [[| c l] |]; cbn [fst];
    unfold words_of, dictionary_words; intros Hin;
    apply (Permutation_in _ (order_by_source_perm source_le _)) in Hin;
    apply filter_In in Hin; destruct Hin as [Hin Hp].
  - repeat split; try assumption. intros c l H. discriminate.
  - apply andb_true_iff in Hp. destruct Hp as [Hp Hs].
    repeat split; try assumption.
    intros c' l' H. inversion H. subst. exact Hs.
  - repeat split; try assumption. intros c l H. discriminate.
Qed.

(** X12: every word on the page [show_dictionary] renders is a word of
    the dictionary table that belongs to the project and the language of the
    address and, when the letter form names a letter, starts with it; with a
    positive page size the page holds at most that many words. *)
Theorem show_dictionary_page_holds_own_words :
  forall (request : HttpRequest) (project lang : string) (prj : Project)
         (language : Language) (w : World) (pg : Page),
    get_project request project (projects (db w)) = Ok prj ->
    language_found lang language (db w) ->
    may_add request = false ->
    listed_page
      (fst (show_dictionary get_project WordForm LetterForm source_le
                            istartswith request project lang w))
    = Some pg ->
    (forall word,
        In word (object_list pg) ->
        In word (dictionaries (db w))
        /\ in_dictionary prj language word = true
        /\ forall c l,
             LetterForm (GET request) = Some (c :: l) ->
             istartswith (dictionary_source word) (c :: l) = true)
    /\ (forall size,
           Paginator.int (get_arg (GET request) "limit" 25) = Ok size ->
           0 < size ->
           (List.length (object_list pg) <= Z.to_nat size)%nat).
Proof.
  intros request project lang prj language w pg Hprj Hlang Hadd Hpg.
  pose proof (show_dictionary_run get_project WordForm LetterForm source_le
                istartswith request project lang prj language w
                Hprj Hlang Hadd) as Hrun.
  destruct (delivered LetterForm source_le istartswith request prj language
                      (db w)) as [pg' | e] eqn:Hdelivered;
    [| rewrite Hrun in Hpg; discriminate].
  assert (pg' = pg) by congruence. subst pg'. clear Hrun Hpg.
  unfold delivered in Hdelivered.
  destruct (Paginator.make
              (fst (letter_words LetterForm source_le istartswith request
                                 prj language))
              (get_arg (GET request) "limit" 25))
    as [p | e] eqn:Hmake; [| discriminate].
  split.
  - intros word Hword.
    destruct (deliver_page_is_slice p (db w) _ pg Hdelivered)
      as [n [m Hslice]].
    rewrite Hslice, (make_objects _ _ _ Hmake) in Hword.
    apply in_slice in Hword.
    apply letter_words_members. exact Hword.
  - intros size Hsize Hpos. unfold Paginator.make in Hmake.
    rewrite Hsize in Hmake. inversion Hmake. subst p.
    change {| Paginator.objects :=
                fst (letter_words LetterForm source_le istartswith request
                                  prj language);
              Paginator.per_page := size; Paginator.orphans := 0;
              Paginator.allow_empty_first_page := true |}
      with (paginator
              (fst (letter_words LetterForm source_le istartswith request
                                 prj language)) size) in Hdelivered.
    rewrite (deliver_page_settled _ size (db w) Hpos) in Hdelivered.
    inversion Hdelivered. unfold page_number. cbn [object_list].
    rewrite List.length_firstn. lia.
Qed.


End PageContents.

(** On the fixture, the words of the Czech glossary that start with [a]. *)
Lemma show_dictionary_page_holds_own_words_witness :
  In (Fixture.word_ 2 Fixture.cs "apple" "jablko")
     (dictionaries Fixture.tables)
  /\ Fixture.istartswith (u "apple") (u "A") = true.
Proof.
  destruct (proj1 (show_dictionary_page_holds_own_words
              Fixture.get_project Fixture.WordForm Fixture.LetterForm
              Fixture.source_le Fixture.istartswith
              (Fixture.get Fixture.anonymous "/dictionaries/hello/cs/"
                           [("letter", "A")])
              "hello" "cs" Fixture.hello Fixture.cs
              (Fixture.world Fixture.tables)
              {| number := 1;
                 object_list := [Fixture.word_ 2 Fixture.cs "apple"
                                               "jablko"] |}
              eq_refl eq_refl eq_refl eq_refl)
            (Fixture.word_ 2 Fixture.cs "apple" "jablko")
            (or_introl eq_refl))
    as [Hin [_ Hletter]].
  split; [exact Hin |].
  exact (Hletter _ _ eq_refl).
Defined.


(** *** The [anychecks] flag of a subproject listing *)

Definition listed_flag (r : outcome HttpResponse) : option bool :=
  match r with
  | Ok (Rendered _ context) =>
      match context_get context "anychecks" with
      | Some (CBool b) => Some b
      | _ => None
      end
  | _ => None
  end.

Lemma filter_nonempty {A} (f : A -> bool) (l : list A) :
  List.filter f l <> [] <-> exists x, In x l /\ f x = true.
Proof.
  split.
  - destruct (List.filter f l) as [| x r] eqn:Hf; [congruence |].
    intros _. exists x. apply filter_In. rewrite Hf. left. reflexivity.
  - intros [x Hx] Hnil. apply filter_In in Hx. rewrite Hnil in Hx.
    destruct Hx.
Qed.

Section AnyChecks.

Variable CHECKS : gmap string Checks.CheckClass.
Variable get_subproject :
  HttpRequest -> string -> string -> list Project -> list SubProject
  -> outcome SubProject.

Lemma show_check_subproject_flag request name project subproject check
    subprj counts w :
  CHECKS !! name = Some check ->
  get_subproject request project subproject (projects (db w))
                 (subprojects (db w)) = Ok subprj ->
  subproject_sources name subprj check (db w) = Ok counts ->
  listed_flag
    (fst (show_check_subproject CHECKS get_subproject request name project
                                subproject w))
  = Some (Nat.ltb 0
            (List.length
               (group_count subproject_key
                  (List.filter
                     (where_of (subproject_selection name subprj check
                                                     (db w)) (db w))
                     (units (db w))))
             + List.length counts)).
Proof.
  intros Hname Hsub Hcounts. set (d := db w) in *.
  assert (Hrun :
    reads_to d
      (show_check_subproject CHECKS get_subproject request name project
                             subproject)
      (Ok (render_to_response "check_subproject.html"
             [("checks",
               CValues (fields_of (subproject_selection name subprj check d))
                 (group_count subproject_key
                    (List.filter
                       (where_of (subproject_selection name subprj check d)
                                 d)
                       (units d))));
              ("source_checks", CCounts counts);
              ("anychecks",
               CBool (Nat.ltb 0
                        (List.length
                           (group_count subproject_key
                              (List.filter
                                 (where_of
                                    (subproject_selection name subprj check
                                                          d) d)
                                 (units d)))
                         + List.length counts)));
              ("title",
               CText (SubProject_unicode subprj +:+ "/"
                      +:+ Checks.name check));
              ("check", CCheck check);
              ("subproject", CSubProject subprj)]))).
  { assert (Htarget :
              reads_to d
                (if Checks.target check
                 then subproject_target_units name subprj EmptyQuerySet
                 else ret EmptyQuerySet)
                (Ok (subproject_selection name subprj check d))).
    { unfold subproject_selection. destruct (Checks.target check);
        [apply reads_subproject_target | apply reads_ret]. }
    assert (Hsource :
              reads_to d
                (if Checks.source check
                 then subproject_source_checks name subprj else ret [])
                (Ok counts)).
    { rewrite <- Hcounts. unfold subproject_sources.
      destruct (Checks.source check);
        [apply reads_subproject_source | apply reads_ret]. }
    unfold show_check_subproject.
    eapply reads_bind.
    { unfold subproject_of.
      pose proof (reads_helper d [MProject; MSubProject]
        (fun d => get_subproject request project subproject
                                 (projects d) (subprojects d))) as Hh.
      simpl in Hh. rewrite Hsub in Hh. exact Hh. }
    eapply reads_bind; [apply reads_lookup_check; exact Hname |].
    eapply reads_bind; [exact Htarget |].
    eapply reads_bind; [exact Hsource |].
    eapply reads_bind.
    { apply (reads_evaluate d subproject_key).
      unfold subproject_selection. destruct (Checks.target check);
        [apply keyed_subproject_target | exact I]. }
    apply reads_ret. }
  rewrite (reads_to_fst _ w _ Hrun). reflexivity.
Qed.

(** X14: when [show_check_subproject] answers, its [anychecks] flag is set
    exactly when the listing has something to show: a unit selected by the
    target scope, or a unit counted by the source scope. *)
Theorem anychecks_iff_a_unit_fails :
  forall (request : HttpRequest) (name project subproject : string)
         (check : Checks.CheckClass) (subprj : SubProject) (w : World),
    CHECKS !! name = Some check ->
    get_subproject request project subproject (projects (db w))
                   (subprojects (db w)) = Ok subprj ->
    (Checks.source check = true -> translation_set subprj (db w) <> []) ->
    exists flag,
      listed_flag
        (fst (show_check_subproject CHECKS get_subproject request name
                                    project subproject w)) = Some flag
      /\ (flag = true
          <-> (Checks.target check = true
               /\ exists x,
                    In x (units (db w))
                    /\ target_selected name (subproject_project subprj)
                                       (db w) x
                    /\ subproject_id (unit_subproject x)
                       = subproject_id subprj)
              \/ (Checks.source check = true
                  /\ exists x,
                       In x (units (db w))
                       /\ source_selected name subprj (db w) x)).
Proof.
  intros request name project subproject check subprj w Hname Hsub Hsome.
  set (d := db w) in *.
  assert (Hsources :
            exists counts,
              subproject_sources name subprj check d = Ok counts
              /\ (counts <> []
                  <-> Checks.source check = true
                      /\ exists x, In x (units d)
                                   /\ source_selected name subprj d x)).
  { unfold subproject_sources.
    destruct (Checks.source check) eqn:Hsource.
    - destruct (head_language subprj d) as [l |] eqn:Hhead.
      + eexists. split; [reflexivity |].
        assert (Hwhere : forall x,
                   subproject_source_where name subprj l d x = true
                   <-> source_selected name subprj d x).
        { intros x. rewrite <- subproject_source_where_spec.
          revert Hhead. unfold head_language.
          destruct (translation_set subprj d) as [| t rest];
            [discriminate |].
          intros Heq. inversion Heq. subst l. split.
          - intros H. exists t. split; [reflexivity | exact H].
          - intros [t' [Heq' H]]. inversion Heq' as [Hl]. rewrite Hl.
            exact H. }
        unfold source_count.
        destruct (List.filter (subproject_source_where name subprj l d)
                              (units d)) as [| x r] eqn:Hf; cbn.
        * split; [congruence |]. intros [_ [x [Hx Hsel]]].
          apply Hwhere in Hsel.
          assert (Hin : In x (List.filter
                                (subproject_source_where name subprj l d)
                                (units d))).
          { apply filter_In. split; assumption. }
          rewrite Hf in Hin. destruct Hin.
        * split; [| congruence]. intros _. split; [reflexivity |].
          exists x.
          assert (Hin : In x (List.filter
                                (subproject_source_where name subprj l d)
                                (units d))).
          { rewrite Hf. left. reflexivity. }
          apply filter_In in Hin. destruct Hin as [Hin Hsel].
          split; [exact Hin | apply Hwhere; exact Hsel].
      + exfalso. apply (Hsome eq_refl). apply head_language_none.
        exact Hhead.
    - exists []. split; [reflexivity |].
      split; [congruence | intros [H _]; discriminate]. }
  destruct Hsources as [counts [Hcounts Hcounted]].
  eexists. split.
  - apply (show_check_subproject_flag request name project subproject check
             subprj counts w Hname Hsub Hcounts).
  - fold d.
    set (rows := group_count subproject_key
                   (List.filter
                      (where_of (subproject_selection name subprj check d) d)
                      (units d))).
    assert (Hrows :
              rows <> []
              <-> Checks.target check = true
                  /\ exists x,
                       In x (units d)
                       /\ target_selected name (subproject_project subprj)
                                          d x
                       /\ subproject_id (unit_subproject x)
                          = subproject_id subprj).
    { unfold rows. rewrite group_count_empty, filter_nonempty.
      unfold subproject_selection. destruct (Checks.target check).
      - split.
        + intros [x [Hx Hsel]]. apply subproject_target_where in Hsel.
          split; [reflexivity |]. exists x. tauto.
        + intros [_ [x [Hx Hsel]]]. exists x. split; [exact Hx |].
          apply subproject_target_where. exact Hsel.
      - split; [intros [x [_ H]]; discriminate
               | intros [H _]; discriminate]. }
    rewrite <- Hrows, <- Hcounted. rewrite Nat.ltb_lt.
    destruct rows, counts; cbn [List.length]; split; intros H;
      try lia; try (left; congruence); try (right; congruence);
      destruct H; congruence.
Qed.

End AnyChecks.

(** On the fixture, the source check of [main]: [docs] aside, it has a
    translation, and the flag is set. *)
Lemma anychecks_iff_a_unit_fails_witness :
  listed_flag
    (fst (show_check_subproject Fixture.CHECKS Fixture.get_subproject
            (Fixture.get Fixture.anonymous
                         "/checks/optional_plural/hello/main/" [])
            "optional_plural" "hello" "main"
            (Fixture.world Fixture.tables)))
  = Some true.
Proof.
  assert (Hsome : Checks.source {| Checks.name := "Optional plural";
                                   Checks.target := false;
                                   Checks.source := true |} = true ->
                  translation_set Fixture.main
                                  (db (Fixture.world Fixture.tables)) <> []).
  { intros _ H. discriminate H. }
  destruct (anychecks_iff_a_unit_fails
              Fixture.CHECKS Fixture.get_subproject
              (Fixture.get Fixture.anonymous
                           "/checks/optional_plural/hello/main/" [])
              "optional_plural" "hello" "main"
              {| Checks.name := "Optional plural"; Checks.target := false;
                 Checks.source := true |}
              Fixture.main (Fixture.world Fixture.tables)
              eq_refl eq_refl Hsome)
    as [flag [Hflag _]].
  reflexivity.
Defined.

(** *** [weblate/__init__.py]: version and documentation address *)

(** The third field of a [git describe] text: the number of commits since
    the tag, when the text has one. *)
Definition commits_since_tag (text : string) : option Z :=
  if Nat.leb (List.length (Weblate.split "-" text)) 2 then None
  else int_of_str (nth 2 (Weblate.split "-" text) "").

(** X15: when the module initialises, the version is [1.6] or [1.6-dev],
    and it is [1.6-dev] exactly for a git checkout whose [git describe] text
    has a third dash-separated field that reads as a number of 20 or more;
    [RUNNING_GIT] and [GIT_RELEASE] then say so. *)
Theorem version_is_dev_far_from_a_tag :
  forall (c : Weblate.Checkout) (m : Weblate.Module_),
    Weblate.init c = Some m ->
    (Weblate.VERSION m = "1.6" \/ Weblate.VERSION m = "1.6-dev")
    /\ (Weblate.VERSION m = "1.6-dev"
        <-> Weblate.dot_git_exists c = true
            /\ exists text n,
                 Weblate.git_describe c = Weblate.Described text
                 /\ commits_since_tag text = Some n /\ 20 <= n)
    /\ (Weblate.VERSION m = "1.6-dev"
        <-> Weblate.RUNNING_GIT m = true /\ Weblate.GIT_RELEASE m = false)
    /\ (Weblate.GIT_RELEASE m = true -> Weblate.RUNNING_GIT m = true).
Proof.
  intros c m. unfold Weblate.init, Weblate.is_running_git, commits_since_tag.
  destruct (Weblate.dot_git_exists c).
  - destruct (Weblate.git_describe c) as [| | | text].
    + discriminate.
    + intros H. inversion H. cbn. repeat split; auto; try discriminate.
      * intros [_ [text [n [Hd _]]]]. discriminate.
      * intros [Hrun _]; discriminate.
    + discriminate.
    + destruct (Nat.leb (List.length (Weblate.split "-" text)) 2) eqn:Hlen.
      * intros H. inversion H. cbn. repeat split; auto; try discriminate.
        -- intros [_ [text' [n [Hd [Hn _]]]]]. inversion Hd. subst text'.
           rewrite Hlen in Hn. discriminate.
        -- intros [_ Hrel]; discriminate.
      * destruct (int_of_str (nth 2 (Weblate.split "-" text) ""))
          as [n |] eqn:Hint; cbn [option_map]; [| discriminate].
        destruct (n <? 20) eqn:Hn; intros H; inversion H; cbn.
        -- apply Z.ltb_lt in Hn. repeat split; auto; try discriminate.
           ++ intros [_ [text' [n' [Hd [Hn' Hge]]]]]. inversion Hd.
              subst text'. rewrite Hlen, Hint in Hn'. inversion Hn'. lia.
           ++ intros [_ Hrel]; discriminate.
        -- apply Z.ltb_ge in Hn. repeat split; auto; try discriminate.
           exists text, n. rewrite Hlen. auto.
  - intros H. inversion H. cbn. repeat split; auto; try discriminate.
    + intros [Hrun _]; discriminate.
    + intros [Hrun _]; discriminate.
Qed.

(** On a checkout 42 commits after the tag. *)
Lemma version_is_dev_far_from_a_tag_witness :
  exists m,
    Weblate.init {| Weblate.dot_git_exists := true;
                    Weblate.git_describe :=
                      Weblate.Described "weblate-1.5-42-gabc" |} = Some m
    /\ Weblate.VERSION m = "1.6-dev".
Proof.
  eexists. split; [reflexivity |].
  apply (proj1 (proj2 (version_is_dev_far_from_a_tag
           {| Weblate.dot_git_exists := true;
              Weblate.git_describe :=
                Weblate.Described "weblate-1.5-42-gabc" |}
           _ eq_refl))).
  split; [reflexivity |].
  exists "weblate-1.5-42-gabc", 42. repeat split. discriminate.
Defined.

(** X16: importing the module fails exactly in a git checkout where
    the [git] package cannot be imported (the [except] clause then names
    [git.exc], which is unbound), or the git calls raise an exception other
    than [ImportError] and [GitCommandError] (the clause does not name it),
    or [git describe] answers a text whose third field is not a number (the
    [ValueError] of [int] is not caught); a failing [git describe] command
    is caught and leaves version [1.6]. *)
Theorem init_fails_on_unreadable_describe :
  forall c : Weblate.Checkout,
    (Weblate.init c = None
     <-> Weblate.dot_git_exists c = true
         /\ (Weblate.git_describe c = Weblate.ImportError
             \/ Weblate.git_describe c = Weblate.OtherException
             \/ exists text,
                  Weblate.git_describe c = Weblate.Described text
                  /\ (2 < List.length (Weblate.split "-" text))%nat
                  /\ int_of_str (nth 2 (Weblate.split "-" text) "") = None))
    /\ (Weblate.git_describe c = Weblate.GitCommandError ->
        Weblate.init c
        = Some {| Weblate.VERSION := "1.6"; Weblate.RUNNING_GIT := false;
                  Weblate.GIT_RELEASE := false |}).
Proof.
  intros c. unfold Weblate.init, Weblate.is_running_git. split.
  - destruct (Weblate.dot_git_exists c).
    + destruct (Weblate.git_describe c) as [| | | text].
      * split; auto.
      * split; [discriminate |].
        intros [_ [H | [H | [text [H _]]]]]; discriminate.
      * split; auto.
      * destruct (Nat.leb (List.length (Weblate.split "-" text)) 2)
          eqn:Hlen.
        -- split; [discriminate |].
           intros [_ [H | [H | [text' [H [Hlen' _]]]]]];
             [discriminate | discriminate |].
           inversion H. subst text'. apply Nat.leb_le in Hlen. lia.
        -- apply Nat.leb_gt in Hlen.
           destruct (int_of_str (nth 2 (Weblate.split "-" text) ""))
             as [n |] eqn:Hint; cbn [option_map].
           ++ split.
              ** destruct (n <? 20); discriminate.
              ** intros [_ [H | [H | [text' [H [_ Hnone]]]]]];
                   [discriminate | discriminate |].
                 inversion H. subst text'. congruence.
           ++ split; [| reflexivity]. intros _. split; [reflexivity |].
              right. right. exists text. auto.
    + split; [discriminate | intros [H _]; discriminate].
  - intros H. rewrite H. destruct (Weblate.dot_git_exists c); reflexivity.
Qed.

(** X17: for an initialised module, [get_doc_url] points below
    [http://weblate.readthedocs.org/en/] at [latest] for the development
    version and at [weblate-1.6] otherwise, at the page with [.html], and
    adds [#] and the anchor only when an anchor is given: it never names a
    [-dev] version. *)
Theorem doc_url_never_names_dev :
  forall (c : Weblate.Checkout) (m : Weblate.Module_) (page anchor : string),
    Weblate.init c = Some m ->
    let docs :=
      "http://weblate.readthedocs.org/en/"
      +:+ (if String.eqb (Weblate.VERSION m) "1.6-dev"
           then "latest" else "weblate-1.6")
      +:+ "/" +:+ page +:+ ".html" in
    (anchor = "" -> Weblate.get_doc_url m page anchor = docs)
    /\ (anchor <> "" ->
        Weblate.get_doc_url m page anchor = docs +:+ "#" +:+ anchor).
Proof.
  intros c m page anchor Hinit docs.
  assert (Hurl : Weblate.get_doc_url m page anchor
                 = if String.eqb anchor "" then docs
                   else docs +:+ "#" +:+ anchor).
  { unfold Weblate.get_doc_url, docs. revert Hinit.
    unfold Weblate.init, Weblate.is_running_git.
    destruct (Weblate.dot_git_exists c).
    - destruct (Weblate.git_describe c) as [| | | text];
        [discriminate | | discriminate |].
      + intros H. inversion H. reflexivity.
      + destruct (if Nat.leb (List.length (Weblate.split "-" text)) 2
                  then Some true
                  else option_map (fun n => n <? 20)
                         (int_of_str (nth 2 (Weblate.split "-" text) "")))
          as [[|] |]; intros H; inversion H; reflexivity.
    - intros H. inversion H. reflexivity. }
  rewrite Hurl. split.
  - intros ->. reflexivity.
  - intros Hanchor. destruct (String.eqb anchor "") eqn:Heq; [| reflexivity].
    apply String.eqb_eq in Heq. contradiction.
Qed.

(** On a development checkout, the address of the FAQ. *)
Lemma doc_url_never_names_dev_witness :
  Weblate.get_doc_url
    {| Weblate.VERSION := "1.6-dev"; Weblate.RUNNING_GIT := true;
       Weblate.GIT_RELEASE := false |} "faq" "git"
  = "http://weblate.readthedocs.org/en/latest/faq.html#git".
Proof.
  refine (proj2 (doc_url_never_names_dev
            {| Weblate.dot_git_exists := true;
               Weblate.git_describe :=
                 Weblate.Described "weblate-1.5-42-gabc" |}
            _ "faq" "git" eq_refl) _).
  discriminate.
Defined.

(** *** Routing *)

Example resolve_show_dictionary :
  Urls.resolve "/dictionaries/hello/cs/"
  = Some ("trans.views.show_dictionary",
          [("project", Urls.Str "hello"); ("lang", Urls.Str "cs")]).
Proof. reflexivity. Qed.

Example resolve_upload_as_language :
  Urls.resolve "/dictionaries/hello/upload/"
  = Some ("trans.views.show_dictionary",
          [("project", Urls.Str "hello"); ("lang", Urls.Str "upload")]).
Proof. reflexivity. Qed.

Example resolve_ignore_check :
  Urls.resolve "/js/ignore-check/12/"
  = Some ("trans.views.ignore_check", [("check_id", Urls.Str "12")]).
Proof. reflexivity. Qed.

Example resolve_projects :
  Urls.resolve "/projects/"
  = Some ("django.views.generic.simple.redirect_to",
          [("url", Urls.Str "/")]).
Proof. reflexivity. Qed.

Lemma append_assoc (a b c : string) : (a +:+ b) +:+ c = a +:+ (b +:+ c).
Proof.
  induction a as [| x a IH]; [reflexivity |].
  change (String x ((a +:+ b) +:+ c) = String x (a +:+ (b +:+ c))).
  f_equal. exact IH.
Qed.

Lemma append_nil_r (a : string) : a +:+ "" = a.
Proof.
  induction a as [| x a IH]; [reflexivity |].
  change (String x (a +:+ "") = String x a). f_equal. exact IH.
Qed.

Lemma append_eq_nil (a b : string) : a +:+ b = "" -> a = "" /\ b = "".
Proof. destruct a; simpl; [auto | discriminate]. Qed.

Definition slash : ascii := "/"%char.
Definition line_feed : ascii := "010"%char.

Lemma split_acc_cons (cur : string) (c : ascii) (rest : string) :
  Weblate.split_acc slash cur (String c rest)
  = if Ascii.eqb c slash then cur :: Weblate.split_acc slash "" rest
    else Weblate.split_acc slash (cur +:+ String c "") rest.
Proof. reflexivity. Qed.

(** A text without a slash is one segment. *)
Lemma split_acc_segment (seg rest cur : string) :
  Urls.all_in_class Urls.NotSlash seg = true ->
  Weblate.split_acc slash cur (seg +:+ rest)
  = Weblate.split_acc slash (cur +:+ seg) rest.
Proof.
  revert cur. induction seg as [| c seg IH]; intros cur Hseg; simpl.
  - rewrite append_nil_r. reflexivity.
  - unfold Urls.all_in_class in Hseg. simpl in Hseg.
    apply andb_true_iff in Hseg. destruct Hseg as [Hc Hseg].
    apply negb_true_iff in Hc. fold slash in Hc. rewrite Hc.
    rewrite IH by exact Hseg. rewrite append_assoc. reflexivity.
Qed.

(** Segments put together with slashes. *)
Fixpoint join (segs : list string) : string :=
  match segs with
  | [] => ""
  | [seg] => seg
  | seg :: rest => seg +:+ "/" +:+ join rest
  end.

Lemma split_join (segs : list string) :
  segs <> [] ->
  Forall (fun seg => Urls.all_in_class Urls.NotSlash seg = true) segs ->
  forall cur,
    Weblate.split_acc slash cur (join segs)
    = match segs with
      | seg :: rest => (cur +:+ seg) :: rest
      | [] => []
      end.
Proof.
  induction segs as [| seg rest IH]; intros Hne Hall cur; [congruence |].
  inversion Hall as [| ? ? Hseg Hrest]. subst.
  destruct rest as [| seg' rest'].
  - simpl. rewrite <- (append_nil_r seg) at 1.
    rewrite split_acc_segment by exact Hseg. reflexivity.
  - change (join (seg :: seg' :: rest'))
      with (seg +:+ "/" +:+ join (seg' :: rest')).
    rewrite split_acc_segment by exact Hseg.
    change ("/" +:+ join (seg' :: rest'))
      with (String slash (join (seg' :: rest'))).
    rewrite split_acc_cons. change (Ascii.eqb slash slash) with true.
    cbv iota.
    rewrite (IH ltac:(discriminate) Hrest ""). reflexivity.
Qed.

Lemma chomp_cons (c c' : ascii) (rest : string) :
  Urls.chomp (String c (String c' rest))
  = option_map (String c) (Urls.chomp (String c' rest)).
Proof. reflexivity. Qed.

(** [chomp] takes a final line feed off, and nothing else. *)
Lemma chomp_line_feed (path path' : string) :
  Urls.chomp path = Some path' -> path = path' +:+ String line_feed "".
Proof.
  revert path'. induction path as [| c rest IH]; intros path' Hchomp;
    [discriminate |].
  destruct rest as [| c' rest'].
  - simpl in Hchomp. destruct (Ascii.eqb c "010") eqn:Hc; [| discriminate].
    inversion Hchomp. subst path'. apply Ascii.eqb_eq in Hc. subst c.
    reflexivity.
  - rewrite chomp_cons in Hchomp.
    destruct (Urls.chomp (String c' rest')) as [tail |] eqn:Htail;
      [| discriminate].
    inversion Hchomp. subst path'.
    rewrite (IH tail eq_refl). reflexivity.
Qed.

(** Taking the final line feed off a path takes it off the last segment. *)
Lemma split_chomp (path path' : string) :
  Urls.chomp path = Some path' ->
  forall cur,
  exists segs seg,
    Weblate.split_acc slash cur path
    = segs ++ [seg +:+ String line_feed ""]
    /\ Weblate.split_acc slash cur path' = segs ++ [seg].
Proof.
  revert path'. induction path as [| c rest IH]; intros path' Hchomp cur;
    [discriminate |].
  destruct rest as [| c' rest'].
  - simpl in Hchomp. destruct (Ascii.eqb c "010") eqn:Hc; [| discriminate].
    inversion Hchomp. subst path'. apply Ascii.eqb_eq in Hc. subst c.
    exists [], cur. split; reflexivity.
  - rewrite chomp_cons in Hchomp.
    destruct (Urls.chomp (String c' rest')) as [tail |] eqn:Htail;
      [| discriminate].
    inversion Hchomp. subst path'.
    rewrite (split_acc_cons cur c (String c' rest')).
    rewrite (split_acc_cons cur c tail).
    destruct (Ascii.eqb c slash).
    + destruct (IH tail eq_refl "") as [segs [seg [H1 H2]]].
      exists (cur :: segs), seg. rewrite H1, H2. split; reflexivity.
    + destruct (IH tail eq_refl (cur +:+ String c ""))
        as [segs [seg [H1 H2]]].
      exists segs, seg. split; assumption.
Qed.

Lemma split_acc_nonempty (path cur : string) :
  Weblate.split_acc slash cur path <> [].
Proof.
  revert cur. induction path as [| c rest IH]; intros cur; [discriminate |].
  rewrite split_acc_cons. destruct (Ascii.eqb c slash);
    [discriminate | apply IH].
Qed.

(** The last segment of a path is empty only for the empty path and for a
    path that ends with a slash. *)
Lemma split_last_empty (path : string) :
  forall cur,
    List.last (Weblate.split_acc slash cur path) "x" = "" ->
    (path = "" /\ cur = "") \/ exists p, path = p +:+ "/".
Proof.
  induction path as [| c rest IH]; intros cur Hlast.
  - left. simpl in Hlast. auto.
  - right. rewrite split_acc_cons in Hlast.
    destruct (Ascii.eqb c slash) eqn:Hc.
    + apply Ascii.eqb_eq in Hc. subst c.
      assert (Hrest : List.last (Weblate.split_acc slash "" rest) "x" = "").
      { destruct (Weblate.split_acc slash "" rest) eqn:Hs; [| exact Hlast].
        exfalso. exact (split_acc_nonempty _ _ Hs). }
      destruct (IH "" Hrest) as [[-> _] | [p ->]].
      * exists "". reflexivity.
      * exists (String slash p). reflexivity.
    + destruct (IH _ Hlast) as [[_ Hcur] | [p ->]].
      * apply append_eq_nil in Hcur. destruct Hcur as [_ Hcur].
        discriminate.
      * exists (String c p). reflexivity.
Qed.

(** Every pattern of the table ends with [/$]: its last piece is the empty
    word. *)
Definition ends_with_slash (ps : list Urls.piece) : bool :=
  match List.last ps (Urls.Lit "x") with
  | Urls.Lit text => String.eqb text ""
  | Urls.Group _ _ => false
  end.

Lemma match_segments_cons (p : Urls.piece) (ps : list Urls.piece)
  (seg : string) (segs : list string) :
  Urls.match_segments (p :: ps) (seg :: segs)
  = match p with
    | Urls.Lit text =>
        if String.eqb text seg then Urls.match_segments ps segs else None
    | Urls.Group name c =>
        if Urls.all_in_class c seg
        then option_map (cons (name, seg)) (Urls.match_segments ps segs)
        else None
    end.
Proof. destruct p; reflexivity. Qed.

Lemma match_last_empty (ps : list Urls.piece) :
  ends_with_slash ps = true ->
  forall segs captured,
    Urls.match_segments ps segs = Some captured ->
    List.last segs "x" = "".
Proof.
  induction ps as [| p ps IH]; intros Hend segs captured Hmatch;
    [discriminate |].
  destruct segs as [| seg segs];
    [destruct p; simpl in Hmatch; discriminate Hmatch |].
  destruct ps as [| p' ps'].
  - destruct segs as [| seg' segs'].
    + unfold ends_with_slash in Hend. simpl in Hend.
      destruct p as [text | name c]; [| discriminate Hend].
      apply String.eqb_eq in Hend. subst text.
      cbn [Urls.match_segments] in Hmatch.
      destruct (String.eqb "" seg) eqn:Hseg; [| discriminate Hmatch].
      apply String.eqb_eq in Hseg. subst seg. reflexivity.
    + simpl in Hmatch. destruct p as [text | name c].
      * destruct (String.eqb text seg); discriminate Hmatch.
      * destruct (Urls.all_in_class c seg); discriminate Hmatch.
  - assert (Hend' : ends_with_slash (p' :: ps') = true) by exact Hend.
    assert (Htail : exists captured',
               Urls.match_segments (p' :: ps') segs = Some captured').
    { rewrite match_segments_cons in Hmatch. destruct p as [text | name c].
      - destruct (String.eqb text seg); [| discriminate Hmatch]. eauto.
      - destruct (Urls.all_in_class c seg); [| discriminate Hmatch].
        destruct (Urls.match_segments (p' :: ps') segs) as [captured' |];
          [eauto | discriminate Hmatch]. }
    destruct Htail as [captured' Htail].
    destruct segs as [| seg' segs'];
      [destruct p'; simpl in Htail; discriminate Htail |].
    exact (IH Hend' (seg' :: segs') captured' Htail).
Qed.

(** The segments a pattern is matched against: those of the path, without
    the line feed that may end it. *)
Definition path_segments (path : string) : list string :=
  match Urls.chomp path with
  | Some path' => Weblate.split "/" path'
  | None => Weblate.split "/" path
  end.

Lemma search_segments (ps : list Urls.piece) (path : string) :
  ends_with_slash ps = true ->
  Urls.search ps path = Urls.match_segments ps (path_segments path).
Proof.
  intros Hend. unfold Urls.search, path_segments.
  destruct (Urls.chomp path) as [path' |] eqn:Hchomp.
  - destruct (Urls.match_segments ps (Weblate.split "/" path))
      as [captured |] eqn:Hdirect; [| reflexivity].
    exfalso. apply (match_last_empty ps Hend) in Hdirect.
    destruct (split_chomp path path' Hchomp "") as [segs [seg [Hsplit _]]].
    unfold Weblate.split in Hdirect. fold slash in Hdirect.
    rewrite Hsplit, List.last_last in Hdirect.
    apply append_eq_nil in Hdirect. destruct Hdirect as [_ Hfeed].
    discriminate.
  - destruct (Urls.match_segments ps (Weblate.split "/" path));
      reflexivity.
Qed.

(** Two pieces that no segment matches both, and two patterns that no path
    matches both: they differ in length, or in a place where both have a
    word, or one has a word that the group of the other refuses. *)
Definition piece_apart (a b : Urls.piece) : bool :=
  match a, b with
  | Urls.Lit s, Urls.Lit t => negb (String.eqb s t)
  | Urls.Lit s, Urls.Group _ c => negb (Urls.all_in_class c s)
  | Urls.Group _ c, Urls.Lit s => negb (Urls.all_in_class c s)
  | Urls.Group _ _, Urls.Group _ _ => false
  end.

Fixpoint apart (p q : list Urls.piece) : bool :=
  match p, q with
  | [], [] => false
  | a :: p', b :: q' => piece_apart a b || apart p' q'
  | _, _ => true
  end.

Fixpoint pairwise_apart (table : list Urls.route) : bool :=
  match table with
  | [] => true
  | r :: rest =>
      forallb (fun r' => apart (Urls.pattern r) (Urls.pattern r')) rest
      && pairwise_apart rest
  end.

Definition well_formed (table : list Urls.route) : bool :=
  forallb (fun r => ends_with_slash (Urls.pattern r)) table
  && pairwise_apart table.

Lemma apart_sym (p q : list Urls.piece) : apart p q = apart q p.
Proof.
  revert q. induction p as [| a p IH]; intros [| b q]; try reflexivity.
  simpl. rewrite IH. f_equal. destruct a, b; simpl; try reflexivity.
  rewrite String.eqb_sym. reflexivity.
Qed.

Lemma apart_sound (p q : list Urls.piece) :
  apart p q = true ->
  forall segs captured,
    Urls.match_segments p segs = Some captured ->
    Urls.match_segments q segs = None.
Proof.
  revert q. induction p as [| a p IH]; intros q Hapart segs captured Hp.
  - destruct segs; [| simpl in Hp; discriminate Hp].
    destruct q as [| b q]; [simpl in Hapart; discriminate Hapart |].
    destruct b; reflexivity.
  - destruct segs as [| seg segs]; [destruct a; simpl in Hp; discriminate Hp |].
    destruct q as [| b q]; [reflexivity |].
    cbn [apart] in Hapart. rewrite match_segments_cons in Hp |- *.
    assert (Htail : exists captured',
               Urls.match_segments p segs = Some captured'
               /\ match a with
                  | Urls.Lit text => text = seg
                  | Urls.Group _ c => Urls.all_in_class c seg = true
                  end).
    { destruct a as [text | name c].
      - destruct (String.eqb text seg) eqn:Hseg; [| discriminate Hp].
        apply String.eqb_eq in Hseg. eauto.
      - destruct (Urls.all_in_class c seg) eqn:Hseg; [| discriminate Hp].
        destruct (Urls.match_segments p segs) as [captured' |];
          [eauto | discriminate Hp]. }
    destruct Htail as [captured' [Htail Ha]].
    apply orb_true_iff in Hapart. destruct Hapart as [Hpiece | Hrest].
    + destruct a as [s | n c], b as [t | n' c']; simpl in Hpiece.
      * subst seg. apply negb_true_iff in Hpiece.
        rewrite String.eqb_sym, Hpiece. reflexivity.
      * subst seg. apply negb_true_iff in Hpiece. rewrite Hpiece.
        reflexivity.
      * apply negb_true_iff in Hpiece.
        destruct (String.eqb t seg) eqn:Hseg; [| reflexivity].
        apply String.eqb_eq in Hseg. subst seg. congruence.
      * discriminate Hpiece.
    + rewrite (IH q Hrest segs captured' Htail).
      destruct b as [t | n' c'].
      * destruct (String.eqb t seg); reflexivity.
      * destruct (Urls.all_in_class c' seg); reflexivity.
Qed.

(** In a well-formed table a path has at most one route. *)
Lemma at_most_one_route (table : list Urls.route) :
  well_formed table = true ->
  forall r r' path captured captured',
    In r table -> In r' table ->
    Urls.search (Urls.pattern r) path = Some captured ->
    Urls.search (Urls.pattern r') path = Some captured' ->
    r = r'.
Proof.
  unfold well_formed. intros Hwf. apply andb_true_iff in Hwf.
  destruct Hwf as [Hends Hapart].
  induction table as [| r0 rest IH]; intros r r' path captured captured'
    Hr Hr' Hs Hs'; [contradiction |].
  cbn [forallb] in Hends. apply andb_true_iff in Hends.
  destruct Hends as [Hend0 Hends].
  cbn [pairwise_apart] in Hapart. apply andb_true_iff in Hapart.
  destruct Hapart as [Hapart0 Hapart].
  rewrite List.forallb_forall in Hapart0, Hends.
  assert (Hclash : forall a c0 c,
             In a rest ->
             Urls.search (Urls.pattern r0) path = Some c0 ->
             Urls.search (Urls.pattern a) path = Some c -> False).
  { intros a c0 c Ha H0 H.
    rewrite search_segments in H0 by exact Hend0.
    rewrite search_segments in H by exact (Hends a Ha).
    rewrite (apart_sound _ _ (Hapart0 a Ha) _ _ H0) in H. discriminate. }
  destruct Hr as [<- | Hr], Hr' as [<- | Hr'].
  - reflexivity.
  - exfalso. exact (Hclash _ _ _ Hr' Hs Hs').
  - exfalso. exact (Hclash _ _ _ Hr Hs' Hs).
  - apply (IH (proj2 (List.forallb_forall _ _) Hends) Hapart
              r r' path captured captured' Hr Hr' Hs Hs').
Qed.

(** What [resolve_in] answers comes from a route of the table that matches,
    and it answers nothing only when no route matches. *)
Lemma resolve_in_some (table : list Urls.route) (path : string)
  (answer : string * list (string * Urls.arg)) :
  Urls.resolve_in table path = Some answer ->
  exists r captured,
    In r table
    /\ Urls.search (Urls.pattern r) path = Some captured
    /\ answer = (Urls.view r, Urls.kwargs r captured).
Proof.
  induction table as [| r0 rest IH]; intros Hres; [discriminate |].
  cbn [Urls.resolve_in] in Hres.
  destruct (Urls.search (Urls.pattern r0) path) as [captured |] eqn:Hs.
  - inversion Hres. exists r0, captured. repeat split; auto. left.
    reflexivity.
  - destruct (IH Hres) as [r [captured [Hin [Hs' Hans]]]].
    exists r, captured. repeat split; auto. right. exact Hin.
Qed.

Lemma resolve_in_none (table : list Urls.route) (path : string) :
  Urls.resolve_in table path = None ->
  forall r, In r table -> Urls.search (Urls.pattern r) path = None.
Proof.
  induction table as [| r0 rest IH]; intros Hres r Hin; [contradiction |].
  cbn [Urls.resolve_in] in Hres.
  destruct (Urls.search (Urls.pattern r0) path) as [captured |] eqn:Hs;
    [discriminate |].
  destruct Hin as [<- | Hin]; [exact Hs | exact (IH Hres r Hin)].
Qed.

(** In a well-formed table the route that matches is the one answered,
    wherever it stands. *)
Lemma matching_route_answers (table : list Urls.route) :
  well_formed table = true ->
  forall r path captured,
    In r table ->
    Urls.search (Urls.pattern r) path = Some captured ->
    Urls.resolve_in table path = Some (Urls.view r, Urls.kwargs r captured).
Proof.
  intros Hwf r path captured Hin Hs.
  destruct (Urls.resolve_in table path) as [answer |] eqn:Hres.
  - destruct (resolve_in_some _ _ _ Hres) as [r' [captured' [Hin' [Hs' ->]]]].
    pose proof (at_most_one_route table Hwf r r' path captured captured'
                  Hin Hin' Hs Hs') as <-.
    congruence.
  - rewrite (resolve_in_none _ _ Hres r Hin) in Hs. discriminate.
Qed.

Lemma urlpatterns_well_formed : well_formed Urls.urlpatterns = true.
Proof. vm_compute. reflexivity. Qed.

(** X18: the application routes of [urlpatterns] do not overlap, so their
    order in the table is immaterial: tried in any other order they send
    every path to the same view with the same arguments, or to none. *)
Theorem route_order_is_immaterial (table : list Urls.route) (path : string) :
  Permutation Urls.urlpatterns table ->
  Urls.resolve_in table path = Urls.resolve_in Urls.urlpatterns path.
Proof.
  intros Hperm.
  destruct (Urls.resolve_in table path) as [answer |] eqn:Hres.
  - destruct (resolve_in_some _ _ _ Hres) as [r [captured [Hin [Hs ->]]]].
    symmetry. apply (matching_route_answers _ urlpatterns_well_formed).
    + exact (Permutation_in _ (Permutation_sym Hperm) Hin).
    + exact Hs.
  - destruct (Urls.resolve_in Urls.urlpatterns path) as [answer |] eqn:Hres';
      [| reflexivity].
    destruct (resolve_in_some _ _ _ Hres') as [r [captured [Hin [Hs _]]]].
    rewrite (resolve_in_none _ _ Hres r (Permutation_in _ Hperm Hin)) in Hs.
    discriminate.
Qed.

Lemma route_order_is_immaterial_witness :
  Urls.resolve_in (rev Urls.urlpatterns) "dictionaries/hello/cs/upload/"
  = Urls.resolve_in Urls.urlpatterns "dictionaries/hello/cs/upload/"
  /\ Urls.resolve_in Urls.urlpatterns "dictionaries/hello/cs/upload/"
     = Some ("trans.views.upload_dictionary",
             [("project", Urls.Str "hello"); ("lang", Urls.Str "cs")]).
Proof.
  split; [| reflexivity].
  apply route_order_is_immaterial. apply Permutation_rev.
Defined.

(** X19: a path that an application route answers ends with a slash, or
    with a slash and one line feed: no route serves a path without its
    final slash. *)
Theorem routed_paths_end_with_a_slash (path_info : string)
  (answer : string * list (string * Urls.arg)) :
  Urls.resolve path_info = Some answer ->
  exists p,
    path_info = p +:+ "/" \/ path_info = p +:+ "/" +:+ String line_feed "".
Proof.
  intros Hres. unfold Urls.resolve in Hres.
  destruct path_info as [| c rest]; [discriminate |].
  destruct c as [[] [] [] [] [] [] [] []]; try discriminate Hres.
  destruct (resolve_in_some _ _ _ Hres) as [r [captured [Hin [Hs _]]]].
  pose proof urlpatterns_well_formed as Hwf. unfold well_formed in Hwf.
  apply andb_true_iff in Hwf. destruct Hwf as [Hends _].
  rewrite List.forallb_forall in Hends.
  rewrite search_segments in Hs by exact (Hends r Hin).
  apply (match_last_empty _ (Hends r Hin)) in Hs.
  unfold path_segments in Hs.
  destruct (Urls.chomp rest) as [rest' |] eqn:Hchomp.
  - apply chomp_line_feed in Hchomp. subst rest.
    destruct (split_last_empty rest' "" Hs) as [[-> _] | [p ->]].
    + exists "". right. reflexivity.
    + exists (String "/" p). right. rewrite append_assoc. reflexivity.
  - destruct (split_last_empty rest "" Hs) as [[-> _] | [p ->]].
    + exists "". left. reflexivity.
    + exists (String "/" p). left. reflexivity.
Qed.

Lemma routed_paths_end_with_a_slash_witness :
  exists p,
    "/checks/" = p +:+ "/"
    \/ "/checks/" = p +:+ "/" +:+ String line_feed "".
Proof.
  apply (routed_paths_end_with_a_slash "/checks/"
           ("trans.views.show_checks", [])).
  reflexivity.
Defined.

(** The segments that a pattern and the values of its groups make: a word
    stands for itself and a group takes the value of its name, which has
    to be of its class. *)
Fixpoint fill (ps : list Urls.piece) (values : list (string * string))
  : option (list string) :=
  match ps with
  | [] => match values with [] => Some [] | _ :: _ => None end
  | Urls.Lit text :: ps' => option_map (cons text) (fill ps' values)
  | Urls.Group name c :: ps' =>
      match values with
      | (n, v) :: values' =>
          if (String.eqb name n && Urls.all_in_class c v)%bool
          then option_map (cons v) (fill ps' values')
          else None
      | [] => None
      end
  end.

Definition words_without_slash (ps : list Urls.piece) : bool :=
  forallb (fun p => match p with
                    | Urls.Lit text => Urls.all_in_class Urls.NotSlash text
                    | Urls.Group _ _ => true
                    end) ps.

Lemma digits_are_not_slashes (c : Urls.class) (s : string) :
  Urls.all_in_class c s = true ->
  Urls.all_in_class Urls.NotSlash s = true.
Proof.
  destruct c; [auto |]. unfold Urls.all_in_class.
  induction (list_ascii_of_string s) as [| ch l IH]; [reflexivity |].
  cbn [forallb]. intros H. apply andb_true_iff in H. destruct H as [Hch Hl].
  rewrite (IH Hl), andb_true_r. unfold Urls.in_class in *.
  destruct (Ascii.eqb ch "/") eqn:Hs; [| reflexivity].
  apply Ascii.eqb_eq in Hs. subst ch. discriminate Hch.
Qed.

Lemma fill_matches (ps : list Urls.piece) :
  words_without_slash ps = true ->
  forall values segs,
    fill ps values = Some segs ->
    Urls.match_segments ps segs = Some values
    /\ Forall (fun seg => Urls.all_in_class Urls.NotSlash seg = true) segs
    /\ length segs = length ps.
Proof.
  induction ps as [| p ps IH]; intros Hwords values segs Hfill.
  - destruct values; [| discriminate Hfill]. inversion Hfill.
    repeat split. constructor.
  - cbn [words_without_slash forallb] in Hwords.
    apply andb_true_iff in Hwords. destruct Hwords as [Hword Hwords].
    destruct p as [text | name c]; cbn [fill] in Hfill.
    + destruct (fill ps values) as [segs' |] eqn:Htail;
        [| discriminate Hfill].
      inversion Hfill. subst segs.
      destruct (IH Hwords values segs' Htail) as [Hm [Hall Hlen]].
      rewrite match_segments_cons, String.eqb_refl. repeat split.
      * exact Hm.
      * constructor; assumption.
      * simpl. rewrite Hlen. reflexivity.
    + destruct values as [| [n v] values']; [discriminate Hfill |].
      destruct (String.eqb name n && Urls.all_in_class c v)%bool eqn:Hfit;
        [| discriminate Hfill].
      apply andb_true_iff in Hfit. destruct Hfit as [Hname Hv].
      apply String.eqb_eq in Hname. subst n.
      destruct (fill ps values') as [segs' |] eqn:Htail;
        [| discriminate Hfill].
      inversion Hfill. subst segs.
      destruct (IH Hwords values' segs' Htail) as [Hm [Hall Hlen]].
      rewrite match_segments_cons, Hv, Hm. repeat split.
      * constructor; [exact (digits_are_not_slashes c v Hv) | exact Hall].
      * simpl. rewrite Hlen. reflexivity.
Qed.

Lemma urlpatterns_words :
  forallb (fun r => words_without_slash (Urls.pattern r)) Urls.urlpatterns
  = true.
Proof. vm_compute. reflexivity. Qed.

(** X20: the path made of the words of an application route and of values
    for its groups, each of the class of its group, with slashes between
    them, resolves to the view of that route with those values and the
    extra arguments of the route. *)
Theorem filled_route_resolves_to_itself (r : Urls.route)
  (values : list (string * string)) (segs : list string) :
  In r Urls.urlpatterns ->
  fill (Urls.pattern r) values = Some segs ->
  Urls.resolve (String "/" (join segs))
  = Some (Urls.view r, Urls.kwargs r values).
Proof.
  intros Hin Hfill. cbn [Urls.resolve].
  apply (matching_route_answers _ urlpatterns_well_formed r _ _ Hin).
  pose proof urlpatterns_words as Hwords.
  rewrite List.forallb_forall in Hwords.
  destruct (fill_matches _ (Hwords r Hin) values segs Hfill)
    as [Hm [Hall Hlen]].
  assert (Hsplit : Weblate.split "/" (join segs) = segs).
  { unfold Weblate.split. fold slash.
    destruct segs as [| seg rest].
    - exfalso. destruct (Urls.pattern r) as [| p ps] eqn:Hp.
      + pose proof urlpatterns_well_formed as Hwf. unfold well_formed in Hwf.
        apply andb_true_iff in Hwf. destruct Hwf as [Hends _].
        rewrite List.forallb_forall in Hends. specialize (Hends r Hin).
        rewrite Hp in Hends. discriminate Hends.
      + discriminate Hlen.
    - rewrite (split_join (seg :: rest) ltac:(discriminate) Hall "").
      reflexivity. }
  unfold Urls.search. rewrite Hsplit, Hm. reflexivity.
Qed.

Lemma filled_route_resolves_to_itself_witness :
  Urls.resolve "/dictionaries/hello/cs/edit/"
  = Some ("trans.views.edit_dictionary",
          [("project", Urls.Str "hello"); ("lang", Urls.Str "cs")]).
Proof.
  apply (filled_route_resolves_to_itself
           (Urls.route_ [Urls.Lit "dictionaries";
                         Urls.Group "project" Urls.NotSlash;
                         Urls.Group "lang" Urls.NotSlash;
                         Urls.Lit "edit"; Urls.Lit ""]
                        "trans.views.edit_dictionary")
           [("project", "hello"); ("lang", "cs")]
           ["dictionaries"; "hello"; "cs"; "edit"; ""]).
  - do 7 right. left. reflexivity.
  - reflexivity.
Defined.
